(** * doctr: the text-detection training script and the dataset contract

    A shallow embedding of [references/detection/train_pytorch.py]
    ([record_lr], [fit_one_epoch], [evaluate] and the training loop of
    [main]) and of the sample contract that [tests/tensorflow/test_datasets_tf.py]
    checks on the dataset loaders.

    The deep-learning framework is not part of the program: every call into
    it (forward and backward pass, gradient clipping, optimizer, gradient
    scaler, scheduler, [torch.save]) is recorded as an [event], and the
    functions of the script are written in a writer-and-exception monad over
    the trace of these events.  Numbers the framework computes (losses,
    metrics) are inputs of the model.  Progress reporting ([tqdm], Slack,
    [print], Weights & Biases) never feeds back into the control flow and
    is left out, except where evaluating its argument can raise: the last
    line of [fit_one_epoch], which reads the loss of the last batch, and
    the log message of an epoch and the report of [--test-only], whose
    formatting raises on an undefined metric ([logging]). *)

From Stdlib Require Import ZArith QArith Qminmax Bool Lia.
From stdpp Require Import base list strings pretty gmap.

Local Open Scope nat_scope.

(** ** Python floats *)

Module PyFloat.

(** A Python [float]: a finite (dyadic, hence rational) value, one of the
    two infinities, or a NaN. *)
Inductive pyfloat : Type :=
| Finite (q : Q)
| PosInf
| NegInf
| NaN.

Definition Qltb (x y : Q) : bool := negb (Qle_bool y x).

(** [a < b] on floats: every comparison with a NaN is false. *)
Definition flt (a b : pyfloat) : bool :=
  match a, b with
  | NaN, _ | _, NaN => false
  | _, NegInf => false
  | NegInf, _ => true
  | PosInf, _ => false
  | Finite _, PosInf => true
  | Finite x, Finite y => Qltb x y
  end.

(** [torch.isfinite] / [math.isfinite]. *)
Definition isfinite (a : pyfloat) : bool :=
  match a with Finite _ => true | _ => false end.

Definition isnan (a : pyfloat) : bool :=
  match a with NaN => true | _ => false end.

End PyFloat.
Export PyFloat.

(** ** Events, exceptions and the monad of the script *)

Inductive loader : Type := ValLoader | FunsdLoader | CordLoader.

(** [--sched], restricted by [argparse] to these three choices. *)
Inductive sched_choice : Type := Cosine | OneCycle | Poly.

Inductive event : Type :=
| ModelTrain                                   (* model.train() *)
| ModelEval                                    (* model.eval() *)
| MetricReset (l : loader)                     (* val_metric.reset(), on the metric kept for this loader *)
| NewGradScaler                                (* torch.cuda.amp.GradScaler() *)
| NewScheduler (k : sched_choice) (total : nat) (* CosineAnnealingLR / OneCycleLR / PolynomialLR *)
| NewMultiplicativeLR                          (* MultiplicativeLR(optimizer, ...) *)
| ZeroGrad                                     (* optimizer.zero_grad() *)
| Forward (autocast : bool)                    (* model(images, targets)["loss"] *)
| Backward (scaled : bool)                     (* [scaler.scale(train_loss)|train_loss].backward() *)
| Unscale                                      (* scaler.unscale_(optimizer) *)
| ClipGradNorm (max_norm : Z)                  (* torch.nn.utils.clip_grad_norm_(model.parameters(), max_norm) *)
| OptimizerStep                                (* optimizer.step() *)
| ScalerStep                                   (* scaler.step(optimizer) *)
| ScalerUpdate                                 (* scaler.update() *)
| SchedulerStep                                (* scheduler.step() *)
| EvalForward (l : loader) (autocast : bool)   (* model(images, targets, return_preds=True) *)
| SaveState (file : string).                   (* torch.save(model.state_dict(), file) *)

Inductive exn : Type :=
| ValueError
| ZeroDivisionError
| UnboundLocalError
| StopIteration
| FileNotFoundError
| IndexError
| TypeError.

Inductive outcome (A : Type) : Type :=
| Returned (a : A)
| Raised (e : exn).
Arguments Returned {A} a.
Arguments Raised {A} e.

(** A computation yields the events it performed and either a value or the
    exception that interrupted it; what was done before a [raise] stays
    done. *)
Definition M (A : Type) : Type := list event * outcome A.

Definition trace {A} (m : M A) : list event := fst m.
Definition result {A} (m : M A) : outcome A := snd m.

#[global] Instance M_ret : MRet M := λ A a, ([], Returned a).

#[global] Instance M_bind : MBind M := λ A B f m,
  match m with
  | (tr, Returned a) => let '(tr', r) := f a in (tr ++ tr', r)
  | (tr, Raised e) => (tr, Raised e)
  end.

Definition emit (e : event) : M unit := ([e], Returned tt).
Definition raise {A} (e : exn) : M A := ([], Raised e).

(** [try: m except Exception: pass] *)
Definition try_pass {A} (m : M A) : M unit := (trace m, Returned tt).

(** [if c: m] *)
Definition when (c : bool) (m : M unit) : M unit := if c then m else mret tt.

(** ** [fit_one_epoch] *)

(** The body of one training iteration, from [optimizer.zero_grad()] to the
    parameter update; it is the same text in [fit_one_epoch] and in
    [record_lr]. *)
Definition train_step (amp : bool) : M unit :=
  emit ZeroGrad;;
  if amp then
    emit (Forward true);;
    emit (Backward true);;
    emit Unscale;;
    emit (ClipGradNorm 5);;
    emit ScalerStep;;
    emit ScalerUpdate
  else
    emit (Forward false);;
    emit (Backward false);;
    emit (ClipGradNorm 5);;
    emit OptimizerStep.

(** [for images, targets in pbar: ...]; [bound] tells whether the local
    [train_loss] has been assigned. *)
Fixpoint fit_batches (amp : bool) (n_batches : nat) (bound : bool) : M bool :=
  match n_batches with
  | O => mret bound
  | S n =>
      train_step amp;;
      emit SchedulerStep;;
      fit_batches amp n true
  end.

(** [train_loader] is given by its number of batches.  The closing
    [send_on_slack(f"... {train_loss.item():.6}")] reads [train_loss], which
    no iteration has bound when the loader is empty. *)
Definition fit_one_epoch (train_loader : nat) (amp : bool) : M unit :=
  when amp (emit NewGradScaler);;
  emit ModelTrain;;
  bound ← fit_batches amp train_loader false;
  if (bound : bool) then mret tt else raise UnboundLocalError.

(** ** [evaluate] *)

Fixpoint eval_batches (l : loader) (amp : bool) (n_batches batch_cnt : nat) : M nat :=
  match n_batches with
  | O => mret batch_cnt
  | S n =>
      emit (EvalForward l amp);;
      eval_batches l amp n (S batch_cnt)
  end.

(** [val_loader] is given by its number of batches and [loss] is the mean
    the framework's arithmetic gives for [val_loss / batch_cnt];
    [val_loss /= batch_cnt] divides the integer 0 by the integer 0 on an
    empty loader. *)
Definition evaluate (l : loader) (val_loader : nat) (loss : pyfloat) (amp : bool)
  : M pyfloat :=
  emit ModelEval;;
  emit (MetricReset l);;
  batch_cnt ← eval_batches l amp val_loader 0;
  if (batch_cnt : nat) =? 0 then raise ZeroDivisionError else mret loss.

(** ** [record_lr] *)

Inductive control : Type := Continue | Break.

(** An entry [start_lr * gamma ** idx] of [lr_recorder], kept symbolic. *)
Inductive lr : Type := LrAt (idx : nat).

(** [for batch_idx, (images, targets) in enumerate(train_loader): ...];
    [todo] batches remain, [train_loss_at batch_idx] is the loss the forward
    pass returns on batch [batch_idx]. *)
Fixpoint record_lr_batches (amp : bool) (num_it : Z) (train_loss_at : nat -> pyfloat)
    (todo batch_idx : nat) (loss_recorder : list pyfloat) : M (list pyfloat) :=
  match todo with
  | O => mret loss_recorder
  | S n =>
      let train_loss := train_loss_at batch_idx in
      train_step amp;;
      emit SchedulerStep;;
      if negb (isfinite train_loss) then
        if batch_idx =? 0 then raise ValueError else mret loss_recorder
      else
        let loss_recorder := loss_recorder ++ [train_loss] in
        if (Z.of_nat batch_idx + 1 =? num_it)%Z then mret loss_recorder
        else record_lr_batches amp num_it train_loss_at n (S batch_idx) loss_recorder
  end.

(** [start_lr] and [end_lr] keep their (non-zero) defaults, so that
    [1 / (num_it - 1)] is the only division that can fail. *)
Definition record_lr (train_loader : nat) (train_loss_at : nat -> pyfloat)
    (num_it : Z) (amp : bool) : M (list lr * list pyfloat) :=
  if (Z.of_nat train_loader <? num_it)%Z then raise ValueError else
  emit ModelTrain;;
  if (num_it - 1 =? 0)%Z then raise ZeroDivisionError else
  emit NewMultiplicativeLR;;
  let lr_recorder := LrAt <$> seq 0 (Z.to_nat num_it) in
  when amp (emit NewGradScaler);;
  loss_recorder ← record_lr_batches amp num_it train_loss_at train_loader 0 [];
  mret (take (length (loss_recorder : list pyfloat)) lr_recorder, loss_recorder).

(** ** The log messages of [main] *)

Module logging.

(** A metric of [val_metric.summary()]: [None] when it is undefined, for
    want of ground truths or of predictions, which the loop tests with
    [val is None]. *)
Definition metric : Type := option Q.

(** [recall, precision, mean_iou] *)
Definition summary : Type := metric * metric * metric.

Inductive rendering : Type := Rendered | TypeError.

(** [f"{x:.2%}"]: [None] takes no format specification. *)
Definition percent (x : metric) : rendering :=
  match x with
  | Some _ => Rendered
  | None => TypeError
  end.

(** The fields of an f-string are formatted from left to right. *)
Definition and_then (r k : rendering) : rendering :=
  match r with
  | Rendered => k
  | TypeError => TypeError
  end.

(** [f"Recall: {recall:.2%} | Precision: {precision:.2%} | Mean IoU: {mean_iou:.2%}"] *)
Definition percents (s : summary) : rendering :=
  let '(recall, precision, mean_iou) := s in
  and_then (percent recall) (and_then (percent precision) (percent mean_iou)).

(** [any(val is None for val in (recall, precision, mean_iou))] *)
Definition any_undefined (s : summary) : bool :=
  let '(recall, precision, mean_iou) := s in
  existsb (λ val, match val with None => true | Some _ => false end)
          [recall; precision; mean_iou].

(** One of the three metrics is undefined. *)
Definition undefined (s : summary) : Prop :=
  let '(recall, precision, mean_iou) := s in None ∈ [recall; precision; mean_iou].

(** What the [try] block around the evaluation on a test set leaves in
    [funsd_recall, funsd_precision, funsd_mean_iou]: the summary the
    evaluation returned, or the initial [0.0, 0.0, 0.0] when it raised. *)
Definition test_summary (evaluation : outcome summary) : summary :=
  match evaluation with
  | Returned s => s
  | Raised _ => (Some 0%Q, Some 0%Q, Some 0%Q)
  end.

(** The construction of [log_msg] at the end of an epoch; the validation
    loss is a float and always formats. *)
Definition log_msg (val : summary) (funsd cord : outcome summary) : rendering :=
  if any_undefined val then Rendered
  else and_then (percents val)
         (and_then (percents (test_summary funsd)) (percents (test_summary cord))).

(** The report printed under [--test-only]. *)
Definition test_only_report (val : summary) : rendering := percents val.

End logging.

(** ** [main] *)

Module utils.

(** [utils.EarlyStopper] is imported by the script and is not part of the
    sources: the loop is verified for every implementation of its
    interface, the constructor and the method [early_stop], which answers
    and updates the object. *)
Class EarlyStopper (ES : Type) : Type := {
  new : Z -> pyfloat -> ES;
  early_stop : ES -> pyfloat -> bool * ES
}.

End utils.

(** The command-line options the training part of [main] reads;
    [epochs] is the number of iterations of [range(args.epochs)]. *)
Record args : Type := {
  epochs : nat;
  amp : bool;
  sched : sched_choice;
  save_interval_epoch : bool;
  early_stop : bool;
  early_stop_epochs : Z;
  early_stop_delta : pyfloat;
  test_only : bool;
  show_samples : bool;
  find_lr : bool
}.

(** What the set-up part of [main] builds and what the framework will
    compute: the lengths of the four data loaders, the experiment name, the
    loss of every forward pass of the learning-rate search, and the loss
    and the metrics [evaluate] obtains on a loader at the end of an
    epoch. *)
Record world : Type := {
  train_loader : nat;
  val_loader : nat;
  funsd_test_loader : nat;
  cord_test_loader : nat;
  exp_name : string;
  train_loss_at : nat -> pyfloat;
  loss_at : loader -> nat -> pyfloat;
  metrics_at : loader -> nat -> logging.summary
}.

(** [f"./{exp_name}.pt"] and [f"./{exp_name}_epoch{epoch + 1}.pt"] *)
Definition best_file (w : world) : string :=
  ("./" +:+ exp_name w +:+ ".pt")%string.

Definition epoch_file (w : world) (n : nat) : string :=
  ("./" +:+ exp_name w +:+ "_epoch" +:+ pretty n +:+ ".pt")%string.

(** The locals of [main] that live across the iterations of the loop. *)
Record loop_state (ES : Type) : Type := {
  min_loss : pyfloat;
  early_stopper : option ES
}.
Arguments min_loss {ES} _.
Arguments early_stopper {ES} _.

(** A message that cannot be formatted raises the [TypeError] of the
    format. *)
Definition render (r : logging.rendering) : M unit :=
  match r with
  | logging.Rendered => mret tt
  | logging.TypeError => raise TypeError
  end.

(** The evaluation on a test loader at the end of an epoch, as the [try]
    block around it sees it: the recall, precision and mean IoU that
    [evaluate] returns, or the exception it raises. *)
Definition test_evaluation (a : args) (w : world) (l : loader) (n epoch : nat)
  : outcome logging.summary :=
  match result (evaluate l n (loss_at w l epoch) (amp a)) with
  | Returned _ => Returned (metrics_at w l epoch)
  | Raised e => Raised e
  end.

(** The log message of an epoch, built from the metrics of its three
    evaluations. *)
Definition epoch_log (a : args) (w : world) (epoch : nat) : logging.rendering :=
  logging.log_msg (metrics_at w ValLoader epoch)
    (test_evaluation a w FunsdLoader (funsd_test_loader w) epoch)
    (test_evaluation a w CordLoader (cord_test_loader w) epoch).

Section Main.
Context {ES : Type} `{!utils.EarlyStopper ES}.
Variables (a : args) (w : world).

(** The body of [for epoch in range(args.epochs)], with the new values of
    the locals and whether it ended in [break]; the log message is built
    after the checkpoints are written and before the early stopper is
    asked. *)
Definition epoch_body (epoch : nat) (st : loop_state ES) : M (loop_state ES * control) :=
  fit_one_epoch (train_loader w) (amp a);;
  val_loss ← evaluate ValLoader (val_loader w) (loss_at w ValLoader epoch) (amp a);
  try_pass (evaluate FunsdLoader (funsd_test_loader w) (loss_at w FunsdLoader epoch) (amp a));;
  try_pass (evaluate CordLoader (cord_test_loader w) (loss_at w CordLoader epoch) (amp a));;
  min_loss' ← (if flt val_loss (min_loss st)
               then emit (SaveState (best_file w));; mret (val_loss : pyfloat)
               else mret (min_loss st));
  when (save_interval_epoch a) (emit (SaveState (epoch_file w (epoch + 1))));;
  render (epoch_log a w epoch);;
  if early_stop a then
    match early_stopper st with
    | Some s =>
        let '(halt, s') := utils.early_stop s val_loss in
        mret ({| min_loss := min_loss'; early_stopper := Some s' |},
              if halt then Break else Continue)
    | None => raise UnboundLocalError
    end
  else mret ({| min_loss := min_loss'; early_stopper := early_stopper st |}, Continue).

(** [for epoch in epochs_todo: ...] *)
Fixpoint training_loop (epochs_todo : list nat) (st : loop_state ES)
  : M (loop_state ES * control) :=
  match epochs_todo with
  | [] => mret (st, Continue)
  | epoch :: rest =>
      '(st', c) ← epoch_body epoch st;
      match c with
      | Break => mret (st', Break)
      | Continue => training_loop rest st'
      end
  end.

(** [min_loss = np.inf] and the optional [EarlyStopper(...)] *)
Definition initial_state : loop_state ES :=
  {| min_loss := PosInf;
     early_stopper :=
       if early_stop a
       then Some (utils.new (early_stop_epochs a) (early_stop_delta a))
       else None |}.

(** [main] from the scheduler on: the part reached by a training run. *)
Definition train : M (loop_state ES * control) :=
  match sched a with
  | Cosine => emit (NewScheduler Cosine (epochs a * train_loader w))
  | OneCycle => emit (NewScheduler OneCycle (epochs a * train_loader w))
  | Poly => emit (NewScheduler Poly (epochs a * train_loader w))
  end;;
  training_loop (seq 0 (epochs a)) initial_state.

(** [main], once the data loaders and the model are there; [--test-only]
    prints the metrics of the evaluation and [--show-samples] draws a first
    batch with [next(iter(train_loader))]. *)
Definition main : M unit :=
  if test_only a then
    evaluate ValLoader (val_loader w) (loss_at w ValLoader 0) (amp a);;
    render (logging.test_only_report (metrics_at w ValLoader 0))
  else if show_samples a then
    if train_loader w =? 0 then raise StopIteration else mret tt
  else if find_lr a then
    record_lr (train_loader w) (train_loss_at w) 100 (amp a);; mret tt
  else train;; mret tt.

End Main.

(** ** Properties of traces *)

#[global] Instance loader_eq_dec : EqDecision loader.
Proof. solve_decision. Defined.

#[global] Instance sched_choice_eq_dec : EqDecision sched_choice.
Proof. solve_decision. Defined.

#[global] Instance event_eq_dec : EqDecision event.
Proof. solve_decision. Defined.

(** Number of occurrences of an event in a trace. *)
Definition occurrences (e : event) (tr : list event) : nat :=
  length (filter (λ x, x = e) tr).

(** Wherever [e] occurs in [tr], the events [before] come right before it
    and the events [after] right after it. *)
Definition framed (before : list event) (e : event) (after tr : list event) : Prop :=
  ∀ pre post, tr = pre ++ e :: post →
    ∃ pre' post', pre = pre' ++ before ∧ post = after ++ post'.

(** Every parameter update comes right after the clipping of the gradient
    norm to 5, itself right after the backward pass (and the unscaling, when
    the update goes through the gradient scaler). *)
Definition clipped_before_update (tr : list event) : Prop :=
  framed [Backward false; ClipGradNorm 5] OptimizerStep [] tr ∧
  framed [Backward true; Unscale; ClipGradNorm 5] ScalerStep [] tr.

(** Every iteration (it opens with [optimizer.zero_grad()]) clips the
    gradient norm once, to 5, and updates the parameters once. *)
Definition every_iteration_clips (tr : list event) : Prop :=
  occurrences (ClipGradNorm 5) tr = occurrences ZeroGrad tr ∧
  occurrences OptimizerStep tr + occurrences ScalerStep tr = occurrences ZeroGrad tr ∧
  ∀ max_norm, ClipGradNorm max_norm ∈ tr → max_norm = 5%Z.

(** The events of the script outside the training iterations. *)
Definition bookkeeping (e : event) : Prop :=
  match e with
  | ModelTrain | NewGradScaler | ModelEval | MetricReset _ | EvalForward _ _ | SaveState _ =>
      True
  | _ => False
  end.

(** What a training pass does before its first iteration. *)
Definition setup_event (e : event) : Prop :=
  e = ModelTrain ∨ e = NewMultiplicativeLR ∨ e = NewGradScaler.

(** The events of one training iteration, scheduler step included. *)
Definition iteration (amp : bool) : list event :=
  trace (train_step amp;; emit SchedulerStep).

(** The passes over a data loader that a trace starts: [model.train()]
    opens a training pass, the reset of a loader's metric an evaluation
    pass. *)
Inductive pass : Type := TrainingPass | EvaluationPass (l : loader).

#[global] Instance pass_eq_dec : EqDecision pass.
Proof. solve_decision. Defined.

Definition pass_start (e : event) : option pass :=
  match e with
  | ModelTrain => Some TrainingPass
  | MetricReset l => Some (EvaluationPass l)
  | _ => None
  end.

Definition passes (tr : list event) : list pass := omap pass_start tr.

(** The training passes and the validation passes (on [val_loader]). *)
Definition train_val_passes (tr : list event) : list pass :=
  filter (λ p, p ≠ EvaluationPass FunsdLoader ∧ p ≠ EvaluationPass CordLoader) (passes tr).

(** [m] is the least of the losses observed, infinity when none is below
    it; a NaN is below nothing and is never taken. *)
Definition is_least (m : pyfloat) (losses : list pyfloat) : Prop :=
  isnan m = false ∧ (m = PosInf ∨ m ∈ losses) ∧ ∀ v, v ∈ losses → flt v m = false.

Definition is_save (e : event) : bool :=
  match e with SaveState _ => true | _ => false end.

(** A checkpoint of the model state is written somewhere in [tr]. *)
Definition saves (tr : list event) : Prop := ∃ file, SaveState file ∈ tr.

Section Loop.
Context {ES : Type} `{!utils.EarlyStopper ES}.
Variables (a : args) (w : world).

(** The loop of [main] cut after [n] iterations of [range]. *)
Definition run (n : nat) : M (loop_state ES * control) :=
  training_loop a w (seq 0 n) (initial_state a).

(** What iteration [n] (counted from 0) adds to the trace. *)
Definition epoch_events (n : nat) : list event :=
  drop (length (trace (run n))) (trace (run (S n))).

(** The validation losses of the first [n] epochs. *)
Definition val_losses (n : nat) : list pyfloat := loss_at w ValLoader <$> seq 0 n.

(** The answers of an early stopper to successive validation losses. *)
Fixpoint answers (s : ES) (losses : list pyfloat) : list bool :=
  match losses with
  | [] => []
  | v :: rest => let '(halt, s') := utils.early_stop s v in halt :: answers s' rest
  end.

End Loop.

(** Number of answers up to and including the first positive one. *)
Fixpoint epochs_until_halt (l : list bool) : nat :=
  match l with
  | [] => 0
  | true :: _ => 1
  | false :: rest => S (epochs_until_halt rest)
  end.

(** The events of the four passes of an epoch: training, validation, and
    the evaluations on the FUNSD and CORD test loaders. *)
Definition epoch_passes (a : args) (w : world) : list event :=
  trace (fit_one_epoch (train_loader w) (amp a))
  ++ trace (evaluate ValLoader (val_loader w) NaN (amp a))
  ++ trace (evaluate FunsdLoader (funsd_test_loader w) NaN (amp a))
  ++ trace (evaluate CordLoader (cord_test_loader w) NaN (amp a)).

(** The checkpoints written at the end of an epoch. *)
Definition checkpoints (a : args) (w : world) (epoch : nat) (val_loss min_loss : pyfloat)
  : list event :=
  (if flt val_loss min_loss then [SaveState (best_file w)] else [])
  ++ (if save_interval_epoch a then [SaveState (epoch_file w (epoch + 1))] else []).

(** Every scheduler step comes right after a parameter update (and the
    update of the scaler that closes it under AMP). *)
Definition scheduler_follows_update (amp : bool) (tr : list event) : Prop :=
  framed (if amp then [ScalerStep; ScalerUpdate] else [OptimizerStep]) SchedulerStep [] tr.

(** The number of epochs the loop is to perform: all of them, or those up
    to the first positive answer of the early stopper. *)
Definition epochs_expected {ES : Type} `{!utils.EarlyStopper ES} (a : args) (w : world) : nat :=
  if early_stop a
  then epochs_until_halt
         (answers (utils.new (early_stop_epochs a) (early_stop_delta a) : ES)
                  (val_losses w (epochs a)))
  else epochs a.

(** A sample implementation of the early-stopper interface, on which the
    theorems are exercised: it halts once the loss has failed to improve
    [patience] times in a row. *)
Record patience_stopper : Type := {
  patience : Z;
  counter : Z;
  best : pyfloat
}.

#[global] Instance patience_stopper_impl : utils.EarlyStopper patience_stopper := {|
  utils.new p _ := {| patience := p; counter := 0; best := PosInf |};
  utils.early_stop s v :=
    if flt v (best s)
    then (false, {| patience := patience s; counter := 0; best := v |})
    else let c := (counter s + 1)%Z in
         ((patience s <=? c)%Z, {| patience := patience s; counter := c; best := best s |})
|}.

Definition sample_args : args :=
  {| epochs := 3; amp := true; sched := Poly; save_interval_epoch := false;
     early_stop := false; early_stop_epochs := 1; early_stop_delta := Finite 0;
     test_only := false; show_samples := false; find_lr := false |}.

(** The same run with early stopping after one epoch without progress. *)
Definition stopping_args : args :=
  {| epochs := 5; amp := false; sched := Cosine; save_interval_epoch := true;
     early_stop := true; early_stop_epochs := 1; early_stop_delta := Finite 0;
     test_only := false; show_samples := false; find_lr := false |}.

Definition sample_world : world :=
  {| train_loader := 2; val_loader := 1; funsd_test_loader := 1; cord_test_loader := 0;
     exp_name := "db_resnet50";
     train_loss_at := λ _, Finite 1;
     loss_at := λ _ epoch,
       match epoch with 0 => Finite 3 | 1 => Finite 2 | 2 => Finite (5 # 2) | _ => NaN end;
     metrics_at := λ _ _, (Some (1 # 2), Some (1 # 2), Some (1 # 2))%Q |}.

(** The same world with a model that predicts no box on the FUNSD test
    set: the precision and the mean IoU of that evaluation are
    undefined. *)
Definition no_prediction_world : world :=
  {| train_loader := train_loader sample_world; val_loader := val_loader sample_world;
     funsd_test_loader := funsd_test_loader sample_world;
     cord_test_loader := cord_test_loader sample_world;
     exp_name := exp_name sample_world; train_loss_at := train_loss_at sample_world;
     loss_at := loss_at sample_world;
     metrics_at := λ l _,
       match l with
       | FunsdLoader => (Some 0%Q, None, None)
       | _ => (Some (1 # 2), Some (1 # 2), Some (1 # 2))%Q
       end |}.

(** A world whose validation loader is empty. *)
Definition empty_val_world : world :=
  {| train_loader := 1; val_loader := 0; funsd_test_loader := 0; cord_test_loader := 0;
     exp_name := "x"; train_loss_at := λ _, NaN; loss_at := λ _ _, NaN;
     metrics_at := λ _ _, (None, None, None) |}.

(** ** The dataset contract *)

Module datasets.

(** The dataset classes ([doctr.datasets]: [DetectionDataset],
    [RecognitionDataset], [OCRDataset] and the benchmark loaders) are not
    part of the sources, only their tests are.  They are modelled from the
    data model of the spec: a dataset holds entries (image path,
    annotation); the annotation of an image lists its objects, each with a
    4-point region and a string label (a class for the artefact loader);
    regions become rows of 4 floats (axis-aligned) or 5 floats
    (angle-encoded), and a sample pairs the image with a plain array of
    rows or with a mapping of the rows and the labels, as the tests observe
    it. *)

(** Modelled from the spec: a point of a "4-point bounding region". *)
Definition point : Type := Q * Q.

(** Modelled from the spec: the "polygon", a 4-point bounding region. *)
Definition polygon : Type := point * point * point * point.

(** Modelled from the spec: an annotated object, a region "plus string
    label"; the artefact loader labels it with a class index instead. *)
Record object : Type := {
  region : polygon;
  value : string;
  class_index : Z
}.

(** The geometry helper that fits an angle-encoded box (x, y, w, h, alpha)
    around a region belongs to the image library: a parameter. *)
Class Geometry : Type := fit_rbbox : polygon → Q * Q * Q * Q * Q.

(** A decoded image, reduced to its shape. *)
Record image : Type := {
  height : nat;
  width : nat;
  channels : nat
}.

(** [Resize(input_size)] *)
Definition Resize (input_size : nat * nat) (img : image) : image :=
  {| height := input_size.1; width := input_size.2; channels := channels img |}.

Inductive labels : Type :=
| Texts (l : list string)
| ClassIndices (l : list Z).

(** What a sample carries besides the image: the array of the boxes alone
    ([DetectionDataset]), a transcription ([RecognitionDataset]), or the
    mapping with the keys 'boxes' and 'labels'. *)
Inductive target : Type :=
| ArrayTarget (boxes : list (list Q))
| TextTarget (label : string)
| DictTarget (boxes : list (list Q)) (lbls : labels).

(** Modelled from the spec: the axis-aligned box of a region, "4 floats"
    (xmin, ymin, xmax, ymax); the function of [DetectionDataset] that
    computes it is missing. *)
Definition straight_box (p : polygon) : list Q :=
  let '((x1, y1), (x2, y2), (x3, y3), (x4, y4)) := p in
  [Qmin (Qmin x1 x2) (Qmin x3 x4); Qmin (Qmin y1 y2) (Qmin y3 y4);
   Qmax (Qmax x1 x2) (Qmax x3 x4); Qmax (Qmax y1 y2) (Qmax y3 y4)].

(** Modelled from the spec: the rotated box of a region, "5-value
    angle-encoded". *)
Definition rotated_box {G : Geometry} (p : polygon) : list Q :=
  let '(x, y, w, h, alpha) := fit_rbbox p in [x; y; w; h; alpha].

Definition encode_box {G : Geometry} (rotated_bbox : bool) (p : polygon) : list Q :=
  if rotated_bbox then rotated_box p else straight_box p.

(** Modelled from the spec: the targets the missing classes build from an
    annotation, an array for [DetectionDataset] and a mapping of boxes and
    labels for the others. *)
Definition detection_target {G : Geometry} (rotated_bbox : bool) (polygons : list polygon)
  : target :=
  ArrayTarget (encode_box rotated_bbox <$> polygons).

Definition words_target {G : Geometry} (rotated_bbox : bool) (objects : list object)
  : target :=
  DictTarget (encode_box rotated_bbox ∘ region <$> objects) (Texts (value <$> objects)).

Definition artefacts_target {G : Geometry} (rotated_bbox : bool) (objects : list object)
  : target :=
  DictTarget (encode_box rotated_bbox ∘ region <$> objects)
             (ClassIndices (class_index <$> objects)).

(** The files of the image folders, by path. *)
Definition filesystem : Type := gmap string image.

(** [os.path.join] on two components. *)
Definition path_join (a b : string) : string :=
  if String.prefix "/" b then b
  else if String.eqb a "" || String.eqb (String.substring (String.length a - 1) 1 a) "/"
       then a +:+ b
       else a +:+ "/" +:+ b.

Record dataset : Type := {
  root : string;
  data : list (string * target);
  img_transforms : image → image
}.

(** Modelled from the spec: the loop of the missing constructors over the
    (image path, annotation) entries of the label file, with the file
    existence check that the tests exercise. *)
Fixpoint load_entries {A : Type} (fs : filesystem) (root : string) (parse : A → target)
    (entries : list (string * A)) : outcome (list (string * target)) :=
  match entries with
  | [] => Returned []
  | (img_name, annotation) :: rest =>
      if decide (is_Some (fs !! path_join root img_name)) then
        match load_entries fs root parse rest with
        | Returned d => Returned ((img_name, parse annotation) :: d)
        | Raised e => Raised e
        end
      else Raised FileNotFoundError
  end.

(** The datasets the tests exercise, as calls of their constructors on the
    parsed label file. *)
Inductive dataset_class : Type :=
| DetectionDataset | RecognitionDataset | OCRDataset
| IC13 | SVHN | SROIE | FUNSD | CORD | SynthText | DocArtefacts | IIIT5K | SVT | IC03.

Inductive label_file : Type :=
| Polygons (entries : list (string * list polygon))
| Transcriptions (entries : list (string * string))
| Objects (entries : list (string * list object)).

(** The images a label file refers to. *)
Definition referenced (f : label_file) : list string :=
  match f with
  | Polygons entries => entries.*1
  | Transcriptions entries => entries.*1
  | Objects entries => entries.*1
  end.

(** Modelled from the spec: the constructors of the missing dataset
    classes; a label file in the format of another class is refused. *)
Definition new {G : Geometry} (c : dataset_class) (fs : filesystem) (img_folder : string)
    (f : label_file) (rotated_bbox : bool) (transforms : image → image) : outcome dataset :=
  let entries :=
    match c, f with
    | DetectionDataset, Polygons entries =>
        load_entries fs img_folder (detection_target rotated_bbox) entries
    | RecognitionDataset, Transcriptions entries =>
        load_entries fs img_folder TextTarget entries
    | DocArtefacts, Objects entries =>
        load_entries fs img_folder (artefacts_target rotated_bbox) entries
    | (OCRDataset | IC13 | SVHN | SROIE | FUNSD | CORD | SynthText | IIIT5K | SVT | IC03),
      Objects entries =>
        load_entries fs img_folder (words_target rotated_bbox) entries
    | _, _ => Raised ValueError
    end in
  match entries with
  | Returned d => Returned {| root := img_folder; data := d; img_transforms := transforms |}
  | Raised e => Raised e
  end.

(** Modelled from the spec: [ds[index]] of the missing classes; the image
    is read from its file and transformed, the target is the one built at
    construction. *)
Definition getitem (fs : filesystem) (ds : dataset) (index : nat) : outcome (image * target) :=
  match data ds !! index with
  | None => Raised IndexError
  | Some (img_name, t) =>
      match fs !! path_join (root ds) img_name with
      | None => Raised FileNotFoundError
      | Some img => Returned (img_transforms ds img, t)
      end
  end.

(** [len(target['boxes'])] and [len(target['labels'])], where the target has
    such entries. *)
Definition box_count (t : target) : option nat :=
  match t with
  | ArrayTarget boxes => Some (length boxes)
  | TextTarget _ => None
  | DictTarget boxes _ => Some (length boxes)
  end.

Definition label_count (t : target) : option nat :=
  match t with
  | DictTarget _ (Texts l) => Some (length l)
  | DictTarget _ (ClassIndices l) => Some (length l)
  | _ => None
  end.

(** The number of boxes equals the number of labels, both being there. *)
Definition counts_agree (t : target) : Prop :=
  ∃ n, box_count t = Some n ∧ label_count t = Some n.

(** The classes whose samples carry the mapping of boxes and labels. *)
Definition with_labels (c : dataset_class) : bool :=
  match c with
  | DetectionDataset | RecognitionDataset => false
  | _ => true
  end.

(** The label file has the format the class reads. *)
Definition accepts (c : dataset_class) (f : label_file) : bool :=
  match c, f with
  | DetectionDataset, Polygons _ => true
  | RecognitionDataset, Transcriptions _ => true
  | (DetectionDataset | RecognitionDataset), _ => false
  | _, Objects _ => true
  | _, _ => false
  end.

(** The assertions of [_validate_dataset] on the target of a sample
    (lines 20 to 28 of the test module); [Some n] is the line of the first
    assertion that fails. *)
Definition in_unit_interval (x : Q) : bool := Qle_bool 0 x && Qle_bool x 1.

Definition validate_target (relative_coords class_indices : bool) (t : target) : option nat :=
  match t with
  | DictTarget boxes lbls =>
      if relative_coords && negb (forallb (λ row, forallb in_unit_interval (take 4 row)) boxes)
      then Some 23
      else match class_indices, lbls with
           | true, Texts _ => Some 25
           | false, ClassIndices _ => Some 27
           | _, _ =>
               if (match lbls with Texts l => length l | ClassIndices l => length l end)
                  =? length boxes
               then None else Some 28
           end
  | _ => Some 20
  end.

(** A geometry instance and a small image folder to run the loaders on. *)
Definition flat_geometry : Geometry :=
  λ p, let '((x1, y1), _, (x3, y3), _) := p in
       (((x1 + x3) / 2)%Q, ((y1 + y3) / 2)%Q, (x3 - x1)%Q, (y3 - y1)%Q, 0%Q).

Definition unit_square : polygon := ((0, 0), (1, 0), (1, 1), (0, 1))%Q.

Definition sample_fs : filesystem :=
  {[ "imgs/a.jpg" := {| height := 20; width := 30; channels := 3 |};
     "imgs/b.jpg" := {| height := 40; width := 10; channels := 3 |} ]}.

Definition sample_polygons : label_file :=
  Polygons [("a.jpg", [unit_square]); ("b.jpg", [])].

(** A label file for [DetectionDataset] with one image and one box. *)
Definition one_box_polygons : label_file :=
  Polygons [("a.jpg", [unit_square])].

Definition sample_objects : label_file :=
  Objects [("a.jpg", [{| region := unit_square; value := "word"; class_index := 1 |}])].

End datasets.

(** ** The set-up part of [main] *)

Module setup.

(** The two ways the device check of [main] fails: the [AssertionError]
    for a device asked without CUDA and the [ValueError] of an index past
    the devices. *)
Inductive setup_error : Type := AssertionError | InvalidDeviceIndex.

(** Where the model ends up: [model.cuda()] after
    [torch.cuda.set_device(args.device)], or the CPU. *)
Inductive placement : Type := Cpu | Cuda (device : Z).

(** The block [# GPU] of [main]: [device] is [args.device] ([None] unless
    [--device] is given), [cuda_available] is [torch.cuda.is_available()]
    and [device_count] is [torch.cuda.device_count()]. *)
Definition select_device (device : option Z) (cuda_available : bool) (device_count : Z)
  : setup_error + placement :=
  match device with
  | Some d =>
      if negb cuda_available then inl AssertionError
      else if (device_count <=? d)%Z then inl InvalidDeviceIndex
      else inr (Cuda d)
  | None =>
      if cuda_available then inr (Cuda 0) else inr Cpu
  end.

(** [int(psutil.virtual_memory().available / 1024**3)]: whole gibibytes,
    the division by a power of two being exact on floats. *)
Definition system_available_memory (available : Z) : Z :=
  (available `quot` 1024 ^ 3)%Z.

(** [use_broadcasting=True if system_available_memory > 62 else False] *)
Definition use_broadcasting (available : Z) : bool :=
  (62 <? system_available_memory available)%Z.

(** The sample transforms the script composes. *)
Inductive transform : Type :=
| ResizePad (size : nat)     (* T.Resize((s, s), preserve_aspect_ratio=True, symmetric_pad=True) *)
| ResizeKeep (size : nat)    (* T.Resize(s, preserve_aspect_ratio=True), which does not pad *)
| RandomRotate.              (* T.RandomApply(T.RandomRotate(90, expand=True), 0.5) *)

(** [T.SampleCompose(...)] of the validation, FUNSD and CORD sets. *)
Definition eval_sample_transforms (rotation eval_straight : bool) (input_size : nat)
  : list transform :=
  (if negb rotation || eval_straight then [ResizePad input_size] else [])
  ++ (if rotation && negb eval_straight
      then [ResizeKeep input_size; RandomRotate; ResizePad input_size]
      else []).

(** [T.SampleCompose(...)] of the training set. *)
Definition train_sample_transforms (rotation : bool) (input_size : nat) : list transform :=
  (if negb rotation then [ResizePad input_size] else [])
  ++ (if rotation
      then [ResizeKeep input_size; RandomRotate; ResizePad input_size]
      else []).

(** [use_polygons=args.rotation and not args.eval_straight], given to the
    evaluation sets and to the metrics. *)
Definition use_polygons (rotation eval_straight : bool) : bool :=
  rotation && negb eval_straight.

(** The shape of the predictions of a text-detection model: rows
    (xmin, ymin, xmax, ymax, score), or 4-point polygons when it is built
    with [assume_straight_pages=False]. *)
Definition quad : Type := (Q * Q) * (Q * Q) * (Q * Q) * (Q * Q).

Inductive predictions : Type :=
| StraightBoxes (rows : list (list Q))
| Polygons (polys : list quad).

(** [np.concatenate((boxes_pred.min(axis=1), boxes_pred.max(axis=1)), axis=-1)]
    on one polygon of [boxes_pred] (shape N, 4, 2). *)
Definition bounding_box (p : quad) : list Q :=
  let '((x1, y1), (x2, y2), (x3, y3), (x4, y4)) := p in
  [Qmin (Qmin (Qmin x1 x2) x3) x4; Qmin (Qmin (Qmin y1 y2) y3) y4;
   Qmax (Qmax (Qmax x1 x2) x3) x4; Qmax (Qmax (Qmax y1 y2) y3) y4].

(** The four points of a polygon, along axis 1 of [boxes_pred]. *)
Definition points (p : quad) : list (Q * Q) :=
  let '(p1, p2, p3, p4) := p in [p1; p2; p3; p4].

(** What [evaluate] hands to [val_metric.update] as [preds]: the
    predictions, converted to straight boxes under [--rotation] with
    [--eval-straight], then cut by [[:, :4]]; the conversion has no
    meaning on rows ([None]). *)
Definition metric_preds (rotation eval_straight : bool) (boxes_pred : predictions)
  : option predictions :=
  let converted :=
    if rotation && eval_straight then
      match boxes_pred with
      | Polygons polys => Some (StraightBoxes (bounding_box <$> polys))
      | StraightBoxes _ => None
      end
    else Some boxes_pred in
  match converted with
  | Some (StraightBoxes rows) => Some (StraightBoxes (take 4 <$> rows))
  | Some (Polygons polys) => Some (Polygons polys)
  | None => None
  end.

(** [assume_straight_pages=not args.rotation]: what the model of [main]
    predicts. *)
Definition polygon_predictions (rotation : bool) (boxes_pred : predictions) : Prop :=
  match boxes_pred with
  | Polygons _ => rotation = true
  | StraightBoxes _ => rotation = false
  end.

End setup.

(** Events of a training iteration, forward pass to scheduler step. *)
Definition training_event (e : event) : bool :=
  match e with
  | ZeroGrad | Forward _ | Backward _ | Unscale | ClipGradNorm _
  | OptimizerStep | ScalerStep | ScalerUpdate | SchedulerStep => true
  | _ => false
  end.

(** Events of mixed precision: the gradient scaler and autocast. *)
Definition amp_event (e : event) : bool :=
  match e with
  | NewGradScaler | Forward true | Backward true | Unscale | ScalerStep | ScalerUpdate
  | EvalForward _ true => true
  | _ => false
  end.

(** The forward passes of the evaluations on the FUNSD and CORD loaders. *)
Definition test_forward (e : event) : bool :=
  match e with
  | EvalForward FunsdLoader _ | EvalForward CordLoader _ => true
  | _ => false
  end.

(** The same world with other FUNSD and CORD test loaders, and what the
    evaluations on them give. *)
Definition with_test_loaders (w : world) (funsd cord : nat)
    (losses : loader → nat → pyfloat) (metrics : loader → nat → logging.summary) : world :=
  {| train_loader := train_loader w; val_loader := val_loader w;
     funsd_test_loader := funsd; cord_test_loader := cord;
     exp_name := exp_name w; train_loss_at := train_loss_at w;
     loss_at := λ l, match l with ValLoader => loss_at w ValLoader | _ => losses l end;
     metrics_at := λ l, match l with ValLoader => metrics_at w ValLoader | _ => metrics l end |}.

(** The mode of the model, as [model.train()] and [model.eval()] set it. *)
Inductive mode : Type := Training | Evaluating.

(** The mode the model is in after the events of a trace, from the mode
    [m] before them ([None]: not known); the result is [None] once a
    forward pass of training ran outside training mode, or a forward pass
    of evaluation outside evaluation mode. *)
Fixpoint modes (m : option mode) (tr : list event) : option (option mode) :=
  match tr with
  | [] => Some m
  | ModelTrain :: rest => modes (Some Training) rest
  | ModelEval :: rest => modes (Some Evaluating) rest
  | Forward _ :: rest =>
      match m with Some Training => modes m rest | _ => None end
  | EvalForward _ _ :: rest =>
      match m with Some Evaluating => modes m rest | _ => None end
  | _ :: rest => modes m rest
  end.

(** ** The helpers of the dataset tests *)

Module tests.
Import datasets.

(** [shutil.move] of a file inside the image folder: a rename, which
    replaces an existing file of the new name. *)
Definition move (fs : filesystem) (src dst : string) : outcome filesystem :=
  match fs !! src with
  | None => Raised FileNotFoundError
  | Some file => Returned (<[dst := file]> (delete src fs))
  end.

Inductive verdict : Type :=
| Passed
| Failed             (* pytest.raises: DID NOT RAISE *)
| Errored (e : exn).

(** The block [# File existence check] of [test_detection_dataset],
    [test_recognition_dataset] and [test_ocrdataset], for a constructor
    call [construct]; it yields the verdict and the image folder as the
    test leaves it. *)
Definition file_existence_check (construct : filesystem → outcome dataset)
    (fs : filesystem) (ds : dataset) : verdict * filesystem :=
  match data ds !! 0 with
  | None => (Errored IndexError, fs)
  | Some (img_name, _) =>
      let img := path_join (root ds) img_name in
      let tmp := path_join (root ds) "tmp_file" in
      match move fs img tmp with
      | Raised e => (Errored e, fs)
      | Returned moved =>
          match construct moved with
          | Raised FileNotFoundError =>
              match move moved tmp img with
              | Raised e => (Errored e, moved)
              | Returned restored => (Passed, restored)
              end
          | Raised e => (Errored e, moved)
          | Returned _ => (Failed, moved)
          end
      end
  end.

(** The character "/" (code 47). *)
Definition slash : Ascii.ascii := Ascii.Ascii true true true true false true false false.

(** [s.split("/")] *)
Fixpoint split (s : string) : list string :=
  match s with
  | EmptyString => [EmptyString]
  | String c rest =>
      if Ascii.eqb c slash then EmptyString :: split rest
      else match split rest with
           | [] => [String c EmptyString]
           | part :: parts => String c part :: parts
           end
  end.

(** ["/".join(parts)] *)
Fixpoint join (parts : list string) : string :=
  match parts with
  | [] => EmptyString
  | [part] => part
  | part :: rest => part +:+ String slash (join rest)
  end.

(** ["/" not in s] *)
Fixpoint slash_free (s : string) : bool :=
  match s with
  | EmptyString => true
  | String c rest => negb (Ascii.eqb c slash) && slash_free rest
  end.

(** [parts[:-2]] and [parts[-2]] *)
Definition all_but_last_two (parts : list string) : list string :=
  take (length parts - 2) parts.

Definition last_but_one (parts : list string) : outcome string :=
  if length parts <? 2 then Raised IndexError
  else match parts !! (length parts - 2) with
       | Some part => Returned part
       | None => Raised IndexError
       end.

(** The arguments [cache_dir="/".join(url.split("/")[:-2])] and
    [cache_subdir=url.split("/")[-2]] of the benchmark tests. *)
Definition cache_location (url : string) : outcome (string * string) :=
  match last_but_one (split url) with
  | Returned subdir => Returned (join (all_but_last_two (split url)), subdir)
  | Raised e => Raised e
  end.

End tests.

(** * Theorems *)

(** ** The script on small inputs *)

Example fit_one_epoch_2 :
  fit_one_epoch 2 false =
  ([ModelTrain;
    ZeroGrad; Forward false; Backward false; ClipGradNorm 5; OptimizerStep; SchedulerStep;
    ZeroGrad; Forward false; Backward false; ClipGradNorm 5; OptimizerStep; SchedulerStep],
   Returned tt).
Proof. reflexivity. Qed.

Example fit_one_epoch_empty :
  fit_one_epoch 0 true = ([NewGradScaler; ModelTrain], Raised UnboundLocalError).
Proof. reflexivity. Qed.

Example evaluate_empty :
  evaluate ValLoader 0 PosInf false
  = ([ModelEval; MetricReset ValLoader], Raised ZeroDivisionError).
Proof. reflexivity. Qed.

Example record_lr_nan_second :
  record_lr 3 (λ i, if i =? 1 then NaN else Finite 1) 3 false
  = ([ModelTrain; NewMultiplicativeLR;
      ZeroGrad; Forward false; Backward false; ClipGradNorm 5; OptimizerStep; SchedulerStep;
      ZeroGrad; Forward false; Backward false; ClipGradNorm 5; OptimizerStep; SchedulerStep],
     Returned ([LrAt 0], [Finite 1])).
Proof. reflexivity. Qed.

Example record_lr_too_few_batches :
  record_lr 3 (λ _, Finite 1) 100 true = ([], Raised ValueError).
Proof. reflexivity. Qed.

Example stopping_run :
  List.filter is_save (trace (train (ES := patience_stopper) stopping_args sample_world))
  = [SaveState "./db_resnet50.pt"; SaveState "./db_resnet50_epoch1.pt";
     SaveState "./db_resnet50.pt"; SaveState "./db_resnet50_epoch2.pt";
     SaveState "./db_resnet50_epoch3.pt"] ∧
  result (train (ES := patience_stopper) stopping_args sample_world)
  = Returned ({| min_loss := Finite 2;
                 early_stopper := Some {| patience := 1; counter := 1; best := Finite 2 |} |},
              Break).
Proof. split; vm_compute; reflexivity. Qed.

Example empty_val_loader :
  run (ES := patience_stopper) sample_args
      {| train_loader := 1; val_loader := 0; funsd_test_loader := 0; cord_test_loader := 0;
         exp_name := "x"; train_loss_at := λ _, NaN; loss_at := λ _ _, NaN;
         metrics_at := λ _ _, (None, None, None) |} 3
  = ([NewGradScaler; ModelTrain;
      ZeroGrad; Forward true; Backward true; Unscale; ClipGradNorm 5; ScalerStep;
      ScalerUpdate; SchedulerStep;
      ModelEval; MetricReset ValLoader],
     Raised ZeroDivisionError).
Proof. vm_compute. reflexivity. Qed.

Example sample_run_saves :
  List.filter is_save (trace (train (ES := patience_stopper) sample_args sample_world))
  = [SaveState "./db_resnet50.pt"; SaveState "./db_resnet50.pt"].
Proof. vm_compute. reflexivity. Qed.

(** ** The monad *)

Lemma trace_bind {A B} (m : M A) (f : A → M B) :
  trace (m ≫= f)
  = trace m ++ match result m with Returned x => trace (f x) | Raised _ => [] end.
Proof.
  destruct m as [tr [x|e]]; cbn.
  - destruct (f x); reflexivity.
  - symmetry; apply app_nil_r.
Qed.

Lemma result_bind {A B} (m : M A) (f : A → M B) :
  result (m ≫= f)
  = match result m with Returned x => result (f x) | Raised e => Raised e end.
Proof. destruct m as [tr [x|e]]; cbn; [destruct (f x)|]; reflexivity. Qed.

Lemma trace_mret {A} (x : A) : trace (mret x : M A) = [].
Proof. reflexivity. Qed.

Lemma result_mret {A} (x : A) : result (mret x : M A) = Returned x.
Proof. reflexivity. Qed.

Lemma trace_emit e : trace (emit e) = [e].
Proof. reflexivity. Qed.

Lemma result_emit e : result (emit e) = Returned tt.
Proof. reflexivity. Qed.

Lemma trace_when c m : trace (when c m) = if c then trace m else [].
Proof. destruct c; reflexivity. Qed.

Lemma result_when_emit c e : result (when c (emit e)) = Returned tt.
Proof. destruct c; reflexivity. Qed.

Lemma trace_try_pass {A} (m : M A) : trace (try_pass m) = trace m.
Proof. reflexivity. Qed.

Lemma result_try_pass {A} (m : M A) : result (try_pass m) = Returned tt.
Proof. reflexivity. Qed.

Lemma trace_render r : trace (render r) = [].
Proof. destruct r; reflexivity. Qed.

Lemma result_render r :
  result (render r)
  = match r with logging.Rendered => Returned tt | logging.TypeError => Raised TypeError end.
Proof. destruct r; reflexivity. Qed.

Create Rewrite HintDb script.

#[local] Hint Rewrite @trace_bind @result_bind @trace_mret @result_mret
  trace_emit result_emit trace_when result_when_emit
  @trace_try_pass @result_try_pass : script.

(** ** Occurrences and framing *)

Lemma occurrences_app e t1 t2 :
  occurrences e (t1 ++ t2) = occurrences e t1 + occurrences e t2.
Proof. unfold occurrences. rewrite filter_app, length_app. reflexivity. Qed.

Lemma occurrences_concat_replicate e n block :
  occurrences e (concat (replicate n block)) = n * occurrences e block.
Proof.
  induction n as [|n IH]; cbn [replicate concat]; [reflexivity|].
  rewrite occurrences_app, IH. reflexivity.
Qed.

Lemma occurrences_zero e tr : occurrences e tr = 0 ↔ e ∉ tr.
Proof.
  unfold occurrences. rewrite length_zero_iff_nil. split.
  - intros Hnil Hin. assert (Hf : e ∈ filter (λ x, x = e) tr) by (apply list_elem_of_filter; auto).
    rewrite Hnil in Hf. inversion Hf.
  - intros Hnot. induction tr as [|x tr IH]; [reflexivity|].
    rewrite filter_cons. destruct (decide (x = e)) as [->|].
    + exfalso. apply Hnot. left.
    + apply IH. intros Hin. apply Hnot. right. exact Hin.
Qed.

Lemma framed_absent before e after tr : e ∉ tr → framed before e after tr.
Proof.
  intros Hnot pre post ->. exfalso. apply Hnot.
  apply elem_of_app. right. left.
Qed.

Lemma framed_app before e after t1 t2 :
  framed before e after t1 → framed before e after t2 →
  framed before e after (t1 ++ t2).
Proof.
  intros H1 H2 pre post Heq.
  apply app_eq_app in Heq as [k [[-> Hk]|[-> Hk]]].
  - destruct k as [|x k]; cbn in Hk.
    + destruct (H2 [] post) as (pre' & post' & Hpre & ->); [symmetry; exact Hk|].
      destruct before; [|destruct pre'; discriminate].
      exists pre, post'. rewrite app_nil_r. auto.
    + injection Hk as <- ->.
      destruct (H1 pre k eq_refl) as (pre' & post' & -> & ->).
      exists pre', (post' ++ t2). rewrite <- app_assoc. auto.
  - destruct (H2 k post Hk) as (pre' & post' & -> & ->).
    exists (t1 ++ pre'), post'. rewrite <- app_assoc. auto.
Qed.

Lemma framed_concat_replicate before e after n block :
  framed before e after block → framed before e after (concat (replicate n block)).
Proof.
  intros Hb. induction n as [|n IH]; cbn [replicate concat].
  - apply framed_absent. inversion 1.
  - apply framed_app; assumption.
Qed.

(** Framing in a block where the event occurs once, between the two
    contexts. *)
Lemma framed_once e before after left right :
  e ∉ left ++ before → e ∉ after ++ right →
  framed before e after ((left ++ before) ++ e :: after ++ right).
Proof.
  intros Hl Hr pre post Heq.
  apply app_eq_app in Heq as [k [[Hk1 Hk2]|[-> Hk]]].
  - destruct k as [|x k]; cbn in Hk2.
    + injection Hk2 as ->. rewrite app_nil_r in Hk1. subst pre. eauto.
    + injection Hk2 as <- _. exfalso. apply Hl. rewrite Hk1.
      apply elem_of_app. right. left.
  - destruct k as [|x k]; cbn in Hk.
    + injection Hk as <-. rewrite app_nil_r. eauto.
    + injection Hk as _ Hk. exfalso. apply Hr. rewrite Hk.
      apply elem_of_app. right. left.
Qed.

(** ** Training passes *)

Ltac absent :=
  apply (bool_decide_unpack _); vm_compute; exact I.

Lemma iteration_events amp :
  iteration amp
  = ZeroGrad ::
    (if amp
     then [Forward true; Backward true; Unscale; ClipGradNorm 5; ScalerStep; ScalerUpdate]
     else [Forward false; Backward false; ClipGradNorm 5; OptimizerStep])
    ++ [SchedulerStep].
Proof. destruct amp; reflexivity. Qed.

Lemma train_step_result amp : result (train_step amp) = Returned tt.
Proof. destruct amp; reflexivity. Qed.

Lemma iteration_split amp : iteration amp = trace (train_step amp) ++ [SchedulerStep].
Proof. destruct amp; reflexivity. Qed.

Lemma fit_batches_trace amp n bound :
  trace (fit_batches amp n bound) = concat (replicate n (iteration amp)).
Proof.
  revert bound. induction n as [|n IH]; intros bound; [reflexivity|].
  cbn [fit_batches replicate concat].
  autorewrite with script. rewrite train_step_result. cbn [result snd].
  autorewrite with script. rewrite IH, iteration_split, <- app_assoc. reflexivity.
Qed.

Lemma fit_batches_result amp n bound :
  result (fit_batches amp n bound) = Returned (if n is 0 then bound else true).
Proof.
  revert bound. induction n as [|n IH]; intros bound; [reflexivity|].
  cbn [fit_batches]. autorewrite with script. rewrite train_step_result.
  autorewrite with script. cbn. rewrite IH. destruct n; reflexivity.
Qed.

Lemma fit_one_epoch_trace n amp :
  trace (fit_one_epoch n amp)
  = (if amp then [NewGradScaler] else []) ++ ModelTrain :: concat (replicate n (iteration amp)).
Proof.
  unfold fit_one_epoch. autorewrite with script. cbn [result snd emit].
  autorewrite with script. rewrite fit_batches_trace, fit_batches_result.
  destruct n; cbn [trace fst raise]; rewrite ?trace_mret, app_nil_r; reflexivity.
Qed.

Lemma fit_one_epoch_result n amp :
  result (fit_one_epoch n amp) = if n is 0 then Raised UnboundLocalError else Returned tt.
Proof.
  unfold fit_one_epoch. autorewrite with script. cbn [result snd emit].
  autorewrite with script. rewrite fit_batches_result. destruct n; reflexivity.
Qed.

(** The learning-rate search performs some number of whole iterations. *)
Lemma record_lr_batches_trace amp num_it losses todo batch_idx recorder :
  ∃ k, k ≤ todo ∧
    trace (record_lr_batches amp num_it losses todo batch_idx recorder)
    = concat (replicate k (iteration amp)).
Proof.
  revert batch_idx recorder. induction todo as [|n IH]; intros batch_idx recorder.
  - exists 0. split; [lia|reflexivity].
  - cbn [record_lr_batches]. autorewrite with script.
    rewrite train_step_result. autorewrite with script. cbn [result snd emit].
    assert (Hone : ∀ m : M (list pyfloat), trace m = [] →
              ∃ k, k ≤ S n ∧
                trace (train_step amp) ++ [SchedulerStep] ++ trace m
                = concat (replicate k (iteration amp))).
    { intros m Hm. exists 1. split; [lia|]. rewrite Hm. cbn [replicate concat].
      rewrite iteration_split, !app_nil_r. reflexivity. }
    destruct (isfinite (losses batch_idx)); cbn [negb].
    + destruct (Z.of_nat batch_idx + 1 =? num_it)%Z.
      * apply Hone. reflexivity.
      * destruct (IH (S batch_idx) (recorder ++ [losses batch_idx])) as (k & Hk & ->).
        exists (S k). split; [lia|]. cbn [replicate concat].
        rewrite iteration_split, <- !app_assoc. reflexivity.
    + destruct (batch_idx =? 0); apply Hone; reflexivity.
Qed.

Lemma record_lr_trace n losses num_it amp :
  ∃ header k,
    trace (record_lr n losses num_it amp) = header ++ concat (replicate k (iteration amp)) ∧
    ∀ e, e ∈ header → e = ModelTrain ∨ e = NewMultiplicativeLR ∨ e = NewGradScaler.
Proof.
  unfold record_lr. destruct (Z.of_nat n <? num_it)%Z.
  { exists [], 0. split; [reflexivity|]. inversion 1. }
  autorewrite with script. cbn [result snd emit].
  destruct (num_it - 1 =? 0)%Z.
  { exists [ModelTrain], 0. split; [reflexivity|].
    intros e He. apply list_elem_of_singleton in He. auto. }
  autorewrite with script. cbn [result snd emit]. autorewrite with script.
  destruct (record_lr_batches_trace amp num_it losses n 0 []) as (k & _ & Hk).
  exists ([ModelTrain; NewMultiplicativeLR] ++ if amp then [NewGradScaler] else []), k.
  split.
  - rewrite Hk. destruct (result (record_lr_batches _ _ _ _ _ _));
      rewrite ?trace_mret, ?app_nil_r; destruct amp; reflexivity.
  - intros e He.
    destruct amp; repeat (apply elem_of_cons in He as [->|He]; [auto|]); inversion He.
Qed.

(** ** Gradient clipping and the mixed-precision sequence *)

Lemma elem_of_concat_replicate (e : event) n block :
  e ∈ concat (replicate n block) → e ∈ block.
Proof.
  induction n as [|n IH]; cbn [replicate concat]; [inversion 1|].
  intros [?|?]%elem_of_app; auto.
Qed.

Lemma iteration_clipped amp : clipped_before_update (iteration amp).
Proof.
  unfold clipped_before_update. rewrite iteration_events. split; destruct amp.
  - apply framed_absent. absent.
  - apply (framed_once OptimizerStep [Backward false; ClipGradNorm 5] []
             [ZeroGrad; Forward false] [SchedulerStep]); absent.
  - apply (framed_once ScalerStep [Backward true; Unscale; ClipGradNorm 5] []
             [ZeroGrad; Forward true] [ScalerUpdate; SchedulerStep]); absent.
  - apply framed_absent. absent.
Qed.

Lemma setup_not_update (header : list event) e :
  (∀ x, x ∈ header → setup_event x) → ¬ setup_event e → e ∉ header.
Proof. intros Hh He Hin. apply He, Hh, Hin. Qed.

Ltac not_setup := intros [?|[?|?]]; discriminate.

Lemma iterations_clipped header k amp :
  (∀ x, x ∈ header → setup_event x) →
  clipped_before_update (header ++ concat (replicate k (iteration amp))).
Proof.
  intros Hh. destruct (iteration_clipped amp) as [Ho Hs].
  split; apply framed_app; try (apply framed_concat_replicate; assumption);
    apply framed_absent, (setup_not_update _ _ Hh); not_setup.
Qed.

Lemma iteration_counts amp :
  occurrences ZeroGrad (iteration amp) = 1 ∧
  occurrences (ClipGradNorm 5) (iteration amp) = 1 ∧
  occurrences OptimizerStep (iteration amp) + occurrences ScalerStep (iteration amp) = 1 ∧
  occurrences SchedulerStep (iteration amp) = 1.
Proof. destruct amp; vm_compute; auto. Qed.

Lemma iterations_clip_each header k amp :
  (∀ x, x ∈ header → setup_event x) →
  every_iteration_clips (header ++ concat (replicate k (iteration amp))).
Proof.
  intros Hh.
  assert (Hz : ∀ e, ¬ setup_event e → occurrences e header = 0).
  { intros e He. apply occurrences_zero, (setup_not_update _ _ Hh), He. }
  destruct (iteration_counts amp) as (Hzero & Hclip & Hupd & _).
  repeat split.
  - rewrite !occurrences_app, !occurrences_concat_replicate, !Hz by not_setup. lia.
  - rewrite !occurrences_app, !occurrences_concat_replicate, !Hz by not_setup. nia.
  - intros z [Hin|Hin]%elem_of_app.
    + apply Hh in Hin as [?|[?|?]]; discriminate.
    + apply elem_of_concat_replicate in Hin.
      destruct amp; repeat (apply elem_of_cons in Hin as [Hin|Hin]; [congruence|]);
        inversion Hin.
Qed.

(** C5: in every training iteration of [fit_one_epoch] and of [record_lr],
    with AMP and without, the gradient norm is clipped to 5 right after the
    backward pass (and the unscaling, under AMP) and right before the
    parameter update; no update happens without this clipping. *)
Theorem clip_before_every_update (amp : bool) (n : nat) (losses : nat → pyfloat) (num_it : Z) :
  (clipped_before_update (trace (fit_one_epoch n amp)) ∧
   every_iteration_clips (trace (fit_one_epoch n amp))) ∧
  (clipped_before_update (trace (record_lr n losses num_it amp)) ∧
   every_iteration_clips (trace (record_lr n losses num_it amp))).
Proof.
  split.
  - rewrite fit_one_epoch_trace.
    assert (Hh : ∀ x, x ∈ (if amp then [NewGradScaler] else []) ++ [ModelTrain] → setup_event x).
    { intros x Hx. unfold setup_event.
      destruct amp; repeat (apply elem_of_cons in Hx as [->|Hx]; [auto|]); inversion Hx. }
    replace ((if amp then [NewGradScaler] else []) ++ ModelTrain :: concat (replicate n (iteration amp)))
      with (((if amp then [NewGradScaler] else []) ++ [ModelTrain])
              ++ concat (replicate n (iteration amp)))
      by (rewrite <- app_assoc; reflexivity).
    split; [apply iterations_clipped|apply iterations_clip_each]; exact Hh.
  - destruct (record_lr_trace n losses num_it amp) as (header & k & -> & Hh).
    split; [apply iterations_clipped|apply iterations_clip_each]; exact Hh.
Qed.

(** C6: under AMP every gradient update of [fit_one_epoch] is the
    sequence, in this order and with nothing in between: loss under
    autocast, scaled backward pass, unscaling, clipping, step through the
    scaler, update of the scaler; there is one per batch and no update
    outside the scaler. *)
Theorem amp_update_sequence (n : nat) :
  framed [Forward true; Backward true; Unscale; ClipGradNorm 5] ScalerStep [ScalerUpdate]
         (trace (fit_one_epoch n true)) ∧
  occurrences ScalerStep (trace (fit_one_epoch n true)) = n ∧
  (OptimizerStep ∉ trace (fit_one_epoch n true)) ∧
  (Forward false ∉ trace (fit_one_epoch n true)) ∧
  (Backward false ∉ trace (fit_one_epoch n true)).
Proof.
  rewrite fit_one_epoch_trace.
  change ([NewGradScaler] ++ ModelTrain :: concat (replicate n (iteration true)))
    with ([NewGradScaler; ModelTrain] ++ concat (replicate n (iteration true))).
  split; [|split; [|repeat split]].
  - apply framed_app; [apply framed_absent; absent|].
    apply framed_concat_replicate. rewrite iteration_events.
    apply (framed_once ScalerStep [Forward true; Backward true; Unscale; ClipGradNorm 5]
             [ScalerUpdate] [ZeroGrad] [SchedulerStep]); absent.
  - rewrite occurrences_app, occurrences_concat_replicate.
    replace (occurrences ScalerStep (iteration true)) with 1 by reflexivity.
    replace (occurrences ScalerStep [NewGradScaler; ModelTrain]) with 0 by reflexivity.
    lia.
  - intros [Hin|Hin%elem_of_concat_replicate]%elem_of_app; revert Hin; absent.
  - intros [Hin|Hin%elem_of_concat_replicate]%elem_of_app; revert Hin; absent.
  - intros [Hin|Hin%elem_of_concat_replicate]%elem_of_app; revert Hin; absent.
Qed.

(** ** Evaluation passes and the body of the loop *)

Lemma eval_batches_trace l amp n cnt :
  trace (eval_batches l amp n cnt) = replicate n (EvalForward l amp).
Proof.
  revert cnt. induction n as [|n IH]; intros cnt; [reflexivity|].
  cbn [eval_batches replicate]. autorewrite with script. cbn [result snd emit].
  rewrite IH. reflexivity.
Qed.

Lemma eval_batches_result l amp n cnt :
  result (eval_batches l amp n cnt) = Returned (n + cnt).
Proof.
  revert cnt. induction n as [|n IH]; intros cnt; [reflexivity|].
  cbn [eval_batches]. autorewrite with script. cbn [result snd emit].
  rewrite IH. f_equal. lia.
Qed.

Lemma evaluate_trace l n loss amp :
  trace (evaluate l n loss amp) = [ModelEval; MetricReset l] ++ replicate n (EvalForward l amp).
Proof.
  unfold evaluate. autorewrite with script. cbn [result snd emit].
  autorewrite with script. cbn [result snd emit]. autorewrite with script.
  rewrite eval_batches_trace, eval_batches_result.
  destruct n; cbn [Nat.add Nat.eqb trace fst raise]; rewrite ?trace_mret, app_nil_r; reflexivity.
Qed.

Lemma evaluate_result l n loss amp :
  result (evaluate l n loss amp) = if n is 0 then Raised ZeroDivisionError else Returned loss.
Proof.
  unfold evaluate. autorewrite with script. cbn [result snd emit].
  autorewrite with script. cbn [result snd emit]. autorewrite with script.
  rewrite eval_batches_result. destruct n; reflexivity.
Qed.

Section Body.
Context {ES : Type} `{!utils.EarlyStopper ES}.
Variables (a : args) (w : world).

#[local] Abbreviation v := (loss_at w ValLoader).

Lemma epoch_body_trace epoch (st : loop_state ES) :
  trace (epoch_body a w epoch st)
  = if train_loader w is 0 then trace (fit_one_epoch 0 (amp a))
    else if val_loader w is 0
         then trace (fit_one_epoch (train_loader w) (amp a))
              ++ trace (evaluate ValLoader 0 NaN (amp a))
         else epoch_passes a w ++ checkpoints a w epoch (v epoch) (min_loss st).
Proof.
  unfold epoch_body, epoch_passes, checkpoints.
  autorewrite with script.
  rewrite fit_one_epoch_result, !evaluate_result, !evaluate_trace.
  destruct (train_loader w); [apply app_nil_r|].
  destruct (val_loader w); [rewrite app_nil_r; reflexivity|].
  autorewrite with script.
  destruct (flt (v epoch) (min_loss st)); autorewrite with script;
    cbn [result snd emit]; autorewrite with script;
    rewrite ?trace_render, ?result_render;
    destruct (save_interval_epoch a), (epoch_log a w epoch), (early_stop a);
    cbn [result snd emit];
    try (destruct (early_stopper st) as [s|]; [destruct (utils.early_stop s (v epoch))|]);
    cbn [trace fst raise];
    rewrite ?evaluate_trace, ?trace_mret, ?app_nil_r, <- ?app_assoc;
    reflexivity.
Qed.

Lemma epoch_body_result epoch (st : loop_state ES) :
  result (epoch_body a w epoch st)
  = if train_loader w is 0 then Raised UnboundLocalError
    else if val_loader w is 0 then Raised ZeroDivisionError
    else
      match epoch_log a w epoch with
      | logging.TypeError => Raised TypeError
      | logging.Rendered =>
          let m := if flt (v epoch) (min_loss st) then v epoch else min_loss st in
          if early_stop a then
            match early_stopper st with
            | Some s =>
                Returned ({| min_loss := m;
                             early_stopper := Some (utils.early_stop s (v epoch)).2 |},
                          if (utils.early_stop s (v epoch)).1 then Break else Continue)
            | None => Raised UnboundLocalError
            end
          else Returned ({| min_loss := m; early_stopper := early_stopper st |}, Continue)
      end.
Proof.
  unfold epoch_body. autorewrite with script.
  rewrite fit_one_epoch_result, !evaluate_result.
  destruct (train_loader w); [reflexivity|].
  destruct (val_loader w); [reflexivity|].
  autorewrite with script.
  destruct (flt (v epoch) (min_loss st)); autorewrite with script;
    cbn [result snd emit]; autorewrite with script;
    rewrite ?result_render; destruct (epoch_log a w epoch); try reflexivity;
    destruct (early_stop a); try reflexivity;
    destruct (early_stopper st) as [s|]; try reflexivity;
    destruct (utils.early_stop s (v epoch)); reflexivity.
Qed.

(** An epoch that returns has built its log message. *)
Lemma epoch_body_returned epoch (st : loop_state ES) r :
  result (epoch_body a w epoch st) = Returned r →
  0 < train_loader w ∧ 0 < val_loader w ∧ epoch_log a w epoch = logging.Rendered.
Proof.
  rewrite epoch_body_result.
  destruct (train_loader w); [discriminate|].
  destruct (val_loader w); [discriminate|].
  destruct (epoch_log a w epoch); [|discriminate].
  intros _. repeat split; lia.
Qed.

Lemma epoch_body_trace_returned epoch (st : loop_state ES) r :
  result (epoch_body a w epoch st) = Returned r →
  trace (epoch_body a w epoch st)
  = epoch_passes a w ++ checkpoints a w epoch (v epoch) (min_loss st).
Proof.
  rewrite epoch_body_result, epoch_body_trace.
  destruct (train_loader w); [discriminate|].
  destruct (val_loader w); [discriminate|reflexivity].
Qed.

End Body.

(** ** The order on floats *)

Lemma Qltb_lt x y : Qltb x y = true ↔ (x < y)%Q.
Proof.
  unfold Qltb. rewrite negb_true_iff. split.
  - intros Hb. apply Qnot_le_lt. intros Hle. apply Qle_bool_iff in Hle. congruence.
  - intros Hlt. destruct (Qle_bool y x) eqn:Hb; [|reflexivity].
    apply Qle_bool_iff in Hb. exfalso. exact (Qlt_not_le _ _ Hlt Hb).
Qed.

Lemma Qltb_ge x y : Qltb x y = false ↔ (y <= x)%Q.
Proof.
  unfold Qltb. rewrite negb_false_iff. apply Qle_bool_iff.
Qed.

Lemma flt_irrefl x : flt x x = false.
Proof. destruct x as [q| | |]; cbn; try reflexivity. apply Qltb_ge, Qle_refl. Qed.

Lemma flt_not_nan x y : flt x y = true → isnan x = false ∧ isnan y = false.
Proof. destruct x, y; cbn; intros; try discriminate; auto. Qed.

Lemma flt_trans x y z : flt x y = true → flt y z = true → flt x z = true.
Proof.
  destruct x as [p| | |], y as [q| | |], z as [r| | |]; cbn; try congruence.
  rewrite !Qltb_lt. intros; eapply Qlt_trans; eauto.
Qed.

Lemma flt_asym x y : flt x y = true → flt y x = false.
Proof.
  destruct x as [p| | |], y as [q| | |]; cbn; try congruence.
  rewrite Qltb_lt, Qltb_ge. intros; apply Qlt_le_weak; assumption.
Qed.

Lemma flt_le_trans x m y :
  flt x m = true → flt y m = false → isnan y = false → flt x y = true.
Proof.
  destruct x as [p| | |], m as [q| | |], y as [r| | |]; cbn; try congruence.
  rewrite !Qltb_lt, Qltb_ge. intros; eapply Qlt_le_trans; eauto.
Qed.

(** ** The least loss *)

Lemma is_least_nil : is_least PosInf [].
Proof. repeat split; [left; reflexivity|inversion 1]. Qed.

Lemma is_least_snoc m losses x :
  is_least m losses → is_least (if flt x m then x else m) (losses ++ [x]).
Proof.
  intros (Hnan & Hin & Hlow). destruct (flt x m) eqn:Hx.
  - repeat split.
    + apply (flt_not_nan _ _ Hx).
    + right. apply elem_of_app. right. left.
    + intros y [Hy|Hy%list_elem_of_singleton]%elem_of_app.
      * destruct (flt y x) eqn:Hyx; [|reflexivity].
        rewrite <- (Hlow y Hy). symmetry. exact (flt_trans _ _ _ Hyx Hx).
      * subst y. apply flt_irrefl.
  - repeat split.
    + exact Hnan.
    + destruct Hin as [->|Hin]; [left; reflexivity|right; apply elem_of_app; auto].
    + intros y [Hy|Hy%list_elem_of_singleton]%elem_of_app; [auto|congruence].
Qed.

(** Being below the least loss is being below infinity and below every
    loss observed (a NaN apart). *)
Lemma below_least m losses x :
  is_least m losses →
  flt x m = true ↔
  flt x PosInf = true ∧ ∀ y, y ∈ losses → isnan y = false → flt x y = true.
Proof.
  intros (Hnan & Hin & Hlow). split.
  - intros Hx. split.
    + destruct x, m; cbn in *; congruence.
    + intros y Hy Hynan. exact (flt_le_trans _ _ _ Hx (Hlow y Hy) Hynan).
  - intros [Hinf Hall]. destruct Hin as [->|Hin]; [exact Hinf|auto].
Qed.

Lemma least_not_increasing m x : flt m (if flt x m then x else m) = false.
Proof.
  destruct (flt x m) eqn:Hx; [exact (flt_asym _ _ Hx)|apply flt_irrefl].
Qed.

(** ** The loop, one epoch after the other *)

Section LoopFacts.
Context {ES : Type} `{!utils.EarlyStopper ES}.
Variables (a : args) (w : world).

#[local] Abbreviation v := (loss_at w ValLoader).

(** Cutting the range in two: the second part runs from where the first
    one stopped, unless that was a [break] or an exception. *)
Lemma training_loop_app l1 l2 (st : loop_state ES) :
  training_loop a w (l1 ++ l2) st
  = match result (training_loop a w l1 st) with
    | Returned (st', Continue) =>
        (trace (training_loop a w l1 st) ++ trace (training_loop a w l2 st'),
         result (training_loop a w l2 st'))
    | _ => training_loop a w l1 st
    end.
Proof.
  revert st. induction l1 as [|epoch l1 IH]; intros st.
  - cbn. destruct (training_loop a w l2 st); reflexivity.
  - cbn [app training_loop].
    destruct (epoch_body a w epoch st) as [tr [[st1 [|]]|e]]; cbn; [|reflexivity..].
    rewrite IH.
    destruct (training_loop a w l1 st1) as [tr1 [[st2 [|]]|e]]; cbn; [|reflexivity..].
    rewrite app_assoc. reflexivity.
Qed.

Lemma training_loop_single epoch (st : loop_state ES) :
  training_loop a w [epoch] st = epoch_body a w epoch st.
Proof.
  cbn. destruct (epoch_body a w epoch st) as [tr [[st1 [|]]|e]]; cbn;
    rewrite ?app_nil_r; reflexivity.
Qed.

Lemma run_S n :
  run a w (S n)
  = match result (run a w n) with
    | Returned (st, Continue) =>
        (trace (run a w n) ++ trace (epoch_body a w n st), result (epoch_body a w n st))
    | _ => run a w n
    end.
Proof.
  unfold run. rewrite seq_S, training_loop_app. cbn [Nat.add].
  destruct (result (training_loop a w (seq 0 n) (initial_state a))) as [[st [|]]|e];
    [|reflexivity..].
  rewrite training_loop_single. reflexivity.
Qed.

Lemma epoch_events_body n (st : loop_state ES) :
  result (run a w n) = Returned (st, Continue) →
  epoch_events a w n = trace (epoch_body a w n st).
Proof.
  intros Hn. unfold epoch_events. rewrite run_S, Hn. cbn [trace fst].
  apply drop_app_length.
Qed.

Lemma val_losses_S n : val_losses w (S n) = val_losses w n ++ [v n].
Proof. unfold val_losses. rewrite seq_S, fmap_app. reflexivity. Qed.

(** While the loop goes on, [min_loss] is the least validation loss of the
    epochs performed. *)
Lemma run_min_loss n (st : loop_state ES) c :
  result (run a w n) = Returned (st, c) →
  ∃ k, k ≤ n ∧ (c = Continue → k = n) ∧ is_least (min_loss st) (val_losses w k).
Proof.
  revert st c. induction n as [|n IH]; intros st c.
  - cbn. intros [= <- <-]. exists 0.
    split; [lia|]. split; [reflexivity|]. apply is_least_nil.
  - rewrite run_S.
    destruct (result (run a w n)) as [[st0 [|]]|e] eqn:Hn; cbn [result snd].
    + destruct (IH st0 Continue eq_refl) as (k & _ & Hk & Hleast).
      rewrite (Hk eq_refl) in Hleast. clear k Hk.
      rewrite epoch_body_result.
      destruct (train_loader w); [discriminate|].
      destruct (val_loader w); [discriminate|].
      destruct (epoch_log a w n); [|discriminate].
      cbn zeta. intros Hres. exists (S n).
      assert (Hm : min_loss st = if flt (v n) (min_loss st0) then v n else min_loss st0).
      { destruct (early_stop a); [destruct (early_stopper st0)|];
          inversion Hres; reflexivity. }
      rewrite Hm, val_losses_S. split; [lia|]. split; [reflexivity|].
      apply is_least_snoc, Hleast.
    + rewrite Hn. intros [= <- <-].
      destruct (IH st0 Break eq_refl) as (k & Hk & _ & Hleast).
      exists k. split; [lia|]. split; [discriminate|exact Hleast].
    + rewrite Hn. discriminate.
Qed.

Lemma checkpoints_saves epoch val_loss m :
  saves (checkpoints a w epoch val_loss m)
  ↔ flt val_loss m = true ∨ save_interval_epoch a = true.
Proof.
  unfold saves, checkpoints. split.
  - intros [file Hin]. destruct (flt val_loss m); [auto|].
    destruct (save_interval_epoch a); [auto|]. inversion Hin.
  - intros [Hlt|Hint].
    + rewrite Hlt. exists (best_file w). apply elem_of_app. left. left.
    + rewrite Hint. exists (epoch_file w (epoch + 1)). apply elem_of_app. right. left.
Qed.

Lemma epoch_passes_no_save file : SaveState file ∉ epoch_passes a w.
Proof.
  unfold epoch_passes. rewrite fit_one_epoch_trace, !evaluate_trace.
  rewrite !elem_of_app, !elem_of_cons, !elem_of_nil.
  intros Hin.
  repeat match type of Hin with
  | _ ∨ _ => destruct Hin as [Hin|Hin]
  | _ = _ => discriminate Hin
  | False => destruct Hin
  | _ ∈ replicate _ _ => apply elem_of_replicate_inv in Hin
  | _ ∈ concat (replicate _ _) => apply elem_of_concat_replicate in Hin; revert Hin
  | _ ∈ (if ?b then _ else _) => destruct b; revert Hin
  end; try absent; destruct (amp a); absent.
Qed.

End LoopFacts.

(** ** Checkpoints *)

Lemma elem_of_val_losses w n y :
  y ∈ val_losses w n ↔ ∃ j, j < n ∧ y = loss_at w ValLoader j.
Proof.
  unfold val_losses. rewrite list_elem_of_fmap. split.
  - intros (j & -> & Hj). apply elem_of_seq in Hj. exists j. split; [lia|reflexivity].
  - intros (j & Hj & ->). exists j. split; [reflexivity|]. apply elem_of_seq. lia.
Qed.

(** C3: at the end of an epoch of the loop of [main] a checkpoint is saved
    if and only if the validation loss of the epoch is strictly below the
    least validation loss of the epochs before (infinity at the start) or
    [--save-interval-epoch] is set; after the epoch the tracked minimum is
    the least validation loss seen so far, and it has not gone up. *)
Theorem checkpoint_policy {ES : Type} `{!utils.EarlyStopper ES}
    (a : args) (w : world) (n : nat) (st st' : loop_state ES) (c : control) :
  result (run a w n) = Returned (st, Continue) →
  result (run a w (S n)) = Returned (st', c) →
  (saves (epoch_events a w n)
   ↔ flt (loss_at w ValLoader n) (min_loss st) = true ∨ save_interval_epoch a = true) ∧
  is_least (min_loss st) (val_losses w n) ∧
  (flt (loss_at w ValLoader n) (min_loss st) = true
   ↔ flt (loss_at w ValLoader n) PosInf = true ∧
     ∀ j, j < n → isnan (loss_at w ValLoader j) = false →
          flt (loss_at w ValLoader n) (loss_at w ValLoader j) = true) ∧
  is_least (min_loss st') (val_losses w (S n)) ∧
  flt (min_loss st) (min_loss st') = false.
Proof.
  intros Hn HSn.
  destruct (run_min_loss a w n st Continue Hn) as (k & _ & Hk & Hleast).
  rewrite (Hk eq_refl) in Hleast. clear k Hk.
  assert (Hbody : result (epoch_body a w n st) = Returned (st', c)).
  { rewrite run_S, Hn in HSn. exact HSn. }
  assert (Hm : min_loss st'
               = if flt (loss_at w ValLoader n) (min_loss st)
                 then loss_at w ValLoader n else min_loss st).
  { rewrite epoch_body_result in Hbody.
    destruct (train_loader w); [discriminate|].
    destruct (val_loader w); [discriminate|].
    destruct (epoch_log a w n); [|discriminate].
    cbn zeta in Hbody.
    destruct (early_stop a); [destruct (early_stopper st)|];
      inversion Hbody; reflexivity. }
  split; [|split; [exact Hleast|split; [|split]]].
  - rewrite (epoch_events_body a w n st Hn), (epoch_body_trace_returned a w n st _ Hbody).
    rewrite <- checkpoints_saves. unfold saves. split.
    + intros [file [Hin|Hin]%elem_of_app]; [|eauto].
      exfalso. exact (epoch_passes_no_save a w file Hin).
    + intros [file Hin]. exists file. apply elem_of_app. auto.
  - rewrite (below_least _ _ _ Hleast). split; intros [Hinf Hall]; split; try exact Hinf.
    + intros j Hj. apply Hall, elem_of_val_losses. eauto.
    + intros y (j & Hj & ->)%elem_of_val_losses. auto.
  - rewrite Hm, val_losses_S. apply is_least_snoc, Hleast.
  - rewrite Hm. apply least_not_increasing.
Qed.

Lemma checkpoint_policy_witness :
  saves (epoch_events (ES := patience_stopper) sample_args sample_world 1) ∧
  flt (Finite 2) (Finite 3) = true.
Proof.
  destruct (checkpoint_policy (ES := patience_stopper) sample_args sample_world 1
              {| min_loss := Finite 3; early_stopper := None |}
              {| min_loss := Finite 2; early_stopper := None |} Continue)
    as (Hsave & _); [reflexivity..|].
  split; [apply Hsave; left|]; reflexivity.
Defined.

(** ** The number of epochs *)

Lemma train_val_passes_app t1 t2 :
  train_val_passes (t1 ++ t2) = train_val_passes t1 ++ train_val_passes t2.
Proof. unfold train_val_passes, passes. rewrite omap_app, filter_app. reflexivity. Qed.

Lemma train_val_passes_iterations n amp :
  train_val_passes (concat (replicate n (iteration amp))) = [].
Proof.
  induction n as [|n IH]; [reflexivity|].
  cbn [replicate concat]. rewrite train_val_passes_app, IH.
  destruct amp; reflexivity.
Qed.

Lemma train_val_passes_forwards n l amp :
  train_val_passes (replicate n (EvalForward l amp)) = [].
Proof. induction n as [|n IH]; [reflexivity|exact IH]. Qed.

Lemma train_val_passes_checkpoints a w epoch val_loss m :
  train_val_passes (checkpoints a w epoch val_loss m) = [].
Proof.
  unfold checkpoints. destruct (flt val_loss m), (save_interval_epoch a); reflexivity.
Qed.

Lemma train_val_passes_epoch a w :
  train_val_passes (epoch_passes a w) = [TrainingPass; EvaluationPass ValLoader].
Proof.
  unfold epoch_passes. rewrite fit_one_epoch_trace, !evaluate_trace.
  rewrite !train_val_passes_app, !train_val_passes_forwards.
  change (ModelTrain :: concat (replicate (train_loader w) (iteration (amp a))))
    with ([ModelTrain] ++ concat (replicate (train_loader w) (iteration (amp a)))).
  rewrite train_val_passes_app, train_val_passes_iterations.
  destruct (amp a); reflexivity.
Qed.

Lemma epochs_until_halt_le l : epochs_until_halt l ≤ length l.
Proof. induction l as [|[|] l IH]; cbn; lia. Qed.

(** Epoch [k] is counted exactly when no earlier answer was positive. *)
Lemma epochs_until_halt_spec l k :
  k < length l →
  k < epochs_until_halt l ↔ ∀ j, j < k → l !! j = Some false.
Proof.
  revert k. induction l as [|b l IH]; intros k Hk; [cbn in Hk; lia|].
  destruct b; cbn [epochs_until_halt].
  - split.
    + intros Hlt j Hj. lia.
    + intros Hall. destruct k as [|k]; [lia|].
      specialize (Hall 0 ltac:(lia)). discriminate.
  - destruct k as [|k].
    + split; [intros _ j Hj; lia|lia].
    + cbn in Hk. rewrite <- Nat.succ_lt_mono, (IH k) by lia. split.
      * intros Hall [|j] Hj; [reflexivity|]. apply Hall. lia.
      * intros Hall j Hj. apply (Hall (S j)). lia.
Qed.

Section Epochs.
Context {ES : Type} `{!utils.EarlyStopper ES}.
Variables (a : args) (w : world).
Hypothesis train_batches : 0 < train_loader w.
Hypothesis val_batches : 0 < val_loader w.

Lemma answers_length (s : ES) losses : length (answers s losses) = length losses.
Proof.
  revert s. induction losses as [|x losses IH]; intros s; [reflexivity|].
  cbn. destruct (utils.early_stop s x). cbn. rewrite IH. reflexivity.
Qed.

Lemma epoch_body_passes epoch (st : loop_state ES) r :
  result (epoch_body a w epoch st) = Returned r →
  train_val_passes (trace (epoch_body a w epoch st))
  = [TrainingPass; EvaluationPass ValLoader].
Proof.
  intros Hr. rewrite (epoch_body_trace_returned a w epoch st r Hr).
  rewrite train_val_passes_app, train_val_passes_epoch, train_val_passes_checkpoints.
  reflexivity.
Qed.

Lemma loop_without_stopper l (st : loop_state ES) :
  early_stop a = false →
  (∀ epoch, epoch ∈ l → epoch_log a w epoch = logging.Rendered) →
  ∃ st', result (training_loop a w l st) = Returned (st', Continue) ∧
    train_val_passes (trace (training_loop a w l st))
    = concat (replicate (length l) [TrainingPass; EvaluationPass ValLoader]).
Proof.
  intros Hoff. revert st. induction l as [|epoch l IH]; intros st Hlog.
  - exists st. split; reflexivity.
  - cbn [training_loop length replicate concat].
    rewrite trace_bind, result_bind.
    pose proof (epoch_body_result a w epoch st) as Hres.
    destruct (train_loader w); [lia|]. destruct (val_loader w); [lia|].
    rewrite (Hlog epoch) in Hres by left.
    rewrite Hoff in Hres. cbn zeta in Hres.
    rewrite train_val_passes_app, (epoch_body_passes _ _ _ Hres), Hres.
    destruct (IH {| min_loss := if flt (loss_at w ValLoader epoch) (min_loss st)
                                then loss_at w ValLoader epoch else min_loss st;
                    early_stopper := early_stopper st |}) as (st' & Hst' & Htr).
    { intros epoch' Hin. apply Hlog. right. exact Hin. }
    exists st'. rewrite Htr. split; [exact Hst'|reflexivity].
Qed.

Lemma loop_with_stopper l (st : loop_state ES) s :
  early_stop a = true → early_stopper st = Some s →
  (∀ k epoch, k < epochs_until_halt (answers s (loss_at w ValLoader <$> l)) →
              l !! k = Some epoch → epoch_log a w epoch = logging.Rendered) →
  ∃ st' c, result (training_loop a w l st) = Returned (st', c) ∧
    train_val_passes (trace (training_loop a w l st))
    = concat (replicate (epochs_until_halt (answers s (loss_at w ValLoader <$> l)))
                        [TrainingPass; EvaluationPass ValLoader]).
Proof.
  intros Hon. revert st s. induction l as [|epoch l IH]; intros st s Hs Hlog.
  - exists st, Continue. split; reflexivity.
  - cbn [training_loop fmap list_fmap answers] in Hlog |- *.
    rewrite trace_bind, result_bind.
    pose proof (epoch_body_result a w epoch st) as Hres.
    destruct (train_loader w); [lia|]. destruct (val_loader w); [lia|].
    rewrite Hon, Hs in Hres. cbn zeta in Hres.
    destruct (utils.early_stop s (loss_at w ValLoader epoch)) as [[|] s'];
      cbn [fst snd epochs_until_halt] in Hres, Hlog;
      rewrite (Hlog 0 epoch) in Hres by (try lia; reflexivity);
      rewrite train_val_passes_app, (epoch_body_passes _ _ _ Hres), Hres;
      cbn [epochs_until_halt replicate concat].
    + eexists _, Break. split; reflexivity.
    + match type of Hres with
      | _ = Returned (?st1, _) => destruct (IH st1 s' eq_refl) as (st' & c & Hst' & Htr)
      end.
      { intros k epoch' Hk Hl. apply (Hlog (S k) epoch'); [lia|exact Hl]. }
      exists st', c. rewrite Htr. split; [exact Hst'|reflexivity].
Qed.

End Epochs.

(** C4, for the runs in which every epoch goes through: with non-empty
    training and validation loaders, and a log message that can be built at
    the end of every epoch performed, the loop of [main] performs
    [args.epochs] epochs, each a training pass followed by a validation
    pass, unless early stopping is enabled and the stopper answers
    positively on the validation loss of an epoch, in which case that epoch
    is the last; without early stopping it does not end before
    [args.epochs] epochs. *)
Theorem epochs_performed {ES : Type} `{!utils.EarlyStopper ES} (a : args) (w : world) :
  0 < train_loader w → 0 < val_loader w →
  (∀ k, k < epochs_expected (ES := ES) a w → epoch_log a w k = logging.Rendered) →
  (∃ (st : loop_state ES) c, result (run a w (epochs a)) = Returned (st, c)) ∧
  train_val_passes (trace (run (ES := ES) a w (epochs a)))
  = concat (replicate (epochs_expected (ES := ES) a w)
                      [TrainingPass; EvaluationPass ValLoader]) ∧
  epochs_expected (ES := ES) a w ≤ epochs a ∧
  (early_stop a = false → epochs_expected (ES := ES) a w = epochs a) ∧
  (early_stop a = true →
   ∀ k, k < epochs a →
     k < epochs_expected (ES := ES) a w
     ↔ ∀ j, j < k →
         answers (utils.new (early_stop_epochs a) (early_stop_delta a) : ES)
                 (val_losses w (epochs a)) !! j = Some false).
Proof.
  intros Htrain Hval Hlog. unfold run, epochs_expected in *.
  destruct (early_stop a) eqn:Hstop.
  - destruct (loop_with_stopper a w Htrain Hval (seq 0 (epochs a)) (initial_state a)
                (utils.new (early_stop_epochs a) (early_stop_delta a)) Hstop)
      as (st & c & Hres & Htr).
    { unfold initial_state. rewrite Hstop. reflexivity. }
    { intros k epoch Hk [-> _]%lookup_seq. apply Hlog. exact Hk. }
    split; [eauto|]. split; [exact Htr|].
    assert (Hlen : length (answers (utils.new (early_stop_epochs a) (early_stop_delta a) : ES)
                             (val_losses w (epochs a))) = epochs a).
    { rewrite answers_length. unfold val_losses. rewrite length_fmap, length_seq. reflexivity. }
    split; [rewrite <- Hlen at 2; apply epochs_until_halt_le|].
    split; [discriminate|]. intros _ k Hk.
    apply epochs_until_halt_spec. lia.
  - destruct (loop_without_stopper a w Htrain Hval (seq 0 (epochs a)) (initial_state a) Hstop)
      as (st & Hres & Htr).
    { intros epoch Hin%elem_of_seq. apply Hlog. lia. }
    rewrite length_seq in Htr.
    split; [eauto|]. split; [exact Htr|]. split; [lia|]. split; [reflexivity|discriminate].
Qed.

Lemma epochs_performed_witness :
  train_val_passes (trace (run (ES := patience_stopper) sample_args sample_world 3))
  = [TrainingPass; EvaluationPass ValLoader;
     TrainingPass; EvaluationPass ValLoader;
     TrainingPass; EvaluationPass ValLoader].
Proof.
  apply (epochs_performed (ES := patience_stopper) sample_args sample_world).
  - cbn. lia.
  - cbn. lia.
  - intros k _. reflexivity.
Defined.

(** C4 as stated does not hold of every run.  Three epochs are asked for
    and early stopping is off: when the evaluation on the FUNSD test set
    returns an undefined precision while the validation metrics are
    defined, the log message of the first epoch raises [TypeError] and the
    loop has performed one epoch; when the validation loader is empty, the
    first validation raises [ZeroDivisionError]. *)
Lemma loop_stops_before_last_epoch :
  early_stop sample_args = false ∧ epochs sample_args = 3 ∧
  0 < train_loader no_prediction_world ∧ 0 < val_loader no_prediction_world ∧
  result (run (ES := patience_stopper) sample_args no_prediction_world 3) = Raised TypeError ∧
  train_val_passes (trace (run (ES := patience_stopper) sample_args no_prediction_world 3))
  = [TrainingPass; EvaluationPass ValLoader] ∧
  result (run (ES := patience_stopper) sample_args empty_val_world 3)
  = Raised ZeroDivisionError ∧
  train_val_passes (trace (run (ES := patience_stopper) sample_args empty_val_world 3))
  = [TrainingPass; EvaluationPass ValLoader].
Proof.
  split; [reflexivity|]. split; [reflexivity|].
  split; [cbn; lia|]. split; [cbn; lia|].
  repeat split; vm_compute; reflexivity.
Qed.

(** ** The learning-rate scheduler *)

(** A property of traces that holds of the empty trace, of an iteration,
    of a single bookkeeping event, and of the concatenation of two traces
    that have it, holds of every trace of the loop. *)
Section TraceShape.
Context {ES : Type} `{!utils.EarlyStopper ES}.
Variables (a : args) (w : world) (P : list event → Prop).
Hypothesis P_nil : P [].
Hypothesis P_app : ∀ t1 t2, P t1 → P t2 → P (t1 ++ t2).
Hypothesis P_iteration : P (iteration (amp a)).
Hypothesis P_bookkeeping : ∀ e, bookkeeping e → P [e].

Lemma shape_iterations n : P (concat (replicate n (iteration (amp a)))).
Proof. induction n as [|n IH]; cbn [replicate concat]; auto. Qed.

Lemma shape_fit n : P (trace (fit_one_epoch n (amp a))).
Proof.
  rewrite fit_one_epoch_trace. apply P_app.
  - destruct (amp a); [apply P_bookkeeping; exact I|apply P_nil].
  - apply (P_app [ModelTrain]); [apply P_bookkeeping; exact I|apply shape_iterations].
Qed.

Lemma shape_evaluate l n loss : P (trace (evaluate l n loss (amp a))).
Proof.
  rewrite evaluate_trace.
  apply (P_app [ModelEval] (MetricReset l :: _)); [apply P_bookkeeping; exact I|].
  apply (P_app [MetricReset l]); [apply P_bookkeeping; exact I|].
  induction n as [|n IH]; [apply P_nil|].
  apply (P_app [EvalForward l (amp a)]); [apply P_bookkeeping; exact I|exact IH].
Qed.

Lemma shape_checkpoints epoch val_loss m : P (checkpoints a w epoch val_loss m).
Proof.
  unfold checkpoints.
  apply P_app; [destruct (flt val_loss m)|destruct (save_interval_epoch a)];
    try apply P_nil; apply P_bookkeeping; exact I.
Qed.

Lemma shape_epoch_body epoch (st : loop_state ES) : P (trace (epoch_body a w epoch st)).
Proof.
  rewrite epoch_body_trace. unfold epoch_passes.
  destruct (train_loader w); [apply shape_fit|].
  destruct (val_loader w);
    repeat first [apply shape_fit | apply shape_evaluate | apply shape_checkpoints | apply P_app].
Qed.

Lemma shape_training_loop l (st : loop_state ES) : P (trace (training_loop a w l st)).
Proof.
  revert st. induction l as [|epoch l IH]; intros st; [apply P_nil|].
  cbn [training_loop]. rewrite trace_bind.
  apply P_app; [apply shape_epoch_body|].
  destruct (result (epoch_body a w epoch st)) as [[st1 [|]]|e]; auto.
Qed.

End TraceShape.

Lemma occurrences_replicate_ne e n x : x ≠ e → occurrences e (replicate n x) = 0.
Proof.
  intros Hne. apply occurrences_zero. intros Hin. apply elem_of_replicate_inv in Hin.
  congruence.
Qed.

Lemma occurrences_scheduler_epoch a w :
  occurrences SchedulerStep (epoch_passes a w) = train_loader w.
Proof.
  unfold epoch_passes. rewrite fit_one_epoch_trace, !evaluate_trace.
  change (ModelTrain :: concat (replicate (train_loader w) (iteration (amp a))))
    with ([ModelTrain] ++ concat (replicate (train_loader w) (iteration (amp a)))).
  rewrite !occurrences_app, occurrences_concat_replicate.
  rewrite !occurrences_replicate_ne by discriminate.
  destruct (iteration_counts (amp a)) as (_ & _ & _ & ->).
  destruct (amp a); rewrite !(proj2 (occurrences_zero SchedulerStep _)) by absent; lia.
Qed.

Lemma occurrences_scheduler_checkpoints a w epoch val_loss m :
  occurrences SchedulerStep (checkpoints a w epoch val_loss m) = 0.
Proof.
  unfold checkpoints. destruct (flt val_loss m), (save_interval_epoch a); reflexivity.
Qed.

Lemma loop_scheduler_steps {ES : Type} `{!utils.EarlyStopper ES} a w l
    (st st' : loop_state ES) :
  result (training_loop a w l st) = Returned (st', Continue) →
  occurrences SchedulerStep (trace (training_loop a w l st)) = length l * train_loader w.
Proof.
  revert st. induction l as [|epoch l IH]; intros st; [reflexivity|].
  cbn [training_loop length]. rewrite trace_bind, result_bind.
  destruct (result (epoch_body a w epoch st)) as [[st1 [|]]|e] eqn:Hbody;
    [|discriminate..].
  intros Hrest. rewrite occurrences_app, (IH _ Hrest).
  rewrite (epoch_body_trace_returned a w epoch st _ Hbody).
  rewrite occurrences_app, occurrences_scheduler_epoch, occurrences_scheduler_checkpoints.
  lia.
Qed.

Lemma iteration_scheduler_follows amp : scheduler_follows_update amp (iteration amp).
Proof.
  unfold scheduler_follows_update. rewrite iteration_events. destruct amp.
  - apply (framed_once SchedulerStep [ScalerStep; ScalerUpdate] []
             [ZeroGrad; Forward true; Backward true; Unscale; ClipGradNorm 5] []); absent.
  - apply (framed_once SchedulerStep [OptimizerStep] []
             [ZeroGrad; Forward false; Backward false; ClipGradNorm 5] []); absent.
Qed.

Lemma bookkeeping_ne e e' : bookkeeping e → ¬ bookkeeping e' → e' ∉ [e].
Proof. intros He He' Hin%list_elem_of_singleton. subst. auto. Qed.

(** C7: the scheduler chosen by [--sched] is built for [args.epochs] times
    the number of training batches steps; it is stepped once per training
    batch, right after the parameter update, and over a whole run that
    early stopping does not cut short the number of its steps is that
    horizon. *)
Theorem scheduler_horizon {ES : Type} `{!utils.EarlyStopper ES}
    (a : args) (w : world) (st : loop_state ES) :
  result (train a w) = Returned (st, Continue) →
  (∃ rest, trace (train (ES := ES) a w)
           = NewScheduler (sched a) (epochs a * train_loader w) :: rest ∧
           ∀ k total, NewScheduler k total ∉ rest) ∧
  scheduler_follows_update (amp a) (trace (train (ES := ES) a w)) ∧
  occurrences SchedulerStep (trace (train (ES := ES) a w))
  = occurrences ZeroGrad (trace (train (ES := ES) a w)) ∧
  occurrences SchedulerStep (trace (train (ES := ES) a w)) = epochs a * train_loader w.
Proof.
  assert (Hsched : train (ES := ES) a w
                   = (emit (NewScheduler (sched a) (epochs a * train_loader w));;
                      training_loop a w (seq 0 (epochs a)) (initial_state a))).
  { unfold train. destruct (sched a); reflexivity. }
  rewrite Hsched, trace_bind, result_bind. cbn [result snd emit trace fst app].
  intros Hres.
  set (loop := training_loop a w (seq 0 (epochs a)) (initial_state a)) in *.
  split; [|split; [|split]].
  - exists (trace loop). split; [reflexivity|]. intros k total.
    apply (shape_training_loop a w (λ tr, NewScheduler k total ∉ tr)).
    + inversion 1.
    + intros t1 t2 H1 H2 [?|?]%elem_of_app; auto.
    + destruct (amp a); absent.
    + intros e He. apply (bookkeeping_ne _ _ He). exact id.
  - change (NewScheduler (sched a) (epochs a * train_loader w) :: trace loop)
      with ([NewScheduler (sched a) (epochs a * train_loader w)] ++ trace loop).
    apply framed_app.
    + apply framed_absent. intros Hin%list_elem_of_singleton. discriminate.
    + apply (shape_training_loop a w (scheduler_follows_update (amp a))).
      * apply framed_absent. inversion 1.
      * intros t1 t2. apply framed_app.
      * apply iteration_scheduler_follows.
      * intros e He. apply framed_absent, (bookkeeping_ne _ _ He). exact id.
  - change (NewScheduler (sched a) (epochs a * train_loader w) :: trace loop)
      with ([NewScheduler (sched a) (epochs a * train_loader w)] ++ trace loop).
    rewrite !occurrences_app.
    replace (occurrences SchedulerStep [NewScheduler (sched a) (epochs a * train_loader w)])
      with 0 by reflexivity.
    replace (occurrences ZeroGrad [NewScheduler (sched a) (epochs a * train_loader w)])
      with 0 by reflexivity.
    f_equal.
    apply (shape_training_loop a w
             (λ tr, occurrences SchedulerStep tr = occurrences ZeroGrad tr)).
    + reflexivity.
    + intros t1 t2 H1 H2. rewrite !occurrences_app. lia.
    + destruct (iteration_counts (amp a)) as (-> & _ & _ & ->). reflexivity.
    + intros e He.
      rewrite (proj2 (occurrences_zero SchedulerStep [e])),
              (proj2 (occurrences_zero ZeroGrad [e]));
        [reflexivity|apply (bookkeeping_ne _ _ He); exact id..].
  - change (NewScheduler (sched a) (epochs a * train_loader w) :: trace loop)
      with ([NewScheduler (sched a) (epochs a * train_loader w)] ++ trace loop).
    rewrite occurrences_app.
    replace (occurrences SchedulerStep [NewScheduler (sched a) (epochs a * train_loader w)])
      with 0 by reflexivity.
    unfold loop in *. rewrite (loop_scheduler_steps a w _ _ _ Hres), length_seq. lia.
Qed.

Lemma scheduler_horizon_witness :
  occurrences SchedulerStep (trace (train (ES := patience_stopper) sample_args sample_world))
  = 3 * 2.
Proof.
  exact (proj2 (proj2 (proj2
    (scheduler_horizon (ES := patience_stopper) sample_args sample_world
       {| min_loss := Finite 2; early_stopper := None |} eq_refl)))).
Defined.

(** A training run of [main] is [train]. *)
Lemma main_trains {ES : Type} `{!utils.EarlyStopper ES} (a : args) (w : world) :
  test_only a = false → show_samples a = false → find_lr a = false →
  trace (main (ES := ES) a w) = trace (train (ES := ES) a w).
Proof.
  intros Ht Hs Hf. unfold main. rewrite Ht, Hs, Hf, trace_bind.
  destruct (result (train a w)); cbn; apply app_nil_r.
Qed.

(** ** The dataset contract *)

Import datasets.

Example detection_sample :
  ∃ ds, new (G := flat_geometry) DetectionDataset sample_fs "imgs" sample_polygons
          false (Resize (1024, 1024)) = Returned ds ∧
        getitem sample_fs ds 0
        = Returned ({| height := 1024; width := 1024; channels := 3 |},
                    ArrayTarget [[0; 0; 1; 1]%Q]).
Proof. eexists. split; vm_compute; reflexivity. Qed.

Section Loading.
Context {A : Type} (fs : filesystem) (folder : string) (parse : A → target).

Lemma load_entries_returned entries d :
  load_entries fs folder parse entries = Returned d →
  d = prod_map id parse <$> entries ∧
  ∀ name, name ∈ entries.*1 → is_Some (fs !! path_join folder name).
Proof.
  revert d. induction entries as [|[name x] entries IH]; intros d; cbn.
  - intros [= <-]. split; [reflexivity|]. inversion 1.
  - destruct (decide _) as [Hfile|]; [|discriminate].
    destruct (load_entries fs folder parse entries) as [d'|]; [|discriminate].
    intros [= <-]. destruct (IH d' eq_refl) as [-> Hall].
    split; [reflexivity|].
    intros name' [->|Hin]%elem_of_cons; auto.
Qed.

Lemma load_entries_raised entries e :
  load_entries fs folder parse entries = Raised e →
  e = FileNotFoundError ∧
  ∃ name, name ∈ entries.*1 ∧ fs !! path_join folder name = None.
Proof.
  induction entries as [|[name x] entries IH]; cbn; [discriminate|].
  destruct (decide _) as [Hfile|Hfile].
  - destruct (load_entries fs folder parse entries) as [d'|e']; [discriminate|].
    intros [= <-]. destruct (IH eq_refl) as (-> & name' & Hin & Hnone).
    split; [reflexivity|]. exists name'. split; [right; exact Hin|exact Hnone].
  - intros [= <-]. split; [reflexivity|]. exists name. split; [left|].
    destruct (fs !! path_join folder name) eqn:Hl; [|reflexivity].
    exfalso. apply Hfile. eauto.
Qed.

(** The loop raises exactly when a referenced image is missing. *)
Lemma load_entries_spec entries :
  (load_entries fs folder parse entries = Raised FileNotFoundError
   ↔ ∃ name, name ∈ entries.*1 ∧ fs !! path_join folder name = None) ∧
  ((∃ d, load_entries fs folder parse entries = Returned d)
   ↔ ∀ name, name ∈ entries.*1 → is_Some (fs !! path_join folder name)).
Proof.
  destruct (load_entries fs folder parse entries) as [d|e] eqn:Hload.
  - destruct (load_entries_returned _ _ Hload) as [_ Hall]. split; split.
    + discriminate.
    + intros (name & Hin & Hnone). destruct (Hall name Hin) as [img Himg]. congruence.
    + intros _. exact Hall.
    + eauto.
  - destruct (load_entries_raised _ _ Hload) as (-> & name & Hin & Hnone). split; split.
    + eauto.
    + reflexivity.
    + intros [d [=]].
    + intros Hall. destruct (Hall name Hin) as [img Himg]. congruence.
Qed.

End Loading.

Lemma encode_box_length {G : Geometry} rotated_bbox p :
  length (encode_box rotated_bbox p) = if rotated_bbox then 5 else 4.
Proof.
  unfold encode_box, rotated_box, straight_box. destruct rotated_bbox.
  - destruct (fit_rbbox p) as [[[[x y] wd] h] alpha]. reflexivity.
  - destruct p as [[[[x1 y1] [x2 y2]] [x3 y3]] [x4 y4]]. reflexivity.
Qed.

(** What [getitem] returns comes from an entry of the dataset. *)
Lemma getitem_returned fs ds index img t :
  getitem fs ds index = Returned (img, t) → ∃ name, data ds !! index = Some (name, t).
Proof.
  unfold getitem. destruct (data ds !! index) as [[name t']|]; [|discriminate].
  destruct (fs !! path_join (root ds) name); [|discriminate].
  intros [= _ <-]. eauto.
Qed.

Lemma loaded_target {A : Type} fs folder (parse : A → target) entries d index name t :
  load_entries fs folder parse entries = Returned d →
  d !! index = Some (name, t) → ∃ x, t = parse x.
Proof.
  intros [-> _]%load_entries_returned. rewrite list_lookup_fmap.
  destruct (entries !! index) as [[name' x]|]; [|discriminate].
  intros [= _ <-]. eauto.
Qed.

Ltac loaded Hnew Hget :=
  unfold new in Hnew;
  match type of Hnew with
  | context [load_entries ?fs ?folder ?parse ?entries] =>
      let Hload := fresh "Hload" in
      destruct (load_entries fs folder parse entries) as [d|] eqn:Hload; [|discriminate Hnew];
      injection Hnew as <-;
      apply getitem_returned in Hget as [name Hget]; cbn [data] in Hget;
      destruct (loaded_target _ _ _ _ _ _ _ _ Hload Hget) as [x ->]
  end.

(** C2: a sample of a detection dataset holds its boxes as rows of 4
    floats (xmin, ymin, xmax, ymax), and as rows of 5 floats when the
    dataset was built with [rotated_bbox=True]. *)
Theorem detection_box_encoding {G : Geometry} (fs : filesystem) (img_folder : string)
    (f : label_file) (rotated_bbox : bool) (transforms : image → image)
    (ds : dataset) (index : nat) (img : image) (t : target) :
  new DetectionDataset fs img_folder f rotated_bbox transforms = Returned ds →
  getitem fs ds index = Returned (img, t) →
  ∃ boxes, t = ArrayTarget boxes ∧
    Forall (λ row, length row = if rotated_bbox then 5 else 4) boxes.
Proof.
  intros Hnew Hget. destruct f as [entries|entries|entries]; try discriminate Hnew.
  loaded Hnew Hget.
  eexists. split; [reflexivity|].
  apply Forall_fmap, Forall_true. intros p. apply encode_box_length.
Qed.

Lemma detection_box_encoding_witness :
  ∃ boxes, ArrayTarget [[0; 0; 1; 1]%Q] = ArrayTarget boxes ∧
    Forall (λ row, length row = 4) boxes.
Proof.
  eapply (detection_box_encoding (G := flat_geometry) sample_fs "imgs" sample_polygons false
            (Resize (1024, 1024)) _ 0); vm_compute; reflexivity.
Defined.

(** C1, for the classes whose samples hold the boxes together with the
    labels ([OCRDataset] and the benchmark loaders): in every sample
    returned by indexing, there are as many boxes as labels, so that the
    cardinality assertion of [_validate_dataset] holds. *)
Theorem box_count_equals_label_count {G : Geometry} (c : dataset_class)
    (fs : filesystem) (img_folder : string) (f : label_file) (rotated_bbox : bool)
    (transforms : image → image) (ds : dataset) (index : nat) (img : image) (t : target) :
  with_labels c = true →
  new c fs img_folder f rotated_bbox transforms = Returned ds →
  getitem fs ds index = Returned (img, t) →
  counts_agree t ∧
  ∀ relative_coords class_indices,
    validate_target relative_coords class_indices t ≠ Some 20 ∧
    validate_target relative_coords class_indices t ≠ Some 28.
Proof.
  intros Hc Hnew Hget.
  assert (Hshape : ∃ boxes lbls objects,
            t = DictTarget (boxes <$> objects) lbls ∧
            (lbls = Texts (value <$> objects) ∨ lbls = ClassIndices (class_index <$> objects))).
  { destruct c; try discriminate Hc;
      destruct f as [entries|entries|entries]; try discriminate Hnew;
      loaded Hnew Hget; eexists _, _, x; split; try reflexivity; auto. }
  destruct Hshape as (boxes & lbls & objects & -> & Hl). split.
  - exists (length objects). cbn. rewrite length_fmap.
    destruct Hl as [-> | ->]; rewrite length_fmap; auto.
  - intros relative_coords class_indices. unfold validate_target.
    destruct (relative_coords && _); [split; discriminate|].
    destruct Hl as [-> | ->]; destruct class_indices; try (split; discriminate);
      rewrite !length_fmap, Nat.eqb_refl; split; discriminate.
Qed.

Lemma box_count_equals_label_count_witness :
  counts_agree (DictTarget [[0; 0; 1; 1]%Q] (Texts ["word"])).
Proof.
  eapply (box_count_equals_label_count (G := flat_geometry) FUNSD sample_fs "imgs"
            sample_objects false (Resize (512, 512)) _ 0);
    vm_compute; reflexivity.
Defined.

(** C1 as stated also names [DetectionDataset].  The dataset tests
    require a sample of that class to be the array of its boxes (line 54;
    the training script reads it as a mapping from class names to boxes):
    such a target has no labels to count, and the first assertion of
    [_validate_dataset] on the target fails on it. *)
Lemma detection_sample_has_no_labels :
  ∃ ds img t,
    new (G := flat_geometry) DetectionDataset sample_fs "imgs" one_box_polygons false
        (Resize (1024, 1024)) = Returned ds ∧
    getitem sample_fs ds 0 = Returned (img, t) ∧
    box_count t = Some 1 ∧ label_count t = None ∧ ¬ counts_agree t ∧
    validate_target false false t = Some 20.
Proof.
  eexists _, _, _. split; [vm_compute; reflexivity|]. split; [vm_compute; reflexivity|].
  repeat split. intros (n & _ & [=]).
Qed.

(** C8: the constructor of [DetectionDataset], [RecognitionDataset] or
    [OCRDataset] raises [FileNotFoundError] exactly when an image named by
    the label file is missing from the image folder, and returns a dataset
    exactly when they are all there. *)
Theorem missing_image_raises {G : Geometry} (c : dataset_class) (fs : filesystem)
    (img_folder : string) (f : label_file) (rotated_bbox : bool)
    (transforms : image → image) :
  c ∈ [DetectionDataset; RecognitionDataset; OCRDataset] →
  accepts c f = true →
  (new c fs img_folder f rotated_bbox transforms = Raised FileNotFoundError
   ↔ ∃ name, name ∈ referenced f ∧ fs !! path_join img_folder name = None) ∧
  ((∃ ds, new c fs img_folder f rotated_bbox transforms = Returned ds)
   ↔ ∀ name, name ∈ referenced f → is_Some (fs !! path_join img_folder name)).
Proof.
  intros Hc Hf.
  assert (Hwrap : ∀ r : outcome (list (string * target)),
            (match r with
             | Returned d =>
                 Returned {| root := img_folder; data := d; img_transforms := transforms |}
             | Raised e => Raised e
             end = Raised FileNotFoundError ↔ r = Raised FileNotFoundError) ∧
            ((∃ ds, match r with
                    | Returned d =>
                        Returned {| root := img_folder; data := d;
                                    img_transforms := transforms |}
                    | Raised e => Raised e
                    end = Returned ds) ↔ ∃ d, r = Returned d)).
  { intros [d|e]; split; split; intros Hx;
      solve [ discriminate Hx | injection Hx as ->; reflexivity | eexists; reflexivity
            | destruct Hx; discriminate ]. }
  repeat (apply elem_of_cons in Hc as [->|Hc]); [..|inversion Hc];
    destruct f as [entries|entries|entries]; try discriminate Hf;
    unfold new, referenced;
    match goal with
    | |- context [load_entries ?fs ?folder ?parse ?entries] =>
        destruct (Hwrap (load_entries fs folder parse entries)) as [-> ->];
        apply load_entries_spec
    end.
Qed.

Lemma missing_image_raises_witness :
  ∃ ds, new (G := flat_geometry) DetectionDataset sample_fs "imgs" sample_polygons false id
        = Returned ds.
Proof.
  apply (missing_image_raises (G := flat_geometry) DetectionDataset sample_fs "imgs"
           sample_polygons false id).
  - left.
  - reflexivity.
  - intros name Hin. vm_compute in Hin.
    repeat (apply elem_of_cons in Hin as [->|Hin]); [..|inversion Hin];
      vm_compute; eauto.
Defined.

Example moved_image_raises :
  new (G := flat_geometry) DetectionDataset (delete "imgs/a.jpg" sample_fs) "imgs"
      sample_polygons false id
  = Raised FileNotFoundError.
Proof. vm_compute. reflexivity. Qed.

(** * Further properties of the script *)

(** ** The learning-rate search *)

Lemma occurrences_iterations e k amp :
  occurrences e (concat (replicate k (iteration amp))) = k * occurrences e (iteration amp).
Proof. apply occurrences_concat_replicate. Qed.

(** How the loop of [record_lr] stops: on the last batch, on the
    [num_it]-th iteration, or on a loss that is not finite; [k] losses are
    recorded on the way. *)
Lemma record_lr_batches_spec amp num_it losses todo i rec :
  ∃ k iters,
    trace (record_lr_batches amp num_it losses todo i rec)
    = concat (replicate iters (iteration amp)) ∧
    k ≤ todo ∧
    (∀ j, i ≤ j < i + k → isfinite (losses j) = true) ∧
    ((iters = k ∧
      result (record_lr_batches amp num_it losses todo i rec)
      = Returned (rec ++ (losses <$> seq i k)) ∧
      ((k = todo ∧ ∀ j, i ≤ j < i + k → (Z.of_nat j + 1)%Z ≠ num_it) ∨
       (0 < k ∧ Z.of_nat (i + k) = num_it ∧
        ∀ j, i ≤ j < i + k - 1 → (Z.of_nat j + 1)%Z ≠ num_it)))
     ∨
     (iters = S k ∧ k < todo ∧ isfinite (losses (i + k)) = false ∧
      (∀ j, i ≤ j < i + k → (Z.of_nat j + 1)%Z ≠ num_it) ∧
      result (record_lr_batches amp num_it losses todo i rec)
      = if i + k =? 0 then Raised ValueError
        else Returned (rec ++ (losses <$> seq i k)))).
Proof.
  revert i rec. induction todo as [|n IH]; intros i rec.
  - exists 0, 0. split; [reflexivity|]. split; [lia|]. split; [intros; lia|].
    left. split; [reflexivity|]. split; [cbn; rewrite app_nil_r; reflexivity|].
    left. split; [reflexivity|intros; lia].
  - cbn [record_lr_batches]. rewrite !trace_bind, !result_bind, train_step_result.
    cbn [result snd emit trace fst].
    destruct (isfinite (losses i)) eqn:Hfin; cbn [negb].
    + destruct (Z.of_nat i + 1 =? num_it)%Z eqn:Hnum.
      * apply Z.eqb_eq in Hnum. exists 1, 1. split.
        { cbn [replicate concat]. rewrite iteration_split, !app_nil_r. reflexivity. }
        split; [lia|]. split.
        { intros j Hj. replace j with i by lia. exact Hfin. }
        left. split; [reflexivity|]. split; [reflexivity|].
        right. split; [lia|]. split; [lia|intros; lia].
      * apply Z.eqb_neq in Hnum.
        destruct (IH (S i) (rec ++ [losses i]))
          as (k & iters & Htr & Hk & Hall & Hcase).
        exists (S k), (S iters). split.
        { rewrite Htr. cbn [replicate concat].
          rewrite iteration_split, <- !app_assoc. reflexivity. }
        split; [lia|]. split.
        { intros j Hj. destruct (decide (j = i)) as [->|]; [exact Hfin|].
          apply Hall. lia. }
        assert (Hrec : (rec ++ [losses i]) ++ (losses <$> seq (S i) k)
                       = rec ++ (losses <$> seq i (S k))).
        { rewrite <- app_assoc. reflexivity. }
        replace (i + S k) with (S i + k) by lia.
        destruct Hcase as [(-> & Hres & Hstop)|(-> & Hlt & Hbad & Hno & Hres)].
        -- left. split; [reflexivity|]. rewrite Hres, Hrec. split; [reflexivity|].
           destruct Hstop as [[-> Hno]|(Hpos & Hnum' & Hno)].
           ++ left. split; [reflexivity|]. intros j Hj.
              destruct (decide (j = i)) as [->|]; [exact Hnum|]. apply Hno. lia.
           ++ right. split; [lia|]. split; [exact Hnum'|]. intros j Hj.
              destruct (decide (j = i)) as [->|]; [exact Hnum|]. apply Hno. lia.
        -- right. split; [reflexivity|]. split; [lia|]. split; [exact Hbad|]. split.
           ++ intros j Hj. destruct (decide (j = i)) as [->|]; [exact Hnum|].
              apply Hno. lia.
           ++ rewrite Hres, Hrec. reflexivity.
    + exists 0, 1. split.
      { cbn [replicate concat]. rewrite iteration_split.
        destruct (i =? 0); cbn; rewrite !app_nil_r; reflexivity. }
      split; [lia|]. split; [intros; lia|].
      right. split; [reflexivity|]. split; [lia|].
      rewrite Nat.add_0_r. split; [exact Hfin|]. split; [intros; lia|].
      cbn [seq fmap list_fmap]. rewrite app_nil_r.
      destruct (i =? 0); reflexivity.
Qed.

(** [record_lr] once its two checks are passed. *)
Lemma record_lr_started n losses num_it amp :
  (num_it ≤ Z.of_nat n)%Z → num_it ≠ 1%Z →
  trace (record_lr n losses num_it amp)
  = ([ModelTrain; NewMultiplicativeLR] ++ (if amp then [NewGradScaler] else []))
    ++ trace (record_lr_batches amp num_it losses n 0 []) ∧
  result (record_lr n losses num_it amp)
  = match result (record_lr_batches amp num_it losses n 0 []) with
    | Returned ls =>
        Returned (take (length ls) (LrAt <$> seq 0 (Z.to_nat num_it)), ls)
    | Raised e => Raised e
    end.
Proof.
  intros Hn H1. unfold record_lr.
  destruct (Z.of_nat n <? num_it)%Z eqn:Hlt; [apply Z.ltb_lt in Hlt; lia|].
  destruct (num_it - 1 =? 0)%Z eqn:Hone; [apply Z.eqb_eq in Hone; lia|].
  repeat (autorewrite with script; cbn [result snd emit]).
  destruct (result (record_lr_batches amp num_it losses n 0 [])) as [ls|e];
    cbn [trace fst raise]; rewrite ?trace_mret, ?app_nil_r;
    destruct amp; split; reflexivity.
Qed.

Lemma record_lr_iterations n losses num_it amp iters :
  (num_it ≤ Z.of_nat n)%Z → num_it ≠ 1%Z →
  trace (record_lr_batches amp num_it losses n 0 []) = concat (replicate iters (iteration amp)) →
  occurrences ZeroGrad (trace (record_lr n losses num_it amp)) = iters ∧
  occurrences OptimizerStep (trace (record_lr n losses num_it amp))
  + occurrences ScalerStep (trace (record_lr n losses num_it amp)) = iters.
Proof.
  intros Hn H1 Htr. destruct (record_lr_started n losses num_it amp Hn H1) as [-> _].
  assert (Hh : ∀ e, training_event e = true →
            occurrences e ([ModelTrain; NewMultiplicativeLR]
                           ++ (if amp then [NewGradScaler] else [])) = 0).
  { intros e He. apply occurrences_zero. intros Hin.
    destruct amp; repeat (apply elem_of_cons in Hin as [->|Hin]; [discriminate|]);
      inversion Hin. }
  rewrite Htr, !(occurrences_app _ ([ModelTrain; NewMultiplicativeLR] ++ _)),
    !occurrences_iterations, !Hh by reflexivity.
  destruct (iteration_counts amp) as (-> & _ & Hupd & _). nia.
Qed.

Lemma take_lr_recorder k N : k ≤ N → take k (LrAt <$> seq 0 N) = LrAt <$> seq 0 k.
Proof. intros Hk. rewrite <- fmap_take, take_seq. f_equal. f_equal. lia. Qed.

Lemma record_lr_few_batches n losses num_it amp :
  (Z.of_nat n < num_it)%Z → record_lr n losses num_it amp = ([], Raised ValueError).
Proof. intros Hlt. unfold record_lr. apply Z.ltb_lt in Hlt. rewrite Hlt. reflexivity. Qed.

Lemma record_lr_one_iteration n losses num_it amp :
  (num_it ≤ Z.of_nat n)%Z → num_it = 1%Z →
  record_lr n losses num_it amp = ([ModelTrain], Raised ZeroDivisionError).
Proof.
  intros Hle ->. unfold record_lr.
  destruct (Z.of_nat n <? 1)%Z eqn:Hlt; [apply Z.ltb_lt in Hlt; lia|]. reflexivity.
Qed.

(** X1: [record_lr] refuses to start, before any training iteration, exactly
    when there are fewer batches than [num_it] (a [ValueError], the model
    untouched) or [num_it] is 1 (the division by [num_it - 1] fails once
    the model is in training mode). *)
Theorem record_lr_refuses (n : nat) (losses : nat → pyfloat) (num_it : Z) (amp : bool) :
  ((∃ e, result (record_lr n losses num_it amp) = Raised e ∧
         occurrences ZeroGrad (trace (record_lr n losses num_it amp)) = 0)
   ↔ (Z.of_nat n < num_it)%Z ∨ num_it = 1%Z) ∧
  (record_lr n losses num_it amp = ([], Raised ValueError) ↔ (Z.of_nat n < num_it)%Z) ∧
  (record_lr n losses num_it amp = ([ModelTrain], Raised ZeroDivisionError)
   ↔ (num_it ≤ Z.of_nat n)%Z ∧ num_it = 1%Z).
Proof.
  pose proof (record_lr_few_batches n losses num_it amp) as Hfew.
  pose proof (record_lr_one_iteration n losses num_it amp) as Hone.
  assert (Hstarted : (num_it ≤ Z.of_nat n)%Z → num_it ≠ 1%Z →
            ModelTrain ∈ trace (record_lr n losses num_it amp) ∧
            NewMultiplicativeLR ∈ trace (record_lr n losses num_it amp)).
  { intros Hle H1. destruct (record_lr_started n losses num_it amp Hle H1) as [-> _].
    split; apply elem_of_app; left; apply elem_of_app; left; [left|right; left]. }
  split; [|split].
  - split.
    + intros (e & Hres & Hzero).
      destruct (Z_lt_le_dec (Z.of_nat n) num_it) as [|Hle]; [auto|].
      destruct (Z.eq_dec num_it 1%Z) as [|H1]; [auto|]. exfalso.
      destruct (record_lr_batches_spec amp num_it losses n 0 [])
        as (k & iters & Htr & _ & _ & Hcase).
      destruct (record_lr_iterations n losses num_it amp iters Hle H1 Htr) as [Hit _].
      destruct (record_lr_started n losses num_it amp Hle H1) as [_ Hr].
      rewrite Hr in Hres.
      destruct Hcase as [(_ & Hret & _)|(-> & _)]; [rewrite Hret in Hres; discriminate|lia].
    + intros [Hlt|H1].
      * rewrite (Hfew Hlt). eauto.
      * destruct (Z_lt_le_dec (Z.of_nat n) num_it) as [Hlt|Hle].
        -- rewrite (Hfew Hlt). eauto.
        -- rewrite (Hone Hle H1). eauto.
  - split; [|exact Hfew]. intros Heq.
    destruct (Z_lt_le_dec (Z.of_nat n) num_it) as [|Hle]; [assumption|]. exfalso.
    destruct (Z.eq_dec num_it 1%Z) as [H1|H1].
    + rewrite (Hone Hle H1) in Heq. discriminate.
    + destruct (Hstarted Hle H1) as [Hin _]. rewrite Heq in Hin. inversion Hin.
  - split; [|intros [Hle H1]; exact (Hone Hle H1)]. intros Heq.
    destruct (Z_lt_le_dec (Z.of_nat n) num_it) as [Hlt|Hle].
    { rewrite (Hfew Hlt) in Heq. discriminate. }
    split; [exact Hle|]. destruct (Z.eq_dec num_it 1%Z) as [|H1]; [assumption|]. exfalso.
    destruct (Hstarted Hle H1) as [_ Hin]. rewrite Heq in Hin.
    apply list_elem_of_singleton in Hin. discriminate.
Qed.

(** X2: what [record_lr] returns for a positive [num_it]: the losses of
    the first [k] batches, all finite, with the first [k] learning rates of
    the grid, [k] being at most [num_it] and at most the number of
    batches; the two lists have the same length. *)
Theorem record_lr_returns (n : nat) (losses : nat → pyfloat) (num_it : Z) (amp : bool)
    (lrs : list lr) (ls : list pyfloat) :
  (1 ≤ num_it)%Z →
  result (record_lr n losses num_it amp) = Returned (lrs, ls) →
  ∃ k, ls = losses <$> seq 0 k ∧ lrs = LrAt <$> seq 0 k ∧
       (Z.of_nat k ≤ num_it)%Z ∧ k ≤ n ∧
       (∀ j, j < k → isfinite (losses j) = true) ∧
       length lrs = length ls.
Proof.
  intros Hpos Hres.
  destruct (Z_lt_le_dec (Z.of_nat n) num_it) as [Hlt|Hle].
  { rewrite (record_lr_few_batches n losses num_it amp Hlt) in Hres. discriminate. }
  destruct (Z.eq_dec num_it 1%Z) as [H1|H1].
  { rewrite (record_lr_one_iteration n losses num_it amp Hle H1) in Hres. discriminate. }
  destruct (record_lr_started n losses num_it amp Hle H1) as [_ Hr]. rewrite Hr in Hres.
  destruct (record_lr_batches_spec amp num_it losses n 0 [])
    as (k & iters & _ & Hk & Hall & Hcase).
  assert (Hk' : (Z.of_nat k ≤ num_it)%Z ∧
                result (record_lr_batches amp num_it losses n 0 [])
                = Returned (losses <$> seq 0 k)).
  { destruct Hcase as [(_ & Hret & [[-> Hno]|(_ & Hnum & _)])|(_ & Hlt & _ & Hno & Hret)].
    - exfalso. apply (Hno (Z.to_nat (num_it - 1))); lia.
    - split; [lia|exact Hret].
    - rewrite Hret in Hres. destruct (0 + k =? 0) eqn:Hz; [discriminate|].
      split; [|exact Hret].
      destruct (Z_le_gt_dec (Z.of_nat k) num_it) as [|Hgt]; [assumption|].
      exfalso. apply (Hno (Z.to_nat (num_it - 1))); lia. }
  destruct Hk' as [Hkn Hret]. rewrite Hret in Hres. injection Hres as <- <-.
  exists k. rewrite length_fmap, length_seq, take_lr_recorder by lia.
  repeat split; try lia.
  - intros j Hj. apply Hall. lia.
  - rewrite !length_fmap, !length_seq. reflexivity.
Qed.

Lemma record_lr_returns_witness :
  ∃ k, [Finite 1] = (λ i, if i =? 1 then NaN else Finite 1) <$> seq 0 k ∧
       [LrAt 0] = LrAt <$> seq 0 k ∧ (Z.of_nat k ≤ 3)%Z ∧ k ≤ 3 ∧
       (∀ j, j < k → isfinite (if j =? 1 then NaN else Finite 1) = true) ∧
       length [LrAt 0] = length [Finite 1].
Proof.
  apply (record_lr_returns 3 (λ i, if i =? 1 then NaN else Finite 1) 3 false);
    [lia|reflexivity].
Defined.

(** X3: with [2 <= num_it <= len(train_loader)] and finite losses, the
    search performs exactly [num_it] iterations, leaves the later batches
    alone and returns [num_it] learning rates with their losses. *)
Theorem record_lr_complete (n : nat) (losses : nat → pyfloat) (num_it : Z) (amp : bool) :
  (2 ≤ num_it ≤ Z.of_nat n)%Z →
  (∀ j, (Z.of_nat j < num_it)%Z → isfinite (losses j) = true) →
  result (record_lr n losses num_it amp)
  = Returned (LrAt <$> seq 0 (Z.to_nat num_it), losses <$> seq 0 (Z.to_nat num_it)) ∧
  occurrences ZeroGrad (trace (record_lr n losses num_it amp)) = Z.to_nat num_it.
Proof.
  intros [H2 Hle] Hfin.
  assert (H1 : num_it ≠ 1%Z) by lia.
  destruct (record_lr_started n losses num_it amp Hle H1) as [_ ->].
  destruct (record_lr_batches_spec amp num_it losses n 0 [])
    as (k & iters & Htr & Hk & Hall & Hcase).
  destruct (record_lr_iterations n losses num_it amp iters Hle H1 Htr) as [-> _].
  destruct Hcase as [(-> & Hret & [[-> Hno]|(_ & Hnum & _)])|(_ & Hlt & Hbad & Hno & _)].
  - exfalso. apply (Hno (Z.to_nat (num_it - 1))); lia.
  - rewrite Hret. cbn [app]. rewrite length_fmap, length_seq.
    replace (Z.to_nat num_it) with k by lia.
    rewrite take_lr_recorder by lia. split; reflexivity.
  - exfalso. cbn [Nat.add] in Hbad.
    destruct (Z_lt_le_dec (Z.of_nat k) num_it) as [Hsmall|Hbig].
    + rewrite (Hfin k) in Hbad by lia. discriminate.
    + apply (Hno (Z.to_nat (num_it - 1))); lia.
Qed.

Lemma record_lr_complete_witness :
  result (record_lr 4 (λ _, Finite 1) 2 true)
  = Returned ([LrAt 0; LrAt 1], [Finite 1; Finite 1]) ∧
  occurrences ZeroGrad (trace (record_lr 4 (λ _, Finite 1) 2 true)) = 2.
Proof.
  apply (record_lr_complete 4 (λ _, Finite 1) 2 true); [lia|reflexivity].
Defined.

(** X4: the loss is tested after the parameters were updated with it.  On
    the first batch on which it is not finite the search stops with that
    batch's update applied: by a [ValueError] when this is the very first
    batch, else by returning what was recorded before. *)
Theorem record_lr_diverges (n : nat) (losses : nat → pyfloat) (num_it : Z) (amp : bool)
    (j : nat) :
  (num_it ≤ Z.of_nat n)%Z → num_it ≠ 1%Z →
  j < n → (num_it ≤ 0 ∨ Z.of_nat j < num_it)%Z →
  (∀ i, i < j → isfinite (losses i) = true) →
  isfinite (losses j) = false →
  occurrences ZeroGrad (trace (record_lr n losses num_it amp)) = S j ∧
  occurrences OptimizerStep (trace (record_lr n losses num_it amp))
  + occurrences ScalerStep (trace (record_lr n losses num_it amp)) = S j ∧
  result (record_lr n losses num_it amp)
  = if j =? 0 then Raised ValueError
    else Returned (take j (LrAt <$> seq 0 (Z.to_nat num_it)), losses <$> seq 0 j).
Proof.
  intros Hle H1 Hj Hreach Hfin Hbad.
  destruct (record_lr_started n losses num_it amp Hle H1) as [_ ->].
  destruct (record_lr_batches_spec amp num_it losses n 0 [])
    as (k & iters & Htr & Hk & Hall & Hcase).
  destruct (record_lr_iterations n losses num_it amp iters Hle H1 Htr) as [-> ->].
  assert (Hjk : k ≤ j).
  { destruct (le_lt_dec k j) as [|Hlt]; [assumption|].
    rewrite (Hall j) in Hbad by lia. discriminate. }
  destruct Hcase as [(_ & _ & [[-> _]|(Hpos & Hnum & _)])|(-> & Hlt & Hbadk & _ & Hret)].
  - lia.
  - lia.
  - cbn [Nat.add] in Hbadk. assert (k = j) as ->.
    { destruct (le_lt_dec j k) as [|Hlt']; [lia|].
      rewrite (Hfin k Hlt') in Hbadk. discriminate. }
    split; [reflexivity|]. split; [reflexivity|].
    rewrite Hret. cbn [Nat.add app]. destruct (j =? 0); [reflexivity|].
    rewrite length_fmap, length_seq. reflexivity.
Qed.

Lemma record_lr_diverges_witness :
  occurrences ZeroGrad (trace (record_lr 3 (λ _, NaN) 3 false)) = 1 ∧
  occurrences OptimizerStep (trace (record_lr 3 (λ _, NaN) 3 false))
  + occurrences ScalerStep (trace (record_lr 3 (λ _, NaN) 3 false)) = 1 ∧
  result (record_lr 3 (λ _, NaN) 3 false) = Raised ValueError.
Proof.
  apply (record_lr_diverges 3 (λ _, NaN) 3 false 0);
    [lia|lia|lia|right; lia|intros; lia|reflexivity].
Defined.

(** X5: a non-positive [num_it] passes the checks, never ends the loop
    and leaves the grid of learning rates empty: the search runs over every
    batch and returns all the losses with no learning rate. *)
Theorem record_lr_without_grid (n : nat) (losses : nat → pyfloat) (num_it : Z) (amp : bool) :
  (num_it ≤ 0)%Z →
  (∀ j, j < n → isfinite (losses j) = true) →
  result (record_lr n losses num_it amp) = Returned ([], losses <$> seq 0 n) ∧
  occurrences ZeroGrad (trace (record_lr n losses num_it amp)) = n.
Proof.
  intros Hneg Hfin.
  assert (Hle : (num_it ≤ Z.of_nat n)%Z) by lia.
  assert (H1 : num_it ≠ 1%Z) by lia.
  destruct (record_lr_started n losses num_it amp Hle H1) as [_ ->].
  destruct (record_lr_batches_spec amp num_it losses n 0 [])
    as (k & iters & Htr & Hk & Hall & Hcase).
  destruct (record_lr_iterations n losses num_it amp iters Hle H1 Htr) as [-> _].
  destruct Hcase as [(-> & Hret & [[-> _]|(Hpos & Hnum & _)])|(_ & Hlt & Hbad & _)].
  - rewrite Hret. replace (Z.to_nat num_it) with 0 by lia.
    cbn [seq fmap list_fmap app]. rewrite take_nil. split; reflexivity.
  - lia.
  - cbn [Nat.add] in Hbad. rewrite (Hfin k) in Hbad by lia. discriminate.
Qed.

Lemma record_lr_without_grid_witness :
  result (record_lr 2 (λ _, Finite 1) 0 false) = Returned ([], [Finite 1; Finite 1]) ∧
  occurrences ZeroGrad (trace (record_lr 2 (λ _, Finite 1) 0 false)) = 2.
Proof.
  apply (record_lr_without_grid 2 (λ _, Finite 1) 0 false); [lia|reflexivity].
Defined.

(** ** Training and evaluation passes *)

Lemma Forall_iterations (P : event → Prop) k amp :
  Forall P (iteration amp) → Forall P (concat (replicate k (iteration amp))).
Proof.
  intros Hb. induction k as [|k IH]; cbn [replicate concat]; [constructor|].
  apply Forall_app. auto.
Qed.

(** X6: on an empty loader [fit_one_epoch] fails on its last line, with
    the model already switched to training mode and no update made; on a
    loader of [n > 0] batches it returns after exactly [n] iterations and
    [n] parameter updates. *)
Theorem fit_one_epoch_outcome (n : nat) (amp : bool) :
  (result (fit_one_epoch n amp) = Raised UnboundLocalError ↔ n = 0) ∧
  (result (fit_one_epoch n amp) = Returned tt ↔ 0 < n) ∧
  occurrences ModelTrain (trace (fit_one_epoch n amp)) = 1 ∧
  occurrences ZeroGrad (trace (fit_one_epoch n amp)) = n ∧
  occurrences OptimizerStep (trace (fit_one_epoch n amp))
  + occurrences ScalerStep (trace (fit_one_epoch n amp)) = n.
Proof.
  rewrite fit_one_epoch_result, fit_one_epoch_trace.
  change (ModelTrain :: concat (replicate n (iteration amp)))
    with ([ModelTrain] ++ concat (replicate n (iteration amp))).
  rewrite !occurrences_app, !occurrences_iterations.
  destruct (iteration_counts amp) as (-> & _ & Hupd & _).
  repeat split; try (destruct n; (discriminate || lia || reflexivity)).
  - replace (occurrences ModelTrain (iteration amp)) with 0 by (destruct amp; reflexivity).
    destruct amp; vm_compute (occurrences _ [_]); cbn [occurrences]; try lia;
      replace (occurrences ModelTrain []) with 0 by reflexivity; lia.
  - destruct amp; rewrite !(proj2 (occurrences_zero ZeroGrad _)) by absent; lia.
  - replace (occurrences OptimizerStep (if amp then [NewGradScaler] else [])) with 0
      by (destruct amp; reflexivity).
    replace (occurrences ScalerStep (if amp then [NewGradScaler] else [])) with 0
      by (destruct amp; reflexivity).
    replace (occurrences OptimizerStep [ModelTrain]) with 0 by reflexivity.
    replace (occurrences ScalerStep [ModelTrain]) with 0 by reflexivity.
    nia.
Qed.

(** X7: [evaluate] only evaluates: it makes one forward pass per batch and
    no backward pass, parameter update, scheduler step or checkpoint; it
    fails by dividing by a zero batch count exactly on an empty loader and
    returns the mean loss otherwise. *)
Theorem evaluate_only_evaluates (l : loader) (n : nat) (loss : pyfloat) (amp : bool) :
  Forall (λ e, training_event e = false ∧ is_save e = false)
         (trace (evaluate l n loss amp)) ∧
  occurrences (EvalForward l amp) (trace (evaluate l n loss amp)) = n ∧
  (result (evaluate l n loss amp) = Raised ZeroDivisionError ↔ n = 0) ∧
  (result (evaluate l n loss amp) = Returned loss ↔ 0 < n).
Proof.
  rewrite evaluate_trace, evaluate_result. split; [|split; [|split]].
  - apply Forall_app. split; [repeat constructor|].
    apply Forall_replicate. split; reflexivity.
  - rewrite occurrences_app.
    replace (occurrences (EvalForward l amp) [ModelEval; MetricReset l]) with 0
      by (destruct l; reflexivity).
    induction n as [|n IH]; [reflexivity|].
    cbn [replicate]. change (EvalForward l amp :: replicate n (EvalForward l amp))
      with ([EvalForward l amp] ++ replicate n (EvalForward l amp)).
    rewrite occurrences_app. unfold occurrences at 1.
    rewrite filter_cons, decide_True by reflexivity. cbn [filter list_filter length]. lia.
  - destruct n; split; (discriminate || lia || reflexivity).
  - destruct n; split; (discriminate || lia || reflexivity).
Qed.

(** ** The loop of [main], further *)

Section LoopFurther.
Context {ES : Type} `{!utils.EarlyStopper ES}.
Variables (a : args) (w : world).

(** An empty training or validation loader makes the epoch raise before
    any checkpoint. *)
Lemma epoch_body_empty_loader epoch (st : loop_state ES) :
  train_loader w = 0 ∨ val_loader w = 0 →
  result (epoch_body a w epoch st)
  = Raised (if train_loader w =? 0 then UnboundLocalError else ZeroDivisionError) ∧
  ¬ saves (trace (epoch_body a w epoch st)).
Proof.
  rewrite epoch_body_result, epoch_body_trace.
  destruct (train_loader w) as [|n] eqn:Ht.
  - intros _. split; [reflexivity|].
    intros [file Hin]. revert Hin. destruct (amp a); absent.
  - destruct (val_loader w) as [|m] eqn:Hv; [|intros [|]; discriminate].
    intros _. split; [reflexivity|].
    intros [file Hin]. rewrite fit_one_epoch_trace in Hin.
    apply elem_of_app in Hin as [Hin|Hin]; [|revert Hin; absent].
    apply elem_of_app in Hin as [Hin|Hin]; [revert Hin; destruct (amp a); absent|].
    apply elem_of_cons in Hin as [Hin|Hin]; [discriminate|].
    apply elem_of_concat_replicate in Hin. revert Hin. destruct (amp a); absent.
Qed.

(** An exception of an epoch ends the loop. *)
Lemma training_loop_raised epoch l (st : loop_state ES) e :
  result (epoch_body a w epoch st) = Raised e →
  training_loop a w (epoch :: l) st = epoch_body a w epoch st.
Proof.
  cbn [training_loop].
  destruct (epoch_body a w epoch st) as [tr [[st1 c]|e1]]; cbn; [discriminate|reflexivity].
Qed.

End LoopFurther.

(** X8: when an epoch is asked for and the training or the validation
    loader is empty, the loop raises in its first epoch, with
    [UnboundLocalError] for the training loader and [ZeroDivisionError] for
    the validation loader, before any checkpoint is written. *)
Theorem loop_raises_on_empty_loader {ES : Type} `{!utils.EarlyStopper ES}
    (a : args) (w : world) (n : nat) :
  0 < n → train_loader w = 0 ∨ val_loader w = 0 →
  run (ES := ES) a w n = run a w 1 ∧
  result (run (ES := ES) a w n)
  = Raised (if train_loader w =? 0 then UnboundLocalError else ZeroDivisionError) ∧
  ¬ saves (trace (run (ES := ES) a w n)).
Proof.
  intros Hn Hempty. destruct n as [|n]; [lia|].
  destruct (epoch_body_empty_loader a w 0 (initial_state (ES := ES) a) Hempty)
    as [Hres Hsave].
  unfold run. cbn [seq].
  rewrite !(training_loop_raised a w 0 _ _ _ Hres).
  split; [reflexivity|]. split; [exact Hres|exact Hsave].
Qed.

Lemma loop_raises_on_empty_loader_witness :
  run (ES := patience_stopper) sample_args
      {| train_loader := 1; val_loader := 0; funsd_test_loader := 0; cord_test_loader := 0;
         exp_name := "x"; train_loss_at := λ _, NaN; loss_at := λ _ _, NaN;
         metrics_at := λ _ _, (None, None, None) |} 3
  = run sample_args
      {| train_loader := 1; val_loader := 0; funsd_test_loader := 0; cord_test_loader := 0;
         exp_name := "x"; train_loss_at := λ _, NaN; loss_at := λ _ _, NaN;
         metrics_at := λ _ _, (None, None, None) |} 1.
Proof.
  apply (loop_raises_on_empty_loader (ES := patience_stopper) sample_args
           {| train_loader := 1; val_loader := 0; funsd_test_loader := 0;
              cord_test_loader := 0; exp_name := "x";
              train_loss_at := λ _, NaN; loss_at := λ _ _, NaN;
              metrics_at := λ _ _, (None, None, None) |} 3).
  - lia.
  - right. reflexivity.
Defined.

Lemma filter_replicate_false {A} (f : A → bool) n x :
  f x = false → List.filter f (replicate n x) = [].
Proof. intros Hx. induction n as [|n IH]; cbn; [reflexivity|]. rewrite Hx. exact IH. Qed.

Lemma filter_replicate_true {A} (f : A → bool) n x :
  f x = true → List.filter f (replicate n x) = replicate n x.
Proof. intros Hx. induction n as [|n IH]; cbn; [reflexivity|]. rewrite Hx, IH. reflexivity. Qed.

Lemma evaluate_without_test_forwards l n loss amp :
  List.filter (λ e, negb (test_forward e)) (trace (evaluate l n loss amp))
  = match l with
    | ValLoader => trace (evaluate ValLoader n loss amp)
    | _ => [ModelEval; MetricReset l]
    end.
Proof.
  rewrite !evaluate_trace, List.filter_app.
  destruct l; cbn [List.filter test_forward negb app].
  - rewrite filter_replicate_true by reflexivity. reflexivity.
  - rewrite filter_replicate_false by reflexivity. reflexivity.
  - rewrite filter_replicate_false by reflexivity. reflexivity.
Qed.

(** An epoch performs the same events, forward passes on the FUNSD and
    CORD loaders apart, whatever these two loaders are, and when it
    returns, what it returns does not depend on them. *)
Lemma epoch_body_test_loaders {ES : Type} `{!utils.EarlyStopper ES}
    (a : args) (w : world) (funsd cord : nat) (losses : loader → nat → pyfloat)
    (metrics : loader → nat → logging.summary) (epoch : nat) (st : loop_state ES) :
  List.filter (λ e, negb (test_forward e))
              (trace (epoch_body a (with_test_loaders w funsd cord losses metrics) epoch st))
  = List.filter (λ e, negb (test_forward e)) (trace (epoch_body a w epoch st)) ∧
  ∀ r r',
    result (epoch_body a (with_test_loaders w funsd cord losses metrics) epoch st)
    = Returned r' →
    result (epoch_body a w epoch st) = Returned r →
    r' = r.
Proof.
  split.
  - rewrite !epoch_body_trace. unfold epoch_passes, checkpoints.
    cbn [with_test_loaders train_loader val_loader funsd_test_loader cord_test_loader
         loss_at exp_name best_file epoch_file].
    destruct (train_loader w); [reflexivity|]. destruct (val_loader w); [reflexivity|].
    rewrite !List.filter_app, !evaluate_without_test_forwards. reflexivity.
  - intros r r'. rewrite !epoch_body_result.
    cbn [with_test_loaders train_loader val_loader loss_at].
    destruct (train_loader w); [discriminate|]. destruct (val_loader w); [discriminate|].
    destruct (epoch_log a (with_test_loaders w funsd cord losses metrics) epoch);
      [|discriminate].
    destruct (epoch_log a w epoch); [|discriminate].
    intros -> [= <-]. reflexivity.
Qed.

(** X9: the evaluations on the FUNSD and CORD test loaders are guarded by
    [try ... except Exception: pass] and their losses are dropped: two
    runs of the loop that differ only in these two loaders, empty ones
    included, and that both return, return the same state and the same
    way of leaving the loop, and perform the same events apart from the
    forward passes on these two loaders. *)
Theorem test_loaders_do_not_matter {ES : Type} `{!utils.EarlyStopper ES}
    (a : args) (w : world) (funsd cord : nat) (losses : loader → nat → pyfloat)
    (metrics : loader → nat → logging.summary)
    (l : list nat) (st : loop_state ES) (r r' : loop_state ES * control) :
  result (training_loop a (with_test_loaders w funsd cord losses metrics) l st)
  = Returned r' →
  result (training_loop a w l st) = Returned r →
  r' = r ∧
  List.filter (λ e, negb (test_forward e))
              (trace (training_loop a (with_test_loaders w funsd cord losses metrics) l st))
  = List.filter (λ e, negb (test_forward e)) (trace (training_loop a w l st)).
Proof.
  set (w' := with_test_loaders w funsd cord losses metrics).
  revert st. induction l as [|epoch l IH]; intros st.
  - cbn. intros [= <-] [= <-]. split; reflexivity.
  - cbn [training_loop]. rewrite !trace_bind, !result_bind, !List.filter_app.
    destruct (epoch_body_test_loaders a w funsd cord losses metrics epoch st)
      as [Htr Hres].
    fold w' in Htr, Hres. rewrite Htr.
    destruct (result (epoch_body a w' epoch st)) as [[st1' c1']|e'] eqn:Hbody';
      [|discriminate].
    destruct (result (epoch_body a w epoch st)) as [[st1 c1]|e] eqn:Hbody;
      [|discriminate].
    specialize (Hres _ _ eq_refl eq_refl). injection Hres as -> ->.
    destruct c1.
    + intros Hr' Hr. destruct (IH st1 Hr' Hr) as [-> ->]. split; reflexivity.
    + cbn. intros [= <-] [= <-]. split; reflexivity.
Qed.

Lemma test_loaders_do_not_matter_witness :
  result (training_loop (ES := patience_stopper) sample_args
            (with_test_loaders sample_world 0 0 (λ _ _, NaN) (λ _ _, (None, None, None)))
            (seq 0 3) (initial_state sample_args))
  = Returned ({| min_loss := Finite 2; early_stopper := None |}, Continue) ∧
  List.filter (λ e, negb (test_forward e))
    (trace (training_loop (ES := patience_stopper) sample_args
              (with_test_loaders sample_world 0 0 (λ _ _, NaN) (λ _ _, (None, None, None)))
              (seq 0 3) (initial_state sample_args)))
  = List.filter (λ e, negb (test_forward e))
      (trace (training_loop (ES := patience_stopper) sample_args sample_world (seq 0 3)
                (initial_state sample_args))).
Proof.
  split; [reflexivity|].
  apply (test_loaders_do_not_matter (ES := patience_stopper) sample_args sample_world 0 0
           (λ _ _, NaN) (λ _ _, (None, None, None)) (seq 0 3) (initial_state sample_args)
           ({| min_loss := Finite 2; early_stopper := None |}, Continue)
           ({| min_loss := Finite 2; early_stopper := None |}, Continue));
    reflexivity.
Defined.

Section Files.
Context {ES : Type} `{!utils.EarlyStopper ES}.
Variables (a : args) (w : world).

Lemma fit_one_epoch_no_save n amp file : SaveState file ∉ trace (fit_one_epoch n amp).
Proof.
  rewrite fit_one_epoch_trace. intros Hin.
  apply elem_of_app in Hin as [Hin|Hin]; [revert Hin; destruct amp; absent|].
  apply elem_of_cons in Hin as [Hin|Hin]; [discriminate|].
  apply elem_of_concat_replicate in Hin. revert Hin. destruct amp; absent.
Qed.

Lemma evaluate_no_save l n loss amp file : SaveState file ∉ trace (evaluate l n loss amp).
Proof.
  rewrite evaluate_trace. intros [Hin|Hin]%elem_of_app; [revert Hin; absent|].
  apply elem_of_replicate_inv in Hin. discriminate.
Qed.

Lemma epoch_body_saved_files epoch (st : loop_state ES) file :
  SaveState file ∈ trace (epoch_body a w epoch st) →
  file = best_file w ∨ (save_interval_epoch a = true ∧ file = epoch_file w (epoch + 1)).
Proof.
  rewrite epoch_body_trace.
  destruct (train_loader w); [intros Hin; destruct (fit_one_epoch_no_save _ _ _ Hin)|].
  destruct (val_loader w).
  { intros [Hin|Hin]%elem_of_app;
      [destruct (fit_one_epoch_no_save _ _ _ Hin)|destruct (evaluate_no_save _ _ _ _ _ Hin)]. }
  intros [Hin|Hin]%elem_of_app; [destruct (epoch_passes_no_save _ _ _ Hin)|].
  unfold checkpoints in Hin. apply elem_of_app in Hin as [Hin|Hin].
  - destruct (flt _ _); [|inversion Hin].
    apply list_elem_of_singleton in Hin. injection Hin as ->. auto.
  - destruct (save_interval_epoch a); [|inversion Hin].
    apply list_elem_of_singleton in Hin. injection Hin as ->. auto.
Qed.

Lemma training_loop_saved_files l (st : loop_state ES) file :
  SaveState file ∈ trace (training_loop a w l st) →
  file = best_file w ∨
  (save_interval_epoch a = true ∧ ∃ epoch, epoch ∈ l ∧ file = epoch_file w (epoch + 1)).
Proof.
  revert st. induction l as [|epoch l IH]; intros st; [inversion 1|].
  cbn [training_loop]. rewrite trace_bind. intros [Hin|Hin]%elem_of_app.
  - destruct (epoch_body_saved_files _ _ _ Hin) as [->|[Hint ->]]; [auto|].
    right. split; [exact Hint|]. exists epoch. split; [left|reflexivity].
  - destruct (result (epoch_body a w epoch st)) as [[st1 [|]]|e]; try (inversion Hin; fail).
    destruct (IH st1 Hin) as [->|(Hint & epoch' & Hl & ->)]; [auto|].
    right. split; [exact Hint|]. exists epoch'. split; [right; exact Hl|reflexivity].
Qed.

End Files.

(** X10: the loop writes to no other file than [./{exp_name}.pt] and,
    under [--save-interval-epoch], [./{exp_name}_epoch{k}.pt] for an epoch
    [k] between 1 and the number of epochs. *)
Theorem saved_files {ES : Type} `{!utils.EarlyStopper ES}
    (a : args) (w : world) (n : nat) (file : string) :
  SaveState file ∈ trace (run (ES := ES) a w n) →
  file = best_file w ∨
  (save_interval_epoch a = true ∧ ∃ k, 1 ≤ k ≤ n ∧ file = epoch_file w k).
Proof.
  intros Hin. unfold run in Hin.
  destruct (training_loop_saved_files a w _ _ _ Hin) as [->|(Hint & epoch & Hl & ->)];
    [auto|].
  right. split; [exact Hint|]. exists (epoch + 1). apply elem_of_seq in Hl.
  split; [lia|reflexivity].
Qed.

Lemma saved_files_witness :
  "./db_resnet50_epoch2.pt" = best_file sample_world ∨
  (save_interval_epoch stopping_args = true ∧
   ∃ k, 1 ≤ k ≤ 5 ∧ "./db_resnet50_epoch2.pt" = epoch_file sample_world k).
Proof.
  apply (saved_files (ES := patience_stopper) stopping_args sample_world 5).
  apply (bool_decide_unpack _). vm_compute. exact I.
Defined.

Lemma string_length_app s t : String.length (s +:+ t) = String.length s + String.length t.
Proof. induction s as [|c s IH]; [reflexivity|]. simpl. f_equal. exact IH. Qed.

Lemma string_app_inj_r s1 s2 t : s1 +:+ t = s2 +:+ t → s1 = s2.
Proof.
  revert s2. induction s1 as [|c s1 IH]; intros [|c' s2] Heq.
  - reflexivity.
  - apply (f_equal String.length) in Heq.
    rewrite !string_length_app in Heq. simpl in Heq. lia.
  - apply (f_equal String.length) in Heq.
    rewrite !string_length_app in Heq. simpl in Heq. lia.
  - simpl in Heq. injection Heq as -> Heq. f_equal. exact (IH _ Heq).
Qed.

(** X11: the checkpoints of two different epochs go to two different
    files, and none of them is the file of the best checkpoint: a
    per-epoch checkpoint is never overwritten by the loop. *)
Theorem checkpoint_files_distinct (w : world) (n m : nat) :
  (epoch_file w n = epoch_file w m ↔ n = m) ∧ epoch_file w n ≠ best_file w.
Proof.
  unfold epoch_file, best_file. split; [split|].
  - intros Heq. do 3 apply String.app_inj in Heq.
    apply string_app_inj_r in Heq. exact (pretty_nat_inj _ _ Heq).
  - intros ->. reflexivity.
  - intros Heq. do 2 apply String.app_inj in Heq. discriminate.
Qed.

Section Stopping.
Context {ES : Type} `{!utils.EarlyStopper ES}.
Variables (a : args) (w : world).

Lemma loop_control_with_stopper l (st st' : loop_state ES) s c :
  early_stop a = true → early_stopper st = Some s →
  result (training_loop a w l st) = Returned (st', c) →
  (c = Break ↔ true ∈ answers s (loss_at w ValLoader <$> l)) ∧
  early_stopper st'
  = Some (foldl (λ s0 x, (utils.early_stop s0 x).2) s
                (take (epochs_until_halt (answers s (loss_at w ValLoader <$> l)))
                      (loss_at w ValLoader <$> l))).
Proof.
  intros Hon. revert st s. induction l as [|epoch l IH]; intros st s Hs.
  - cbn. intros [= <- <-]. split; [|exact Hs].
    split; [discriminate|inversion 1].
  - cbn [training_loop fmap list_fmap answers]. rewrite result_bind, epoch_body_result.
    destruct (train_loader w); [discriminate|]. destruct (val_loader w); [discriminate|].
    destruct (epoch_log a w epoch); [|discriminate].
    rewrite Hon, Hs. cbn zeta.
    destruct (utils.early_stop s (loss_at w ValLoader epoch)) as [[|] s'] eqn:Hstep;
      cbn [fst snd epochs_until_halt take foldl].
    + cbn. intros [= <- <-]. rewrite ?Hstep. cbn [snd].
      split; [|reflexivity]. split; [intros _; left|reflexivity].
    + intros Hrest. apply (IH _ s') in Hrest as [Hc Hs']; [|reflexivity].
      rewrite ?Hstep. cbn [snd]. split; [|exact Hs'].
      rewrite Hc. split; [intros Hin; right; exact Hin|].
      intros [Hin|Hin]%elem_of_cons; [discriminate|exact Hin].
Qed.

Lemma loop_control_without_stopper l (st st' : loop_state ES) c :
  early_stop a = false →
  result (training_loop a w l st) = Returned (st', c) → c = Continue.
Proof.
  intros Hoff. revert st. induction l as [|epoch l IH]; intros st.
  - cbn. intros [= _ <-]. reflexivity.
  - cbn [training_loop]. rewrite result_bind, epoch_body_result.
    destruct (train_loader w); [discriminate|]. destruct (val_loader w); [discriminate|].
    destruct (epoch_log a w epoch); [|discriminate].
    rewrite Hoff. cbn zeta. apply IH.
Qed.

End Stopping.

(** X12: a run of the loop on non-empty loaders that returns has left the
    loop by [break] exactly when early stopping is enabled and the stopper
    answered positively on the validation loss of one of the epochs; with
    early stopping enabled the stopper has been asked once per epoch
    performed, with the validation losses in order. *)
Theorem loop_breaks_iff {ES : Type} `{!utils.EarlyStopper ES} (a : args) (w : world)
    (st : loop_state ES) (c : control) :
  0 < train_loader w → 0 < val_loader w →
  result (run a w (epochs a)) = Returned (st, c) →
  (c = Break
   ↔ early_stop a = true ∧
     true ∈ answers (utils.new (early_stop_epochs a) (early_stop_delta a) : ES)
                    (val_losses w (epochs a))) ∧
  (early_stop a = true →
   early_stopper st
   = Some (foldl (λ s x, (utils.early_stop s x).2)
                 (utils.new (early_stop_epochs a) (early_stop_delta a) : ES)
                 (val_losses w (epochs_expected (ES := ES) a w)))).
Proof.
  intros _ _ Hres. unfold run in Hres. destruct (early_stop a) eqn:Hon.
  - destruct (loop_control_with_stopper a w (seq 0 (epochs a)) (initial_state a) st
                (utils.new (early_stop_epochs a) (early_stop_delta a)) c Hon)
      as [Hc Hs]; [unfold initial_state; rewrite Hon; reflexivity|exact Hres|].
    fold (val_losses w (epochs a)) in Hc, Hs. split.
    + rewrite Hc. split; [auto|intros [_ Hin]; exact Hin].
    + intros _. rewrite Hs.
      unfold epochs_expected. rewrite Hon. f_equal. f_equal.
      unfold val_losses. rewrite <- fmap_take, take_seq. f_equal. f_equal.
      pose proof (epochs_until_halt_le
                    (answers (utils.new (early_stop_epochs a) (early_stop_delta a) : ES)
                             (loss_at w ValLoader <$> seq 0 (epochs a)))) as Hle.
      rewrite answers_length, length_fmap, length_seq in Hle. lia.
  - rewrite (loop_control_without_stopper a w _ _ _ _ Hon Hres).
    split; [|discriminate]. split; [discriminate|intros [[=] _]].
Qed.

Lemma loop_breaks_iff_witness :
  early_stop stopping_args = true ∧
  true ∈ answers (utils.new 1 (Finite 0) : patience_stopper) (val_losses sample_world 5).
Proof.
  apply (loop_breaks_iff (ES := patience_stopper) stopping_args sample_world
           {| min_loss := Finite 2;
              early_stopper := Some {| patience := 1; counter := 1; best := Finite 2 |} |}
           Break).
  - cbn. lia.
  - cbn. lia.
  - reflexivity.
  - reflexivity.
Defined.

Lemma occurrences_scaler_epoch a w :
  occurrences NewGradScaler (epoch_passes a w) = if amp a then 1 else 0.
Proof.
  unfold epoch_passes. rewrite fit_one_epoch_trace, !evaluate_trace.
  change (ModelTrain :: concat (replicate (train_loader w) (iteration (amp a))))
    with ([ModelTrain] ++ concat (replicate (train_loader w) (iteration (amp a)))).
  rewrite !occurrences_app, occurrences_concat_replicate.
  rewrite !occurrences_replicate_ne by discriminate.
  replace (occurrences NewGradScaler (iteration (amp a))) with 0
    by (destruct (amp a); reflexivity).
  destruct (amp a);
    [replace (occurrences NewGradScaler [NewGradScaler]) with 1 by reflexivity|];
    rewrite !(proj2 (occurrences_zero NewGradScaler _)) by absent; lia.
Qed.

(** X13: under [--amp] a new gradient scaler is created at the start of
    every epoch ([fit_one_epoch] builds its own), so that a run that goes
    through [n] epochs creates [n] of them; without [--amp] none is. *)
Theorem scaler_per_epoch {ES : Type} `{!utils.EarlyStopper ES}
    (a : args) (w : world) (n : nat) (st : loop_state ES) :
  result (run a w n) = Returned (st, Continue) →
  occurrences NewGradScaler (trace (run (ES := ES) a w n)) = if amp a then n else 0.
Proof.
  unfold run. intros Hres.
  assert (Hlen : ∀ l (st0 : loop_state ES),
            result (training_loop a w l st0) = Returned (st, Continue) →
            occurrences NewGradScaler (trace (training_loop a w l st0))
            = length l * if amp a then 1 else 0).
  { clear Hres. intros l. induction l as [|epoch l IH]; intros st0; [reflexivity|].
    cbn [training_loop length]. rewrite trace_bind, result_bind.
    destruct (result (epoch_body a w epoch st0)) as [[st1 [|]]|e] eqn:Hbody;
      [|discriminate..].
    intros Hrest. rewrite occurrences_app, (IH _ Hrest).
    rewrite (epoch_body_trace_returned a w epoch st0 _ Hbody).
    rewrite occurrences_app, occurrences_scaler_epoch.
    replace (occurrences NewGradScaler (checkpoints a w epoch (loss_at w ValLoader epoch)
                                                    (min_loss st0))) with 0; [lia|].
    unfold checkpoints. destruct (flt _ _), (save_interval_epoch a); reflexivity. }
  rewrite (Hlen _ _ Hres), length_seq. destruct (amp a); lia.
Qed.

Lemma scaler_per_epoch_witness :
  occurrences NewGradScaler (trace (run (ES := patience_stopper) sample_args sample_world 3))
  = 3.
Proof.
  exact (scaler_per_epoch (ES := patience_stopper) sample_args sample_world 3
           {| min_loss := Finite 2; early_stopper := None |} eq_refl).
Defined.

(** ** Whole runs of [main] *)

Section Everywhere.
Context {ES : Type} `{!utils.EarlyStopper ES}.
Variables (a : args) (w : world) (Pe : event → Prop).
Hypothesis Pe_fit : ∀ n, Forall Pe (trace (fit_one_epoch n (amp a))).
Hypothesis Pe_evaluate : ∀ l n loss, Forall Pe (trace (evaluate l n loss (amp a))).
Hypothesis Pe_save : ∀ file, Pe (SaveState file).

Lemma everywhere_epoch_body epoch (st : loop_state ES) :
  Forall Pe (trace (epoch_body a w epoch st)).
Proof.
  rewrite epoch_body_trace. unfold epoch_passes, checkpoints.
  destruct (train_loader w); [apply Pe_fit|].
  destruct (val_loader w); rewrite !Forall_app; repeat split;
    try apply Pe_fit; try apply Pe_evaluate.
  - destruct (flt _ _); repeat constructor. apply Pe_save.
  - destruct (save_interval_epoch a); repeat constructor. apply Pe_save.
Qed.

Lemma everywhere_training_loop l (st : loop_state ES) :
  Forall Pe (trace (training_loop a w l st)).
Proof.
  revert st. induction l as [|epoch l IH]; intros st; [constructor|].
  cbn [training_loop]. rewrite trace_bind. apply Forall_app.
  split; [apply everywhere_epoch_body|].
  destruct (result (epoch_body a w epoch st)) as [[st1 [|]]|e]; auto; constructor.
Qed.

End Everywhere.

Lemma record_lr_everywhere (Pe : event → Prop) n losses num_it amp :
  Pe ModelTrain → Pe NewMultiplicativeLR → (amp = true → Pe NewGradScaler) →
  Forall Pe (iteration amp) →
  Forall Pe (trace (record_lr n losses num_it amp)).
Proof.
  intros Ht Hm Hs Hi.
  destruct (Z_lt_le_dec (Z.of_nat n) num_it) as [Hlt|Hle].
  { rewrite (record_lr_few_batches _ _ _ _ Hlt). constructor. }
  destruct (Z.eq_dec num_it 1%Z) as [H1|H1].
  { rewrite (record_lr_one_iteration _ _ _ _ Hle H1). repeat constructor. exact Ht. }
  destruct (record_lr_started n losses num_it amp Hle H1) as [-> _].
  destruct (record_lr_batches_trace amp num_it losses n 0 []) as (k & _ & ->).
  rewrite !Forall_app. repeat split.
  - repeat constructor; assumption.
  - destruct amp; repeat constructor. auto.
  - apply Forall_iterations, Hi.
Qed.

Lemma fit_one_epoch_everywhere (Pe : event → Prop) n amp :
  Pe ModelTrain → (amp = true → Pe NewGradScaler) → Forall Pe (iteration amp) →
  Forall Pe (trace (fit_one_epoch n amp)).
Proof.
  intros Ht Hs Hi. rewrite fit_one_epoch_trace. apply Forall_app. split.
  - destruct amp; repeat constructor. auto.
  - constructor; [exact Ht|]. apply Forall_iterations, Hi.
Qed.

Lemma evaluate_everywhere (Pe : event → Prop) l n loss amp :
  Pe ModelEval → Pe (MetricReset l) → Pe (EvalForward l amp) →
  Forall Pe (trace (evaluate l n loss amp)).
Proof.
  intros He Hr Hf. rewrite evaluate_trace. apply Forall_app. split.
  - repeat constructor; assumption.
  - apply Forall_replicate, Hf.
Qed.

Lemma main_trace {ES : Type} `{!utils.EarlyStopper ES} (a : args) (w : world) :
  trace (main (ES := ES) a w)
  = if test_only a then trace (evaluate ValLoader (val_loader w) (loss_at w ValLoader 0) (amp a))
    else if show_samples a then []
    else if find_lr a then trace (record_lr (train_loader w) (train_loss_at w) 100 (amp a))
    else NewScheduler (sched a) (epochs a * train_loader w)
         :: trace (run (ES := ES) a w (epochs a)).
Proof.
  unfold main. destruct (test_only a).
  { rewrite trace_bind, trace_render. destruct (result _); apply app_nil_r. }
  destruct (show_samples a); [destruct (train_loader w =? 0); reflexivity|].
  destruct (find_lr a).
  { rewrite trace_bind. destruct (result _); cbn; apply app_nil_r. }
  rewrite trace_bind. unfold train at 1. rewrite trace_bind.
  replace (trace match sched a with
                 | Cosine => emit (NewScheduler Cosine (epochs a * train_loader w))
                 | OneCycle => emit (NewScheduler OneCycle (epochs a * train_loader w))
                 | Poly => emit (NewScheduler Poly (epochs a * train_loader w))
                 end) with [NewScheduler (sched a) (epochs a * train_loader w)]
    by (destruct (sched a); reflexivity).
  replace (result match sched a with
                  | Cosine => emit (NewScheduler Cosine (epochs a * train_loader w))
                  | OneCycle => emit (NewScheduler OneCycle (epochs a * train_loader w))
                  | Poly => emit (NewScheduler Poly (epochs a * train_loader w))
                  end) with (Returned tt) by (destruct (sched a); reflexivity).
  fold (run (ES := ES) a w (epochs a)).
  destruct (result (train a w)); cbn; rewrite app_nil_r; reflexivity.
Qed.

(** X14: without [--amp], whatever the mode, [main] never builds a
    gradient scaler, never scales or unscales and never runs a forward
    pass under autocast. *)
Theorem no_mixed_precision_without_amp {ES : Type} `{!utils.EarlyStopper ES}
    (a : args) (w : world) :
  amp a = false →
  Forall (λ e, amp_event e = false) (trace (main (ES := ES) a w)).
Proof.
  intros Hamp. rewrite main_trace, Hamp.
  assert (Hi : Forall (λ e, amp_event e = false) (iteration false)).
  { rewrite iteration_events. repeat constructor. }
  destruct (test_only a).
  { apply evaluate_everywhere; reflexivity. }
  destruct (show_samples a); [constructor|].
  destruct (find_lr a).
  { apply record_lr_everywhere; try reflexivity; [discriminate|exact Hi]. }
  constructor; [reflexivity|]. unfold run.
  apply everywhere_training_loop; rewrite ?Hamp.
  - intros n. apply fit_one_epoch_everywhere; try reflexivity; [discriminate|exact Hi].
  - intros l n loss. apply evaluate_everywhere; destruct l; reflexivity.
  - reflexivity.
Qed.

Lemma no_mixed_precision_without_amp_witness :
  Forall (λ e, amp_event e = false)
         (trace (main (ES := patience_stopper) stopping_args sample_world)).
Proof.
  exact (no_mixed_precision_without_amp (ES := patience_stopper) stopping_args sample_world
           eq_refl).
Defined.

(** X15: with [--test-only], [--show-samples] or [--find-lr], [main]
    returns before the training loop: it builds none of the three
    schedulers and writes no checkpoint, and in the first two modes it does
    not run a single training iteration. *)
Theorem main_without_training {ES : Type} `{!utils.EarlyStopper ES}
    (a : args) (w : world) :
  test_only a = true ∨ show_samples a = true ∨ find_lr a = true →
  ¬ saves (trace (main (ES := ES) a w)) ∧
  (∀ k total, NewScheduler k total ∉ trace (main (ES := ES) a w)) ∧
  (test_only a = true ∨ show_samples a = true →
   Forall (λ e, training_event e = false) (trace (main (ES := ES) a w))).
Proof.
  intros Hmode.
  assert (Hall : Forall (λ e, is_save e = false ∧ ∀ k total, e ≠ NewScheduler k total)
                        (trace (main (ES := ES) a w))).
  { rewrite main_trace. destruct (test_only a).
    { apply evaluate_everywhere; split; (reflexivity || discriminate). }
    destruct (show_samples a); [constructor|].
    destruct (find_lr a); [|destruct Hmode as [|[|]]; discriminate].
    apply record_lr_everywhere; try (split; (reflexivity || discriminate)).
    rewrite iteration_events.
    destruct (amp a); repeat constructor; discriminate. }
  rewrite Forall_forall in Hall. split; [|split].
  - intros [file Hin]. destruct (Hall _ Hin) as [Hs _]. discriminate.
  - intros k total Hin. destruct (Hall _ Hin) as [_ Hk]. exact (Hk k total eq_refl).
  - intros Hmode'. rewrite main_trace. destruct (test_only a).
    { apply evaluate_everywhere; reflexivity. }
    destruct (show_samples a); [constructor|]. destruct Hmode'; discriminate.
Qed.

Lemma main_without_training_witness :
  ¬ saves (trace (main (ES := patience_stopper)
                    {| epochs := 3; amp := false; sched := Poly; save_interval_epoch := true;
                       early_stop := false; early_stop_epochs := 1;
                       early_stop_delta := Finite 0; test_only := true;
                       show_samples := false; find_lr := false |} sample_world)).
Proof.
  apply (main_without_training (ES := patience_stopper)
           {| epochs := 3; amp := false; sched := Poly; save_interval_epoch := true;
              early_stop := false; early_stop_epochs := 1;
              early_stop_delta := Finite 0; test_only := true;
              show_samples := false; find_lr := false |} sample_world).
  left. reflexivity.
Defined.

(** X16: in a training run and in the learning-rate search alike, every
    forward pass comes right after [optimizer.zero_grad()] and is directly
    followed by its backward pass: gradients never add up across batches. *)
Theorem gradients_reset_before_forward {ES : Type} `{!utils.EarlyStopper ES}
    (a : args) (w : world) (n : nat) (losses : nat → pyfloat) (num_it : Z) (amp' : bool) :
  framed [ZeroGrad] (Forward (amp a)) [Backward (amp a)] (trace (train (ES := ES) a w)) ∧
  framed [ZeroGrad] (Forward amp') [Backward amp'] (trace (record_lr n losses num_it amp')).
Proof.
  assert (Hi : ∀ b, framed [ZeroGrad] (Forward b) [Backward b] (iteration b)).
  { intros b. rewrite iteration_events. destruct b.
    - apply (framed_once (Forward true) [ZeroGrad] [Backward true] []
               [Unscale; ClipGradNorm 5; ScalerStep; ScalerUpdate; SchedulerStep]); absent.
    - apply (framed_once (Forward false) [ZeroGrad] [Backward false] []
               [ClipGradNorm 5; OptimizerStep; SchedulerStep]); absent. }
  split.
  - assert (Hsched : train (ES := ES) a w
                     = (emit (NewScheduler (sched a) (epochs a * train_loader w));;
                        training_loop a w (seq 0 (epochs a)) (initial_state a))).
    { unfold train. destruct (sched a); reflexivity. }
    rewrite Hsched, trace_bind. cbn [result snd emit trace fst].
    apply framed_app.
    + apply framed_absent. intros Hin%list_elem_of_singleton. discriminate.
    + apply (shape_training_loop a w (framed [ZeroGrad] (Forward (amp a)) [Backward (amp a)])).
      * apply framed_absent. inversion 1.
      * intros t1 t2. apply framed_app.
      * apply Hi.
      * intros e He. apply framed_absent, (bookkeeping_ne _ _ He). exact id.
  - destruct (record_lr_trace n losses num_it amp') as (header & k & -> & Hh).
    apply framed_app.
    + apply framed_absent, (setup_not_update _ _ Hh). not_setup.
    + apply framed_concat_replicate, Hi.
Qed.

(** ** The set-up of [main] *)

(** X17: the block [# GPU] of [main].  The model stays on the CPU only
    when no device was asked and CUDA is unavailable; it is moved to a GPU
    only when CUDA is available, to the device asked, whose index is then
    below the device count, or to device 0 by default, which is not checked
    against the device count; a device asked without CUDA is an
    [AssertionError], never a silent fall back to the CPU, and an index at
    or past the device count is the [ValueError]. *)
Theorem device_selection (device : option Z) (cuda_available : bool) (device_count : Z) :
  (setup.select_device device cuda_available device_count = inr setup.Cpu
   ↔ device = None ∧ cuda_available = false) ∧
  (∀ d, setup.select_device device cuda_available device_count = inr (setup.Cuda d)
        ↔ cuda_available = true ∧
          (device = Some d ∧ (d < device_count)%Z ∨ device = None ∧ d = 0%Z)) ∧
  (setup.select_device device cuda_available device_count = inl setup.AssertionError
   ↔ is_Some device ∧ cuda_available = false) ∧
  (setup.select_device device cuda_available device_count = inl setup.InvalidDeviceIndex
   ↔ ∃ d, device = Some d ∧ cuda_available = true ∧ (device_count <= d)%Z).
Proof.
  unfold setup.select_device.
  destruct device as [d0|], cuda_available; cbn [negb];
    try destruct (Z.leb_spec device_count d0);
    (split; [|split; [intros d|split]]); split;
    try solve [ discriminate
              | intros [[=] _] | intros [_ [=]]
              | intros [_ [[[=] _]|[[=] _]]]
              | intros [[x [=]] _]
              | intros (x & [=] & _)
              | intros (x & _ & [=] & _)
              | intros; split; [eauto|reflexivity]
              | intros; split; reflexivity ].
  all: try solve [ intros [= <-]; split; [reflexivity|]; auto
                 | intros [_ [[[= ->] ?]|[[=] _]]]; try reflexivity; lia
                 | intros (x & [= <-] & _ & ?); lia
                 | intros _; eauto
                 | intros [_ [[[=] _]|[_ ->]]]; reflexivity ].
Qed.

(** X18: the metrics use broadcasting exactly from 63 GiB of available
    memory on: the comparison [> 62] is made on whole gibibytes, so 62 GiB
    and a fraction are not enough. *)
Theorem use_broadcasting_threshold (available : Z) :
  setup.use_broadcasting available = true ↔ (63 * 1024 ^ 3 <= available)%Z.
Proof.
  unfold setup.use_broadcasting, setup.system_available_memory.
  change (1024 ^ 3)%Z with 1073741824%Z.
  rewrite Z.ltb_lt.
  destruct (Z.le_gt_cases 0 available) as [Hpos|Hneg].
  - rewrite Z.quot_div_nonneg by lia.
    pose proof (Z.div_mod available 1073741824).
    pose proof (Z.mod_pos_bound available 1073741824). lia.
  - pose proof (Z.quot_opp_l available 1073741824).
    pose proof (Z.quot_pos (- available) 1073741824). lia.
Qed.

(** X19: the sample transforms of the validation and test sets.  Whatever
    the flags, exactly one of the two conditional lists is used, and the
    last transform resizes and pads to the square input size; the random
    rotation is part of the pipeline exactly when the sets and the metrics
    use polygons; and the training set has the pipeline of an evaluation
    set without [--eval-straight]. *)
Theorem sample_transforms_shape (rotation eval_straight : bool) (input_size : nat) :
  last (setup.eval_sample_transforms rotation eval_straight input_size)
  = Some (setup.ResizePad input_size) ∧
  (setup.RandomRotate ∈ setup.eval_sample_transforms rotation eval_straight input_size
   ↔ setup.use_polygons rotation eval_straight = true) ∧
  length (setup.eval_sample_transforms rotation eval_straight input_size)
  = (if setup.use_polygons rotation eval_straight then 3 else 1) ∧
  setup.train_sample_transforms rotation input_size
  = setup.eval_sample_transforms rotation false input_size.
Proof.
  destruct rotation, eval_straight; cbn; (split; [reflexivity|]);
    (split; [|split; reflexivity]); split; try discriminate; try reflexivity.
  all: try (intros _; do 1 right; left).
  all: intros Hin; repeat (apply elem_of_cons in Hin as [[=]|Hin]); inversion Hin.
Qed.

Lemma Qmin_cases (x y : Q) : Qmin x y = x ∨ Qmin x y = y.
Proof. unfold Qmin, GenericMinMax.gmin. destruct (x ?= y)%Q; auto. Qed.

Lemma Qmax_cases (x y : Q) : Qmax x y = x ∨ Qmax x y = y.
Proof. unfold Qmax, GenericMinMax.gmax. destruct (x ?= y)%Q; auto. Qed.

Lemma Qmin4_spec (a b c d : Q) :
  let m := Qmin (Qmin (Qmin a b) c) d in
  ((m <= a)%Q ∧ (m <= b)%Q ∧ (m <= c)%Q ∧ (m <= d)%Q) ∧ m ∈ [a; b; c; d].
Proof.
  intros m. subst m. split.
  - pose proof (Q.le_min_l (Qmin (Qmin a b) c) d).
    pose proof (Q.le_min_r (Qmin (Qmin a b) c) d).
    pose proof (Q.le_min_l (Qmin a b) c).
    pose proof (Q.le_min_r (Qmin a b) c).
    pose proof (Q.le_min_l a b).
    pose proof (Q.le_min_r a b).
    repeat split; eauto using Qle_trans.
  - destruct (Qmin_cases (Qmin (Qmin a b) c) d) as [->| ->];
      [destruct (Qmin_cases (Qmin a b) c) as [->| ->];
         [destruct (Qmin_cases a b) as [->| ->]|]|];
      set_solver.
Qed.

Lemma Qmax4_spec (a b c d : Q) :
  let m := Qmax (Qmax (Qmax a b) c) d in
  ((a <= m)%Q ∧ (b <= m)%Q ∧ (c <= m)%Q ∧ (d <= m)%Q) ∧ m ∈ [a; b; c; d].
Proof.
  intros m. subst m. split.
  - pose proof (Q.le_max_l (Qmax (Qmax a b) c) d).
    pose proof (Q.le_max_r (Qmax (Qmax a b) c) d).
    pose proof (Q.le_max_l (Qmax a b) c).
    pose proof (Q.le_max_r (Qmax a b) c).
    pose proof (Q.le_max_l a b).
    pose proof (Q.le_max_r a b).
    repeat split; eauto using Qle_trans.
  - destruct (Qmax_cases (Qmax (Qmax a b) c) d) as [->| ->];
      [destruct (Qmax_cases (Qmax a b) c) as [->| ->];
         [destruct (Qmax_cases a b) as [->| ->]|]|];
      set_solver.
Qed.

(** X20: the conversion of a predicted polygon in [evaluate] gives a row
    (xmin, ymin, xmax, ymax) that encloses the four points of the polygon
    and is tight: each of its bounds is a coordinate of one of the
    points. *)
Theorem bounding_box_encloses (p : setup.quad) :
  ∃ xmin ymin xmax ymax,
    setup.bounding_box p = [xmin; ymin; xmax; ymax] ∧
    (∀ pt, pt ∈ setup.points p →
           (xmin <= pt.1)%Q ∧ (pt.1 <= xmax)%Q ∧ (ymin <= pt.2)%Q ∧ (pt.2 <= ymax)%Q) ∧
    xmin ∈ (setup.points p).*1 ∧ xmax ∈ (setup.points p).*1 ∧
    ymin ∈ (setup.points p).*2 ∧ ymax ∈ (setup.points p).*2.
Proof.
  destruct p as [[[[x1 y1] [x2 y2]] [x3 y3]] [x4 y4]].
  eexists _, _, _, _. split; [reflexivity|].
  destruct (Qmin4_spec x1 x2 x3 x4) as [(? & ? & ? & ?) ?].
  destruct (Qmin4_spec y1 y2 y3 y4) as [(? & ? & ? & ?) ?].
  destruct (Qmax4_spec x1 x2 x3 x4) as [(? & ? & ? & ?) ?].
  destruct (Qmax4_spec y1 y2 y3 y4) as [(? & ? & ? & ?) ?].
  split; [|cbn; auto].
  intros pt Hin. cbn in Hin.
  repeat (apply elem_of_cons in Hin as [->|Hin]); [..|inversion Hin]; cbn; auto.
Qed.

(** X21: with the model that [main] builds ([assume_straight_pages=not
    args.rotation]), the predictions that [evaluate] gives to the metric
    have the format the metric was built for: polygons, unchanged, exactly
    when [use_polygons] holds, and otherwise rows of at most 4 values,
    which under [--rotation] are the bounding boxes of the predicted
    polygons, left whole by the slice [[:, :4]]. *)
Theorem metric_preds_format (rotation eval_straight : bool)
    (boxes_pred : setup.predictions) :
  setup.polygon_predictions rotation boxes_pred →
  match setup.metric_preds rotation eval_straight boxes_pred with
  | Some (setup.Polygons polys) =>
      setup.use_polygons rotation eval_straight = true ∧ boxes_pred = setup.Polygons polys
  | Some (setup.StraightBoxes rows) =>
      setup.use_polygons rotation eval_straight = false ∧
      Forall (λ row, length row ≤ 4) rows ∧
      (rotation = true →
       ∃ polys, boxes_pred = setup.Polygons polys ∧ rows = setup.bounding_box <$> polys)
  | None => False
  end.
Proof.
  unfold setup.polygon_predictions, setup.metric_preds, setup.use_polygons.
  destruct boxes_pred as [rows|polys]; intros ->; destruct eval_straight; cbn.
  1,2: split; [reflexivity|]; split; [|discriminate];
       apply Forall_fmap, Forall_true; intros row; cbn; rewrite length_take; lia.
  - split; [reflexivity|]. split.
    + apply Forall_fmap, Forall_fmap, Forall_true.
      intros [[[[x1 y1] [x2 y2]] [x3 y3]] [x4 y4]]. cbn. lia.
    + intros _. exists polys. split; [reflexivity|].
      rewrite <- list_fmap_compose. apply list_fmap_ext.
      intros _ [[[[x1 y1] [x2 y2]] [x3 y3]] [x4 y4]] _. reflexivity.
  - split; reflexivity.
Qed.

Lemma metric_preds_format_witness :
  setup.use_polygons true true = false ∧
  Forall (λ row, length row ≤ 4) [[0; 0; 1; 1]%Q] ∧
  (true = true →
   ∃ polys, setup.Polygons [((0, 0), (1, 0), (1, 1), (0, 1))%Q] = setup.Polygons polys ∧
            [[0; 0; 1; 1]%Q] = setup.bounding_box <$> polys).
Proof.
  apply (metric_preds_format true true (setup.Polygons [((0, 0), (1, 0), (1, 1), (0, 1))%Q])).
  reflexivity.
Defined.

(** ** The dataset tests *)

Lemma forallb_Forall {A : Type} (f : A → bool) (l : list A) :
  forallb f l = true ↔ Forall (λ x, f x = true) l.
Proof.
  induction l as [|x l IH]; cbn.
  - split; auto.
  - rewrite andb_true_iff, IH, Forall_cons. reflexivity.
Qed.

Lemma in_unit_interval_spec (x : Q) :
  in_unit_interval x = true ↔ (0 <= x)%Q ∧ (x <= 1)%Q.
Proof. unfold in_unit_interval. rewrite andb_true_iff, !Qle_bool_iff. reflexivity. Qed.

(** X22: the assertions of [_validate_dataset] on the target hold exactly
    for a mapping of boxes and labels in which, when coordinates are
    relative, the first four values of every box lie between 0 and 1, the
    labels are class indices or strings as [class_indices] says, and there
    are as many labels as boxes. *)
Theorem validated_target (relative_coords class_indices : bool) (t : target) :
  validate_target relative_coords class_indices t = None ↔
  ∃ boxes lbls,
    t = DictTarget boxes lbls ∧
    (relative_coords = true →
     Forall (λ row, Forall (λ x, (0 <= x)%Q ∧ (x <= 1)%Q) (take 4 row)) boxes) ∧
    (if class_indices then ∃ l, lbls = ClassIndices l else ∃ l, lbls = Texts l) ∧
    counts_agree t.
Proof.
  assert (Hboxes : ∀ boxes,
            forallb (λ row, forallb in_unit_interval (take 4 row)) boxes = true
            ↔ Forall (λ row, Forall (λ x, (0 <= x)%Q ∧ (x <= 1)%Q) (take 4 row)) boxes).
  { intros boxes. rewrite forallb_Forall. apply Forall_iff. intros row.
    rewrite forallb_Forall. apply Forall_iff. intros x. apply in_unit_interval_spec. }
  unfold validate_target, counts_agree. split.
  - destruct t as [boxes|label|boxes lbls]; try discriminate.
    destruct (relative_coords && _) eqn:Hrel; [discriminate|].
    intros Hcheck. exists boxes, lbls. split; [reflexivity|]. split.
    + intros ->. cbn in Hrel. apply negb_false_iff in Hrel. apply Hboxes, Hrel.
    + destruct class_indices, lbls as [l|l]; try discriminate Hcheck;
        (destruct (length l =? length boxes) eqn:Hlen; [|discriminate Hcheck]);
        apply Nat.eqb_eq in Hlen; (split; [eauto|]);
        exists (length boxes); cbn; rewrite Hlen; auto.
  - intros (boxes & lbls & -> & Hrel & Hkind & n & Hb & Hl). cbn in Hb, Hl.
    replace (relative_coords && _) with false.
    + destruct class_indices, Hkind as [l ->]; cbn in Hl;
        injection Hb as <-; injection Hl as ->; rewrite Nat.eqb_refl; reflexivity.
    + symmetry. destruct relative_coords; [|reflexivity]. cbn.
      apply negb_false_iff, Hboxes, Hrel. reflexivity.
Qed.

(** X23: the block [# File existence check] of the dataset tests, on a
    dataset with a first entry.  It passes exactly when the image of the
    first entry is in the folder and the constructor, called while the
    image is moved away, raises [FileNotFoundError]; moving the image back
    never fails.  When it passes, every path but [tmp_file] is as before,
    and the folder is as before exactly when there was no [tmp_file] in
    it (or the image is [tmp_file] itself): a [tmp_file] that was there is
    lost. *)
Theorem file_existence_check_restores (construct : filesystem → outcome dataset)
    (fs fs' : filesystem) (ds : dataset) (img_name : string) (t : target) :
  data ds !! 0 = Some (img_name, t) →
  (tests.file_existence_check construct fs ds = (tests.Passed, fs')
   ↔ ∃ file,
       fs !! path_join (root ds) img_name = Some file ∧
       construct (<[path_join (root ds) "tmp_file" := file]>
                    (delete (path_join (root ds) img_name) fs))
       = Raised FileNotFoundError ∧
       fs' = <[path_join (root ds) img_name := file]>
               (delete (path_join (root ds) "tmp_file") fs)) ∧
  (tests.file_existence_check construct fs ds = (tests.Passed, fs') →
   (∀ p, p ≠ path_join (root ds) "tmp_file" → fs' !! p = fs !! p) ∧
   (fs' = fs ↔ fs !! path_join (root ds) "tmp_file" = None
              ∨ path_join (root ds) img_name = path_join (root ds) "tmp_file")).
Proof.
  intros Hdata. unfold filesystem in *.
  set (img := path_join (root ds) img_name). set (tmp := path_join (root ds) "tmp_file").
  assert (Hback : ∀ file, delete tmp (<[tmp := file]> (delete img fs)) !! tmp = None
                  ∧ <[img := file]> (delete tmp (<[tmp := file]> (delete img fs)))
                    = <[img := file]> (delete tmp fs)).
  { intros file. split; [apply lookup_delete_eq|].
    rewrite delete_insert_eq, (delete_delete _ tmp img), insert_delete_eq. reflexivity. }
  assert (Hiff : tests.file_existence_check construct fs ds = (tests.Passed, fs')
                 ↔ ∃ file, fs !! img = Some file
                     ∧ construct (<[tmp := file]> (delete img fs)) = Raised FileNotFoundError
                     ∧ fs' = <[img := file]> (delete tmp fs)).
  { unfold tests.file_existence_check, tests.move, filesystem. rewrite Hdata. cbv zeta.
    change (path_join (root ds) img_name) with img.
    change (path_join (root ds) "tmp_file") with tmp.
    destruct (fs !! img) as [file|] eqn:Himg.
    - destruct (construct (<[tmp := file]> (delete img fs))) as [ds'|e] eqn:Hc.
      + split; [discriminate|]. intros (file' & [= <-] & Hc' & _). congruence.
      + destruct e;
          try (split; [discriminate|]; intros (file' & [= <-] & Hc' & _); congruence).
        rewrite lookup_insert_eq. rewrite (proj2 (Hback file)). split.
        * intros [= <-]. eauto.
        * intros (file' & [= <-] & _ & ->). reflexivity.
    - split; [discriminate|]. intros (file' & [=] & _). }
  split; [exact Hiff|].
  intros (file & Himg & _ & ->)%Hiff. split.
  - intros p Hp. destruct (decide (p = img)) as [->|Hne].
    + rewrite lookup_insert_eq. symmetry. exact Himg.
    + rewrite lookup_insert_ne by congruence. apply lookup_delete_ne. congruence.
  - split.
    + intros Heq. destruct (decide (img = tmp)) as [|Hne]; [right; assumption|left].
      rewrite <- Heq. rewrite lookup_insert_ne by exact Hne. apply lookup_delete_eq.
    + intros [Hnone| Heq].
      * rewrite delete_id by exact Hnone. apply insert_id, Himg.
      * rewrite <- Heq. rewrite insert_delete_eq. apply insert_id, Himg.
Qed.

Lemma file_existence_check_restores_witness :
  tests.file_existence_check
    (λ fs, new (G := flat_geometry) DetectionDataset fs "imgs" sample_polygons false id)
    sample_fs
    {| root := "imgs"; data := [("a.jpg", ArrayTarget [[0; 0; 1; 1]%Q])];
       img_transforms := id |}
  = (tests.Passed, sample_fs) ∧
  (sample_fs = sample_fs
   ↔ sample_fs !! "imgs/tmp_file" = None ∨ "imgs/a.jpg" = "imgs/tmp_file").
Proof.
  split; [vm_compute; reflexivity|].
  apply (file_existence_check_restores
           (λ fs, new (G := flat_geometry) DetectionDataset fs "imgs" sample_polygons false id)
           sample_fs sample_fs
           {| root := "imgs"; data := [("a.jpg", ArrayTarget [[0; 0; 1; 1]%Q])];
              img_transforms := id |}
           "a.jpg" (ArrayTarget [[0; 0; 1; 1]%Q])).
  - reflexivity.
  - vm_compute. reflexivity.
Defined.

Lemma new_accepted {G : Geometry} c fs folder f rotated_bbox transforms ds :
  new c fs folder f rotated_bbox transforms = Returned ds →
  root ds = folder ∧ (data ds).*1 = referenced f ∧
  (∀ name, name ∈ referenced f → is_Some (fs !! path_join folder name)) ∧
  ∀ fs' rotated_bbox' transforms',
    ((∃ name, name ∈ referenced f ∧ fs' !! path_join folder name = None) →
     new c fs' folder f rotated_bbox' transforms' = Raised FileNotFoundError) ∧
    ((∀ name, name ∈ referenced f → is_Some (fs' !! path_join folder name)) →
     ∃ ds', new c fs' folder f rotated_bbox' transforms' = Returned ds').
Proof.
  intros Hnew.
  destruct c; destruct f as [entries|entries|entries]; try discriminate Hnew;
    unfold new in *; cbn [referenced];
    match type of Hnew with
    | context [load_entries ?fs ?folder ?parse ?entries] =>
        let Hload := fresh "Hload" in
        destruct (load_entries fs folder parse entries) as [d|] eqn:Hload;
          [|discriminate Hnew];
        injection Hnew as <-; cbn [root data];
        destruct (load_entries_returned _ _ _ _ _ Hload) as [-> Hall]
    end;
    (split; [reflexivity|]);
    (split; [rewrite <- list_fmap_compose; apply list_fmap_ext; intros ? [? ?] ?; reflexivity|]);
    (split; [exact Hall|]);
    intros fs' rotated_bbox' transforms';
    match goal with
    | |- context [load_entries ?fs ?folder ?parse ?entries] =>
        destruct (load_entries_spec fs folder parse entries) as [Hraise Hret]
    end;
    (split; [intros Hmiss; apply Hraise in Hmiss; rewrite Hmiss; reflexivity
            |intros Hall'; apply Hret in Hall' as [d' ->]; eauto]).
Qed.

(** X24: on a dataset that the constructor (as modelled from the spec) has
    just built from the image folder, the file existence check of the tests
    passes, and leaves the folder with the image back in place and without
    a [tmp_file], unless the first image is itself called [tmp_file]: then
    nothing is moved, the constructor does not raise and the check
    fails. *)
Theorem file_existence_check_passes {G : Geometry} (c : dataset_class) (fs : filesystem)
    (folder : string) (f : label_file) (rotated_bbox rotated_bbox' : bool)
    (transforms transforms' : image → image) (ds : dataset) (img_name : string) :
  new c fs folder f rotated_bbox transforms = Returned ds →
  head (referenced f) = Some img_name →
  ∃ file,
    fs !! path_join folder img_name = Some file ∧
    (path_join folder img_name ≠ path_join folder "tmp_file" →
     tests.file_existence_check (λ fs', new c fs' folder f rotated_bbox' transforms') fs ds
     = (tests.Passed,
        <[path_join folder img_name := file]> (delete (path_join folder "tmp_file") fs))) ∧
    (path_join folder img_name = path_join folder "tmp_file" →
     tests.file_existence_check (λ fs', new c fs' folder f rotated_bbox' transforms') fs ds
     = (tests.Failed, fs)).
Proof.
  intros Hnew Hhead.
  destruct (new_accepted _ _ _ _ _ _ _ Hnew) as (Hroot & Hnames & Hall & Hother).
  assert (Hin : img_name ∈ referenced f).
  { destruct (referenced f) as [|name names]; [discriminate|].
    injection Hhead as ->. left. }
  destruct (Hall _ Hin) as [file Himg]. exists file. split; [exact Himg|].
  assert (Hdata : ∃ t, data ds !! 0 = Some (img_name, t)).
  { destruct (data ds) as [|[name t] d]; cbn in Hnames.
    - rewrite <- Hnames in Hhead. discriminate.
    - rewrite <- Hnames in Hhead. injection Hhead as ->. eauto. }
  destruct Hdata as [t Hdata].
  unfold tests.file_existence_check, tests.move, filesystem in *.
  rewrite Hdata, Hroot, Himg. split.
  - intros Hne.
    rewrite (proj1 (Hother _ rotated_bbox' transforms')).
    + rewrite lookup_insert_eq.
      rewrite delete_insert_eq,
        (delete_delete _ (path_join folder "tmp_file") (path_join folder img_name)),
        insert_delete_eq.
      reflexivity.
    + exists img_name. split; [exact Hin|].
      rewrite lookup_insert_ne by congruence. apply lookup_delete_eq.
  - intros Heq. rewrite <- Heq. rewrite insert_delete_eq, insert_id by exact Himg.
    destruct (proj2 (Hother fs rotated_bbox' transforms') Hall) as [ds' ->]. reflexivity.
Qed.

Lemma file_existence_check_passes_witness :
  ∃ file,
    sample_fs !! path_join "imgs" "a.jpg" = Some file ∧
    (path_join "imgs" "a.jpg" ≠ path_join "imgs" "tmp_file" →
     tests.file_existence_check
       (λ fs', new (G := flat_geometry) DetectionDataset fs' "imgs" sample_polygons false id)
       sample_fs
       {| root := "imgs";
          data := [("a.jpg", ArrayTarget [[0; 0; 1; 1]%Q]); ("b.jpg", ArrayTarget [])];
          img_transforms := Resize (1024, 1024) |}
     = (tests.Passed,
        <[path_join "imgs" "a.jpg" := file]> (delete (path_join "imgs" "tmp_file") sample_fs))) ∧
    (path_join "imgs" "a.jpg" = path_join "imgs" "tmp_file" →
     tests.file_existence_check
       (λ fs', new (G := flat_geometry) DetectionDataset fs' "imgs" sample_polygons false id)
       sample_fs
       {| root := "imgs";
          data := [("a.jpg", ArrayTarget [[0; 0; 1; 1]%Q]); ("b.jpg", ArrayTarget [])];
          img_transforms := Resize (1024, 1024) |}
     = (tests.Failed, sample_fs)).
Proof.
  apply (file_existence_check_passes (G := flat_geometry) DetectionDataset sample_fs "imgs"
           sample_polygons false false (Resize (1024, 1024)) id).
  - vm_compute. reflexivity.
  - reflexivity.
Defined.

Lemma string_app_cons x a b : String x a +:+ b = String x (a +:+ b).
Proof. reflexivity. Qed.

Lemma split_nonempty s : tests.split s ≠ [].
Proof.
  destruct s as [|c rest]; cbn; [discriminate|].
  destruct (Ascii.eqb c tests.slash); [discriminate|].
  destruct (tests.split rest); discriminate.
Qed.

Lemma join_cons part parts :
  parts ≠ [] → tests.join (part :: parts) = part +:+ String tests.slash (tests.join parts).
Proof. destruct parts; [congruence|reflexivity]. Qed.

Lemma join_split s : tests.join (tests.split s) = s.
Proof.
  induction s as [|c rest IH]; [reflexivity|]. cbn [tests.split].
  pose proof (split_nonempty rest) as Hne.
  destruct (Ascii.eqb_spec c tests.slash) as [->|_].
  - rewrite join_cons by exact Hne. rewrite IH. reflexivity.
  - destruct (tests.split rest) as [|part parts]; [congruence|].
    rewrite <- IH. destruct parts; reflexivity.
Qed.

Lemma split_slash_free s : tests.slash_free s = true → tests.split s = [s].
Proof.
  induction s as [|c rest IH]; [reflexivity|]. cbn.
  destruct (Ascii.eqb c tests.slash); [discriminate|]. cbn.
  intros Hfree. rewrite (IH Hfree). reflexivity.
Qed.

Lemma split_app a b :
  tests.split (a +:+ String tests.slash b) = tests.split a ++ tests.split b.
Proof.
  induction a as [|c a IH].
  - change (EmptyString +:+ String tests.slash b) with (String tests.slash b).
    cbn [tests.split]. rewrite Ascii.eqb_refl. reflexivity.
  - rewrite string_app_cons. cbn [tests.split]. rewrite IH. pose proof (split_nonempty a) as Hne.
    destruct (Ascii.eqb c tests.slash); [reflexivity|].
    destruct (tests.split a) as [|part parts]; [congruence|reflexivity].
Qed.

Lemma string_app_assoc (a b c : string) : (a +:+ b) +:+ c = a +:+ (b +:+ c).
Proof.
  induction a as [|x a IH]; [reflexivity|].
  rewrite !string_app_cons. f_equal. exact IH.
Qed.

Lemma split_length s : length (tests.split s) < 2 ↔ tests.slash_free s = true.
Proof.
  induction s as [|c rest IH]; cbn.
  - split; [reflexivity|lia].
  - pose proof (split_nonempty rest) as Hne.
    destruct (Ascii.eqb c tests.slash); cbn.
    + destruct (tests.split rest); [congruence|]. cbn. split; [lia|discriminate].
    + rewrite <- IH. destruct (tests.split rest); [congruence|reflexivity].
Qed.

(** X25: the cache directory and subdirectory that the benchmark tests
    compute from the path of the mock archive: for a path
    [dir/subdir/file], they are [dir] and [subdir], whatever slashes [dir]
    has; a relative path [subdir/file] gives the empty cache directory, the
    same as the absolute path [/subdir/file]. *)
Theorem cache_location_of_path (dir subdir file : string) :
  tests.slash_free subdir = true →
  tests.slash_free file = true →
  tests.cache_location (dir +:+ "/" +:+ subdir +:+ "/" +:+ file) = Returned (dir, subdir) ∧
  tests.cache_location (subdir +:+ "/" +:+ file) = Returned (EmptyString, subdir).
Proof.
  intros Hsub Hfile.
  assert (Htail : tests.split (subdir +:+ String tests.slash file) = [subdir; file]).
  { rewrite split_app, (split_slash_free _ Hsub), (split_slash_free _ Hfile). reflexivity. }
  split.
  - change (dir +:+ "/" +:+ subdir +:+ "/" +:+ file)
      with (dir +:+ String tests.slash (subdir +:+ String tests.slash file)).
    unfold tests.cache_location, tests.last_but_one, tests.all_but_last_two.
    rewrite split_app, Htail, length_app. cbn [length].
    replace (length (tests.split dir) + 2 <? 2) with false
      by (symmetry; apply Nat.ltb_ge; lia).
    replace (length (tests.split dir) + 2 - 2) with (length (tests.split dir)) by lia.
    rewrite list_lookup_middle by reflexivity.
    rewrite take_app_length, join_split. reflexivity.
  - change (subdir +:+ "/" +:+ file) with (subdir +:+ String tests.slash file).
    unfold tests.cache_location, tests.last_but_one, tests.all_but_last_two.
    rewrite Htail. reflexivity.
Qed.

Lemma cache_location_of_path_witness :
  tests.cache_location "/tmp/pytest/svhn/svhn_train.tar" = Returned ("/tmp/pytest", "svhn") ∧
  tests.cache_location "svhn/svhn_train.tar" = Returned (EmptyString, "svhn").
Proof.
  apply (cache_location_of_path "/tmp/pytest" "svhn" "svhn_train.tar"); reflexivity.
Defined.

(** X26: the computation of the cache location fails only on a path
    without a slash, with the [IndexError] of [[-2]]; on any other path
    it gives a subdirectory without a slash, and the path is made of the
    cache directory, the subdirectory and a file name, joined by slashes,
    the cache directory and its slash being left out for a path with a
    single slash. *)
Theorem cache_location_outcome (url : string) :
  (tests.cache_location url = Raised IndexError ↔ tests.slash_free url = true) ∧
  (∀ e, tests.cache_location url = Raised e → e = IndexError) ∧
  (∀ dir subdir,
     tests.cache_location url = Returned (dir, subdir) →
     tests.slash_free subdir = true ∧
     ∃ file, tests.slash_free file = true ∧
       (url = dir +:+ "/" +:+ subdir +:+ "/" +:+ file
        ∨ dir = EmptyString ∧ url = subdir +:+ "/" +:+ file)).
Proof.
  assert (Hparts : ∀ s, Forall (λ part, tests.slash_free part = true) (tests.split s)).
  { induction s as [|c rest IH]; cbn; [repeat constructor|].
    destruct (Ascii.eqb c tests.slash) eqn:Hc; [constructor; [reflexivity|exact IH]|].
    destruct (tests.split rest) as [|part parts]; [repeat constructor; cbn; rewrite Hc; reflexivity|].
    inversion IH; subst. constructor; [cbn; rewrite Hc; assumption|assumption]. }
  assert (Hlast : ∀ l : list string, 2 ≤ length l →
            ∃ init a b, l = init ++ [a; b]).
  { intros l Hl. exists (take (length l - 2) l).
    destruct (drop (length l - 2) l) as [|a [|b [|c rest]]] eqn:Hdrop;
      pose proof (f_equal length Hdrop) as Hlen; rewrite length_drop in Hlen;
      cbn in Hlen; try lia.
    exists a, b. rewrite <- Hdrop, take_drop. reflexivity. }
  pose proof (split_length url) as Hlen.
  unfold tests.cache_location, tests.last_but_one, tests.all_but_last_two.
  destruct (length (tests.split url) <? 2) eqn:Hshort.
  - apply Nat.ltb_lt in Hshort. split; [|split].
    + split; [intros _; apply Hlen, Hshort|reflexivity].
    + intros e [= <-]. reflexivity.
    + discriminate.
  - apply Nat.ltb_ge in Hshort.
    destruct (Hlast _ Hshort) as (init & a & b & Hsplit).
    pose proof (Hparts url) as Hfree. rewrite Hsplit in Hfree.
    apply Forall_app in Hfree as [_ Hfree].
    apply Forall_cons in Hfree as [Ha Hfree]. apply Forall_cons in Hfree as [Hb _].
    pose proof (join_split url) as Hjoin.
    rewrite Hsplit in *. rewrite length_app in *. cbn [length] in *.
    replace (length init + 2 - 2) with (length init) by lia.
    rewrite list_lookup_middle by reflexivity. rewrite take_app_length.
    split; [|split].
    + split; [discriminate|]. intros Hf. apply Hlen in Hf. lia.
    + discriminate.
    + intros dir subdir [= <- <-]. split; [exact Ha|]. exists b. split; [exact Hb|].
      destruct init as [|p init]; [right; split; [reflexivity|]; rewrite <- Hjoin; reflexivity|].
      left. rewrite <- Hjoin. clear. revert p.
      induction init as [|q init IH]; intros p; [reflexivity|].
      change (tests.join ((p :: q :: init) ++ [a; b]))
        with (p +:+ String tests.slash (tests.join ((q :: init) ++ [a; b]))).
      rewrite IH.
      change (tests.join (p :: q :: init))
        with (p +:+ String tests.slash (tests.join (q :: init))).
      rewrite string_app_assoc. reflexivity.
Qed.

(** ** The mode of the model *)

Lemma modes_app m t1 t2 :
  modes m (t1 ++ t2) = match modes m t1 with Some m' => modes m' t2 | None => None end.
Proof.
  revert m. induction t1 as [|e t1 IH]; intros m; [reflexivity|].
  destruct e; cbn [app modes]; try apply IH; destruct m as [[|]|]; try apply IH; reflexivity.
Qed.

Lemma modes_iterations k amp :
  modes (Some Training) (concat (replicate k (iteration amp))) = Some (Some Training).
Proof.
  induction k as [|k IH]; [reflexivity|].
  cbn [replicate concat]. rewrite modes_app.
  replace (modes (Some Training) (iteration amp)) with (Some (Some Training))
    by (destruct amp; reflexivity).
  exact IH.
Qed.

Lemma modes_fit_one_epoch m n amp :
  modes m (trace (fit_one_epoch n amp)) = Some (Some Training).
Proof.
  rewrite fit_one_epoch_trace. destruct amp; cbn [app modes]; apply modes_iterations.
Qed.

Lemma modes_evaluate m l n loss amp :
  modes m (trace (evaluate l n loss amp)) = Some (Some Evaluating).
Proof.
  rewrite evaluate_trace. cbn [app modes].
  induction n as [|n IH]; [reflexivity|exact IH].
Qed.

Lemma modes_record_lr m n losses num_it amp :
  is_Some (modes m (trace (record_lr n losses num_it amp))).
Proof.
  destruct (Z_lt_le_dec (Z.of_nat n) num_it) as [Hlt|Hle].
  { rewrite (record_lr_few_batches _ _ _ _ Hlt). cbn. eauto. }
  destruct (Z.eq_dec num_it 1%Z) as [H1|H1].
  { rewrite (record_lr_one_iteration _ _ _ _ Hle H1). cbn. eauto. }
  destruct (record_lr_started n losses num_it amp Hle H1) as [-> _].
  destruct (record_lr_batches_trace amp num_it losses n 0 []) as (k & _ & ->).
  rewrite modes_app.
  replace (modes m ([ModelTrain; NewMultiplicativeLR] ++ (if amp then [NewGradScaler] else [])))
    with (Some (Some Training)) by (destruct amp; reflexivity).
  rewrite modes_iterations. eauto.
Qed.

Section Modes.
Context {ES : Type} `{!utils.EarlyStopper ES}.
Variables (a : args) (w : world).

Lemma modes_checkpoints m epoch val_loss least :
  modes m (checkpoints a w epoch val_loss least) = Some m.
Proof.
  unfold checkpoints. destruct (flt val_loss least), (save_interval_epoch a); reflexivity.
Qed.

Lemma modes_epoch_body m epoch (st : loop_state ES) :
  is_Some (modes m (trace (epoch_body a w epoch st))).
Proof.
  rewrite epoch_body_trace.
  destruct (train_loader w); [rewrite modes_fit_one_epoch; eauto|].
  destruct (val_loader w).
  - rewrite modes_app, modes_fit_one_epoch, modes_evaluate. eauto.
  - unfold epoch_passes. rewrite <- !app_assoc.
    rewrite modes_app, modes_fit_one_epoch.
    do 3 rewrite modes_app, modes_evaluate.
    rewrite modes_checkpoints. eauto.
Qed.

Lemma modes_training_loop m l (st : loop_state ES) :
  is_Some (modes m (trace (training_loop a w l st))).
Proof.
  revert m st. induction l as [|epoch l IH]; intros m st; [cbn; eauto|].
  cbn [training_loop]. rewrite trace_bind, modes_app.
  destruct (modes_epoch_body m epoch st) as [m' ->].
  destruct (result (epoch_body a w epoch st)) as [[st1 [|]]|e]; cbn; eauto.
Qed.

End Modes.

(** X27: the forward passes run in the mode they are meant for.  Whatever
    mode the model is in when [main] starts, every forward pass of training
    comes after a [model.train()] with no [model.eval()] in between, and
    every forward pass of evaluation after a [model.eval()] with no
    [model.train()] in between; the same holds of the learning-rate search
    for any number of iterations; an epoch of training leaves the model in
    training mode and an evaluation leaves it in evaluation mode. *)
Theorem forward_passes_in_their_mode {ES : Type} `{!utils.EarlyStopper ES}
    (a : args) (w : world) (m : option mode) :
  is_Some (modes m (trace (main (ES := ES) a w))) ∧
  (∀ n losses num_it amp, is_Some (modes m (trace (record_lr n losses num_it amp)))) ∧
  (∀ n amp, modes m (trace (fit_one_epoch n amp)) = Some (Some Training)) ∧
  (∀ l n loss amp, modes m (trace (evaluate l n loss amp)) = Some (Some Evaluating)).
Proof.
  split; [|split; [|split]].
  - rewrite main_trace.
    destruct (test_only a); [rewrite modes_evaluate; eauto|].
    destruct (show_samples a); [cbn; eauto|].
    destruct (find_lr a); [apply modes_record_lr|].
    cbn [modes]. apply modes_training_loop.
  - intros. apply modes_record_lr.
  - intros. apply modes_fit_one_epoch.
  - intros. apply modes_evaluate.
Qed.

Example modes_refuses_wrong_mode :
  modes None [Forward false] = None ∧
  modes (Some Evaluating) [ZeroGrad; Forward true] = None ∧
  modes (Some Training) [EvalForward ValLoader false] = None.
Proof. repeat split. Qed.

(** ** The log messages *)

Lemma and_then_error r k :
  logging.and_then r k = logging.TypeError ↔ r = logging.TypeError ∨ k = logging.TypeError.
Proof. destruct r, k; cbn; split; auto; intros [|]; congruence. Qed.

Lemma percents_error s : logging.percents s = logging.TypeError ↔ logging.undefined s.
Proof.
  destruct s as [[[r|] [p|]] [m|]]; cbn; split; try congruence; try (intros _; set_solver).
  intros Hin. repeat (apply elem_of_cons in Hin as [[=]|Hin]). inversion Hin.
Qed.

Lemma any_undefined_spec s : logging.any_undefined s = true ↔ logging.undefined s.
Proof.
  destruct s as [[[r|] [p|]] [m|]]; cbn; split; try congruence; try (intros _; set_solver).
  intros Hin. repeat (apply elem_of_cons in Hin as [[=]|Hin]). inversion Hin.
Qed.

Lemma test_summary_undefined (evaluation : outcome logging.summary) :
  logging.undefined (logging.test_summary evaluation)
  ↔ ∃ s, evaluation = Returned s ∧ logging.undefined s.
Proof.
  destruct evaluation as [s|e]; cbn.
  - split; [eauto|]. intros (s' & [= <-] & Hs). exact Hs.
  - split; [|intros (s & [=] & _)].
    intros Hin. repeat (apply elem_of_cons in Hin as [[=]|Hin]). inversion Hin.
Qed.

(** X28: the log message built at the end of an epoch guards the
    validation metrics against undefined values but not the metrics of the
    FUNSD and CORD test sets.  Its construction raises [TypeError] exactly
    when the three validation metrics are defined and an evaluation on a
    test set returned an undefined metric; a test evaluation that raised
    leaves zeros behind and cannot make it fail, and neither can an
    undefined validation metric.  The report of [--test-only] has no guard:
    it raises exactly when a validation metric is undefined. *)
Theorem log_message_rendering (val : logging.summary)
    (funsd cord : outcome logging.summary) :
  (logging.log_msg val funsd cord = logging.TypeError
   ↔ ¬ logging.undefined val ∧
     ∃ s, (funsd = Returned s ∨ cord = Returned s) ∧ logging.undefined s) ∧
  (logging.test_only_report val = logging.TypeError ↔ logging.undefined val).
Proof.
  split; [|apply percents_error].
  unfold logging.log_msg.
  pose proof (any_undefined_spec val) as Hval.
  destruct (logging.any_undefined val).
  - split; [discriminate|]. intros [Hdef _]. destruct Hdef. apply Hval. reflexivity.
  - assert (Hdef : ¬ logging.undefined val) by (intros Hu; apply Hval in Hu; discriminate).
    rewrite !and_then_error, !percents_error, !test_summary_undefined. split.
    + intros [Hu|[(s & -> & Hs)|(s & -> & Hs)]]; [contradiction|..];
        (split; [exact Hdef|]); exists s; auto.
    + intros (_ & s & [->| ->] & Hs); [right; left|right; right]; eauto.
Qed.

(** ** A log message that cannot be built *)


